(** * docs_rag v3.0: batch writer, checkpoint manager and crash recovery

    A shallow embedding of [src/docs_rag/streaming.py], [checkpoint.py],
    [recovery.py] and [database.py], and the properties of the
    checkpoint / recovery / batch-write protocol proved over it.

    Python objects are records, mutable attributes are threaded explicitly,
    and every call into a collaborator is a state transformer that either
    returns a value or raises.

    Conventions of the embedding:
    - dynamically typed slots hold [None], a [bool], an [int] or a [str];
      integers are unbounded, and reading or printing one is subject to
      the interpreter's default limit of 4300 digits;
    - strings are sequences of code points below 256;
    - an exception is an instance of [Exception], given by its class and
      its [str]; [KeyboardInterrupt] and the like are outside the model;
    - [datetime.now()] timestamps are left out of checkpoints and rows;
    - the storage collaborator and the file system are arbitrary: each of
      their methods may return or raise and may change the outside world. *)

From Stdlib Require Import ZArith Ascii String DecimalString DecimalN Bool Lia.
From stdpp Require Import gmap strings list.

Open Scope string_scope.
Open Scope Z_scope.

(** ** Python primitives used by the sources *)

Module Py.

(** Values of dynamically typed slots ([Dict[str, Any]] entries, row
    columns): [None], a [bool], an [int], or a [str]. *)
Inductive pyval :=
| VNone
| VBool (b : bool)
| VInt (z : Z)
| VStr (s : string).

#[export] Instance pyval_eq_dec : EqDecision pyval.
Proof. solve_decision. Defined.

(** [bool(v)]. *)
Definition truthy (v : pyval) : bool :=
  match v with
  | VNone => false
  | VBool b => b
  | VInt z => negb (z =? 0)
  | VStr s => negb (String.eqb s "")
  end.

(** [type(v).__name__]. *)
Definition type_name (v : pyval) : string :=
  match v with
  | VNone => "NoneType"
  | VBool _ => "bool"
  | VInt _ => "int"
  | VStr _ => "str"
  end.

(** Strings are sequences of code points below 256. *)
Definition code (c : ascii) : nat := nat_of_ascii c.

Definition is_decimal (c : ascii) : bool :=
  ((48 <=? code c) && (code c <=? 57))%nat.

(** [c.isdigit()]: the decimal digits, and the superscript digits
    U+00B2, U+00B3, U+00B9, which [int] rejects. *)
Definition isdigit_char (c : ascii) : bool :=
  is_decimal c
  || (code c =? 178)%nat || (code c =? 179)%nat || (code c =? 185)%nat.

Fixpoint all_chars (p : ascii -> bool) (s : string) : bool :=
  match s with
  | EmptyString => true
  | String c s' => p c && all_chars p s'
  end.

(** [s.isdigit()]: at least one character, all of them digits. *)
Definition isdigit (s : string) : bool :=
  negb (String.eqb s "") && all_chars isdigit_char s.

Definition digit_value (c : ascii) : Z := Z.of_nat (code c) - 48.

Fixpoint int_acc (acc : Z) (s : string) : option Z :=
  match s with
  | EmptyString => Some acc
  | String c s' =>
      if is_decimal c then int_acc (10 * acc + digit_value c) s' else None
  end.

(** [sys.get_int_max_str_digits()]: the interpreter's default limit on the
    number of digits of an integer read from or printed to a string. *)
Definition max_str_digits : Z := 4300.

(** [int(s)] for a string of digits; [None] stands for [ValueError], which
    is also raised when [s] has more characters than the limit. *)
Definition int (s : string) : option Z :=
  match s with
  | EmptyString => None
  | _ =>
      if max_str_digits <? Z.of_nat (String.length s) then None
      else int_acc 0 s
  end.

(** [s.split(sep)] for a one-character separator. *)
Fixpoint split (sep : ascii) (s : string) : list string :=
  match s with
  | EmptyString => [EmptyString]
  | String c s' =>
      if Ascii.eqb c sep then EmptyString :: split sep s'
      else match split sep s' with
           | h :: t => String c h :: t
           | [] => [String c EmptyString]
           end
  end.

(** [s.split(sep)[0]] for a non-empty separator: what precedes the first
    occurrence of [sep], or all of [s]. *)
Fixpoint split_head (sep s : string) : string :=
  match s with
  | EmptyString => EmptyString
  | String c s' =>
      if String.prefix sep s then EmptyString
      else String c (split_head sep s')
  end.

Fixpoint zeros (n : nat) : string :=
  match n with
  | O => EmptyString
  | S n' => String "0" (zeros n')
  end.

(** [str(n)] for [n >= 0]. *)
Definition decimal (n : Z) : string :=
  NilZero.string_of_uint (N.to_uint (Z.to_N n)).

Definition zfill (width : nat) (s : string) : string :=
  zeros (width - String.length s) +:+ s.

(** [f"{n:03d}"]; [None] stands for the [ValueError] raised when [n] has
    more digits than the limit. *)
Definition format_03d (n : Z) : option string :=
  if max_str_digits <? Z.of_nat (String.length (decimal (Z.abs n))) then None
  else Some (if n <? 0 then "-" +:+ zfill 2 (decimal (- n)) else zfill 3 (decimal n)).

Definition lower_char (c : ascii) : ascii :=
  let n := code c in
  if ((65 <=? n) && (n <=? 90))%nat
     || ((192 <=? n) && (n <=? 222) && negb (n =? 215))%nat
  then ascii_of_nat (n + 32) else c.

(** [s.lower()]. *)
Fixpoint lower (s : string) : string :=
  match s with
  | EmptyString => EmptyString
  | String c s' => String (lower_char c) (lower s')
  end.

(** [needle in s]. *)
Fixpoint contains (needle s : string) : bool :=
  String.prefix needle s
  || match s with
     | EmptyString => false
     | String _ s' => contains needle s'
     end.

(** [s.startswith(p)]. *)
Definition startswith (p s : string) : bool := String.prefix p s.

End Py.
Export Py.

(** ** Exceptions *)

Inductive exn_class :=
| ValueError             (* the specification's ValidationError *)
| CorruptCheckpointError
| ConflictError
| BatchNotFoundError
| AttributeError
| TypeError
| KeyError
| IntegrityError         (* sqlite3.IntegrityError *)
| OtherError (name : string).

#[export] Instance exn_class_eq_dec : EqDecision exn_class.
Proof. solve_decision. Defined.

(** An exception instance: its class and [str(e)]. *)
Record exn := Exn { exn_cls : exn_class; exn_str : string }.

#[export] Instance exn_eq_dec : EqDecision exn.
Proof. solve_decision. Defined.

(** The error of [v.attr] on a value without that attribute. *)
Definition no_attribute (v : pyval) (attr : string) : exn :=
  Exn AttributeError
    ("'" +:+ type_name v +:+ "' object has no attribute '" +:+ attr +:+ "'").

(** ** checkpoint.py: data classes *)

Record Checkpoint := {
  last_batch_id : string;
  total_persisted : Z;
  status : string;
  db_count_matches : bool
}.

(** [Checkpoint.to_dict()]; the wall-clock [timestamp] entry is left out. *)
Definition to_dict (c : Checkpoint) : gmap string pyval :=
  {[ "last_batch_id" := VStr (last_batch_id c);
     "total_persisted" := VInt (total_persisted c);
     "status" := VStr (status c);
     "db_count_matches" := VBool (db_count_matches c) ]}.

(** The idiom shared by [resume_from], [recover], [has_partial_batch] and
    [discard_partial_batch]:
    [parts = x.split('_'); if len(parts) == 2 and parts[1].isdigit(): int(parts[1])]. *)
Inductive suffix :=
| Numbered (n : Z)     (* two parts, digits, [int] succeeds *)
| IntRaises            (* two parts, [isdigit], [int] raises ValueError *)
| Unnumbered.          (* not two parts, or the second is not digits *)

Definition numeric_suffix (x : string) : suffix :=
  let parts := split "_" x in
  if (length parts =? 2)%nat && isdigit (nth 1 parts "") then
    match int (nth 1 parts "") with
    | Some n => Numbered n
    | None => IntRaises
    end
  else Unnumbered.

Record RecoveryPoint := {
  rp_last_batch_id : pyval;      (* Optional[str] *)
  rp_total_persisted : pyval;
  can_resume : bool
}.

(** [RecoveryPoint.resume_from]. *)
Definition resume_from (self : RecoveryPoint) : exn + option string :=
  match rp_last_batch_id self with
  | VStr s =>
      if negb (truthy (VStr s)) then inr None
      else match numeric_suffix s with
           | Numbered n =>
               match format_03d (n + 1) with
               | Some next => inr (Some ("batch_" +:+ next))
               | None => inr None
               end
           | IntRaises => inr None
           | Unnumbered => inr None
           end
  | v =>
      if negb (truthy v) then inr None
      else inl (no_attribute v "split")
  end.

(** ** Calls that may raise

    A call runs on a state and leaves a state behind, whether it returns
    ([inr]) or raises ([inl]); what was mutated before a [raise] stays
    mutated. *)

Definition M (St A : Type) : Type := St -> St * (exn + A).

Definition ret {St A} (a : A) : M St A := fun st => (st, inr a).

Definition raise {St A} (e : exn) : M St A := fun st => (st, inl e).

Definition bind {St A B} (m : M St A) (k : A -> M St B) : M St B :=
  fun st =>
    match m st with
    | (st', inr a) => k a st'
    | (st', inl e) => (st', inl e)
    end.

(** [try: m  except Exception as e: handler e]. *)
Definition try_except {St A} (m : M St A) (handler : exn -> M St A) : M St A :=
  fun st =>
    match m st with
    | (st', inr a) => (st', inr a)
    | (st', inl e) => handler e st'
    end.

Definition get {St} : M St St := fun st => (st, inr st).

Definition modify {St} (f : St -> St) : M St unit := fun st => (f st, inr tt).

(** Run a call on the second component of a pair of states. *)
Definition on_snd {X St A} (m : M St A) : M (X * St) A :=
  fun '(x, st) => let '(st', r) := m st in ((x, st'), r).

Declare Scope py_scope.
Delimit Scope py_scope with py.
Notation "x <- m ;; k" := (bind m (fun x => k))
  (at level 100, m at next level, right associativity) : py_scope.
Notation "m ;;; k" := (bind m (fun _ => k))
  (at level 100, right associativity) : py_scope.
Open Scope py_scope.

(** ** The storage collaborator

    What [get_latest_checkpoint] hands back: a dictionary, or any other
    object ([OScalar VNone] is [None]). *)

Inductive pyobj :=
| ODict (d : gmap string pyval)
| OScalar (v : pyval).

(** [bool(o)]. *)
Definition obj_truthy (o : pyobj) : bool :=
  match o with
  | ODict d => negb (bool_decide (d = ∅))
  | OScalar v => truthy v
  end.

(** [d.get(key, default)]. *)
Definition dict_get (d : gmap string pyval) (key : string) (default : pyval) : pyval :=
  match d !! key with
  | Some v => v
  | None => default
  end.

(** The methods the three components call on their [db_connection], over
    the state [S] of the world outside the process. [has_partial_batch]
    and [discard_partial_batch] are looked up with [hasattr]. *)
Record Storage (S : Type) := {
  check_connection : M S bool;
  insert_documents : list (gmap string pyval) -> string -> M S unit;
  commit : M S unit;
  get_latest_checkpoint : M S pyobj;
  save_checkpoint : gmap string pyval -> M S unit;
  get_document_count : M S Z;
  has_partial_batch : option (M S bool);
  discard_partial_batch : option (M S unit)
}.
Arguments check_connection {S}.
Arguments insert_documents {S}.
Arguments commit {S}.
Arguments get_latest_checkpoint {S}.
Arguments save_checkpoint {S}.
Arguments get_document_count {S}.
Arguments has_partial_batch {S}.
Arguments discard_partial_batch {S}.

(** [open(path, 'w')] with [json.dump], and [os.rename]. *)
Record OS (S : Type) := {
  write_json : string -> gmap string pyval -> M S unit;
  rename : string -> string -> M S unit
}.
Arguments write_json {S}.
Arguments rename {S}.

(** ** checkpoint.py: CheckpointManager *)

Record CheckpointManager (S : Type) := {
  cm_db : option (Storage S);
  checkpoint_file : option string;
  _checkpoints : list Checkpoint
}.
Arguments cm_db {S}.
Arguments checkpoint_file {S}.
Arguments _checkpoints {S}.

Definition CheckpointManager_init {S} (db_connection : option (Storage S))
    (checkpoint_file : option string) : CheckpointManager S :=
  {| cm_db := db_connection; checkpoint_file := checkpoint_file; _checkpoints := [] |}.

(** [self._checkpoints.append(checkpoint)]. *)
Definition append_checkpoint {S} (checkpoint : Checkpoint) (self : CheckpointManager S)
  : CheckpointManager S :=
  {| cm_db := cm_db self; checkpoint_file := checkpoint_file self;
     _checkpoints := _checkpoints self ++ [checkpoint] |}.

(** [RecoveryPoint(last_batch_id, total_persisted, can_resume)] with
    [__post_init__]. *)
Definition RecoveryPoint_init (last_batch_id total_persisted : pyval)
    (can_resume : option bool) : RecoveryPoint :=
  {| rp_last_batch_id := last_batch_id;
     rp_total_persisted := total_persisted;
     can_resume := match can_resume with
                   | Some b => b
                   | None => negb (bool_decide (last_batch_id = VNone))
                   end |}.

Section Manager.
Context {S : Type} (os : OS S).

(** [CheckpointManager._write_checkpoint_file]. *)
Definition _write_checkpoint_file (self : CheckpointManager S) (checkpoint : Checkpoint)
  : M S unit :=
  match checkpoint_file self with
  | Some path =>
      if negb (truthy (VStr path)) then ret tt
      else
        let temp_path := path +:+ ".tmp" in
        write_json os temp_path (to_dict checkpoint) ;;;
        rename os temp_path path
  | None => ret tt
  end.

(** Lines 134-148 of [update_checkpoint]: the cumulative count. *)
Definition cumulative_count (self : CheckpointManager S) (persisted_count : Z) : M S Z :=
  match last (_checkpoints self) with
  | Some c => ret (persisted_count + total_persisted c)
  | None =>
      match cm_db self with
      | Some db =>
          latest <- get_latest_checkpoint db ;;
          if obj_truthy latest then
            match latest with
            | ODict d =>
                match dict_get d "total_persisted" (VInt 0) with
                | VInt prev_count => ret (persisted_count + prev_count)
                | VBool prev_count => ret (persisted_count + Z.b2z prev_count)
                | _ => ret persisted_count
                end
            | OScalar v => raise (no_attribute v "get")
            end
          else ret persisted_count
      | None => ret persisted_count
      end
  end.

(** Lines 150-161 of [update_checkpoint]: the checkpoint about to be
    recorded. *)
Definition new_checkpoint (self : CheckpointManager S) (batch_id : string)
    (persisted_count : Z) (verify_db_state : bool) : M S Checkpoint :=
  cumulative <- cumulative_count self persisted_count ;;
  matches <-
    match cm_db self with
    | Some db =>
        if verify_db_state then
          actual_count <- get_document_count db ;;
          ret (actual_count =? cumulative)
        else ret false
    | None => ret false
    end ;;
  ret {| last_batch_id := batch_id; total_persisted := cumulative;
         status := "committed"; db_count_matches := matches |}.

(** The exception [update_checkpoint] lets out when [save_checkpoint]
    raised [e]. *)
Definition translated (e : exn) : exn :=
  if contains "concurrent" (lower (exn_str e)) || contains "conflict" (lower (exn_str e))
  then Exn ConflictError "Concurrent update detected"
  else e.

(** Lines 165-172 of [update_checkpoint]: persist to the database. *)
Definition persist (self : CheckpointManager S) (checkpoint : Checkpoint) : M S unit :=
  match cm_db self with
  | Some db =>
      try_except (save_checkpoint db (to_dict checkpoint))
        (fun e => raise (translated e))
  | None => ret tt
  end.

(** [CheckpointManager.update_checkpoint]. *)
Definition update_checkpoint (batch_id : string) (persisted_count : Z)
    (metadata : option (gmap string pyval)) (verify_db_state : bool)
  : M (CheckpointManager S * S) Checkpoint :=
  if persisted_count <? 0 then
    raise (Exn ValueError "persisted_count must be non-negative")
  else
    self <- get ;;
    checkpoint <- on_snd (new_checkpoint (fst self) batch_id persisted_count
                            verify_db_state) ;;
    modify (fun '(cm, s) => (append_checkpoint checkpoint cm, s)) ;;;
    on_snd (persist (fst self) checkpoint) ;;;
    on_snd (_write_checkpoint_file (fst self) checkpoint) ;;;
    ret checkpoint.

(** [latest.get("total_persisted", 0) < 0]. *)
Definition negative (v : pyval) : exn + bool :=
  match v with
  | VInt z => inr (z <? 0)
  | VBool _ => inr false
  | VNone | VStr _ =>
      inl (Exn TypeError
             ("'<' not supported between instances of '" +:+ type_name v
              +:+ "' and 'int'"))
  end.

(** [CheckpointManager.get_recovery_point]. *)
Definition get_recovery_point (self : CheckpointManager S) : M S RecoveryPoint :=
  latest <- match cm_db self with
            | Some db => get_latest_checkpoint db
            | None => ret (OScalar VNone)
            end ;;
  let latest :=
    match latest, last (_checkpoints self) with
    | OScalar VNone, Some c => ODict (to_dict c)
    | _, _ => latest
    end in
  match latest with
  | OScalar VNone => ret (RecoveryPoint_init VNone (VInt 0) (Some false))
  | OScalar _ => raise (Exn CorruptCheckpointError "Checkpoint data is not a dictionary")
  | ODict d =>
      match d !! "last_batch_id", d !! "total_persisted" with
      | None, _ =>
          raise (Exn CorruptCheckpointError
                   "Checkpoint missing required field: last_batch_id")
      | Some _, None =>
          raise (Exn CorruptCheckpointError
                   "Checkpoint missing required field: total_persisted")
      | Some _, Some _ =>
          match negative (dict_get d "total_persisted" (VInt 0)) with
          | inl e => raise e
          | inr true =>
              raise (Exn CorruptCheckpointError "Checkpoint has negative total_persisted")
          | inr false =>
              let can_resume :=
                negb (bool_decide (dict_get d "last_batch_id" VNone = VNone)) in
              ret (RecoveryPoint_init (dict_get d "last_batch_id" VNone)
                     (dict_get d "total_persisted" (VInt 0)) (Some can_resume))
          end
      end
  end.

End Manager.

(** ** streaming.py: StreamingBatchWriter *)

Record BatchResult := {
  success : bool;
  persisted_count : Z;
  batch_id : string;
  checkpoint_updated : bool;
  error : option string
}.

Record StreamingBatchWriter (S : Type) := {
  w_db : option (Storage S);
  w_checkpoint_manager : option (CheckpointManager S);
  batch_size : Z;
  _pending_batches : gmap string pyval;
  _processed_batch_ids : gset string
}.
Arguments w_db {S}.
Arguments w_checkpoint_manager {S}.
Arguments batch_size {S}.
Arguments _pending_batches {S}.
Arguments _processed_batch_ids {S}.

Definition StreamingBatchWriter_init {S} (db_connection : option (Storage S))
    (checkpoint_manager : option (CheckpointManager S)) (batch_size : Z)
  : StreamingBatchWriter S :=
  {| w_db := db_connection; w_checkpoint_manager := checkpoint_manager;
     batch_size := batch_size; _pending_batches := ∅; _processed_batch_ids := ∅ |}.

(** [key not in doc or doc[key] is None]. *)
Definition lacks (doc : gmap string pyval) (key : string) : bool :=
  match doc !! key with
  | None => true
  | Some v => bool_decide (v = VNone)
  end.

(** The validation loop of [process_batch], lines 70-74: the error raised
    by the first offending document, if any. *)
Fixpoint validate_documents (documents : list (gmap string pyval)) : option exn :=
  match documents with
  | [] => None
  | doc :: rest =>
      if lacks doc "id" then Some (Exn ValueError "Document missing required field: id")
      else if lacks doc "content" then
        Some (Exn ValueError "Document missing required field: content")
      else validate_documents rest
  end.

Section Writer.
Context {S : Type} (os : OS S).

(** Run a method of the writer's checkpoint manager on the writer. *)
Definition on_manager {A} (m : M (CheckpointManager S * S) A)
  : M (StreamingBatchWriter S * S) (option A) :=
  fun '(w, s) =>
    match w_checkpoint_manager w with
    | Some cm =>
        let '((cm', s'), r) := m (cm, s) in
        (({| w_db := w_db w; w_checkpoint_manager := Some cm';
             batch_size := batch_size w; _pending_batches := _pending_batches w;
             _processed_batch_ids := _processed_batch_ids w |}, s'),
         match r with inl e => inl e | inr a => inr (Some a) end)
    | None => ((w, s), inr None)
    end.

(** [self._processed_batch_ids.add(batch_id)]. *)
Definition add_processed (batch_id : string) (w : StreamingBatchWriter S)
  : StreamingBatchWriter S :=
  {| w_db := w_db w; w_checkpoint_manager := w_checkpoint_manager w;
     batch_size := batch_size w; _pending_batches := _pending_batches w;
     _processed_batch_ids := {[ batch_id ]} ∪ _processed_batch_ids w |}.

(** [del self._pending_batches[batch_id]]. *)
Definition del_pending (batch_id : string) (w : StreamingBatchWriter S)
  : StreamingBatchWriter S :=
  {| w_db := w_db w; w_checkpoint_manager := w_checkpoint_manager w;
     batch_size := batch_size w; _pending_batches := delete batch_id (_pending_batches w);
     _processed_batch_ids := _processed_batch_ids w |}.

(** [StreamingBatchWriter.process_batch]. *)
Definition process_batch (documents : list (gmap string pyval)) (batch_id : string)
  : M (StreamingBatchWriter S * S) BatchResult :=
  self <- get ;;
  if bool_decide (documents = []) then raise (Exn ValueError "Batch cannot be empty")
  else if bool_decide (batch_id ∈ _processed_batch_ids (fst self)) then
    raise (Exn ValueError "Batch ID already exists")
  else
    match validate_documents documents with
    | Some e => raise e
    | None =>
        try_except
          (match w_db (fst self) with
           | Some db => on_snd (insert_documents db documents batch_id)
           | None => ret tt
           end ;;;
           updated <- on_manager
                        (update_checkpoint os batch_id (Z.of_nat (length documents))
                           None false) ;;
           let checkpoint_updated := bool_decide (is_Some updated) in
           modify (fun '(w, s) => (add_processed batch_id w, s)) ;;;
           ret {| success := true; persisted_count := Z.of_nat (length documents);
                  batch_id := batch_id; checkpoint_updated := checkpoint_updated;
                  error := None |})
          (fun e =>
             ret {| success := false; persisted_count := 0; batch_id := batch_id;
                    checkpoint_updated := false; error := Some (exn_str e) |})
    end.

(** [StreamingBatchWriter.commit_batch]. *)
Definition commit_batch (batch_id : string) : M (StreamingBatchWriter S * S) bool :=
  self <- get ;;
  if bool_decide (_pending_batches (fst self) !! batch_id = None) then
    raise (Exn BatchNotFoundError ("Batch " +:+ batch_id +:+ " not found"))
  else
    match w_db (fst self) with
    | Some db => on_snd (commit db)
    | None => ret tt
    end ;;;
    modify (fun '(w, s) => (del_pending batch_id w, s)) ;;;
    ret true.

End Writer.

(** ** recovery.py: CrashRecoveryHandler *)

Record RecoveryResult := {
  rr_success : bool;
  recovered_batches : Z;
  rr_resume_from : option string;
  data_loss : option Z;
  partial_batch_discarded : bool;
  rr_error : option string;
  rr_can_resume : bool
}.

(** [RecoveryResult(success=False, error=message, data_loss=None)]. *)
Definition failed (message : string) : RecoveryResult :=
  {| rr_success := false; recovered_batches := 0; rr_resume_from := None;
     data_loss := None; partial_batch_discarded := false;
     rr_error := Some message; rr_can_resume := false |}.

Record CrashRecoveryHandler (S : Type) := {
  h_checkpoint_manager : option (CheckpointManager S);
  h_db : option (Storage S)
}.
Arguments h_checkpoint_manager {S}.
Arguments h_db {S}.

Section Recovery.
Context {S : Type}.

(** Lines 93-101 of [recover]: the batch count read off [last_batch_id]. *)
Definition batch_count (last_batch_id : pyval) : exn + Z :=
  if truthy last_batch_id then
    match last_batch_id with
    | VStr s =>
        match numeric_suffix s with
        | Numbered n => inr n
        | IntRaises => inr 0
        | Unnumbered => inr 0
        end
    | v => inl (no_attribute v "split")
    end
  else inr 0.

(** Lines 103-108 of [recover]: detect and discard a partial batch. *)
Definition check_partial (self : CrashRecoveryHandler S) : M S bool :=
  match h_db self with
  | Some db =>
      match has_partial_batch db with
      | Some has_partial =>
          partial <- has_partial ;;
          if partial then
            match discard_partial_batch db with
            | Some discard => discard
            | None => ret tt
            end ;;;
            ret true
          else ret false
      | None => ret false
      end
  | None => ret false
  end.

(** [CrashRecoveryHandler.recover]. An early [return] of the [try] body is
    carried as [inl result]. *)
Definition recover (self : CrashRecoveryHandler S) : M S RecoveryResult :=
  try_except
    (probe <- match h_db self with
              | Some db =>
                  try_except (check_connection db ;;; ret (inr tt))
                    (fun e => ret (inl (failed ("Database unavailable: " +:+ exn_str e))))
              | None => ret (inr tt)
              end ;;
     match probe with
     | inl result => ret result
     | inr _ =>
         point <- match h_checkpoint_manager self with
                  | Some cm =>
                      try_except (recovery_point <- get_recovery_point cm ;;
                                  ret (inr recovery_point))
                        (fun e =>
                           if bool_decide (exn_cls e = CorruptCheckpointError) then
                             ret (inl (failed ("corrupt checkpoint: " +:+ exn_str e)))
                           else raise e)
                  | None =>
                      raise (Exn AttributeError
                               "'NoneType' object has no attribute 'get_recovery_point'")
                  end ;;
         match point with
         | inl result => ret result
         | inr recovery_point =>
             if negb (can_resume recovery_point) then
               ret {| rr_success := true; recovered_batches := 0; rr_resume_from := None;
                      data_loss := Some 0; partial_batch_discarded := false;
                      rr_error := None; rr_can_resume := false |}
             else
               match batch_count (rp_last_batch_id recovery_point) with
               | inl e => raise e
               | inr count =>
                   discarded <- check_partial self ;;
                   match resume_from recovery_point with
                   | inl e => raise e
                   | inr next =>
                       ret {| rr_success := true; recovered_batches := count;
                              rr_resume_from := next; data_loss := Some 0;
                              partial_batch_discarded := discarded;
                              rr_error := None; rr_can_resume := true |}
                   end
               end
         end
     end)
    (fun e => ret (failed (exn_str e))).

End Recovery.

(** ** database.py: Database

    The two tables the components use, in insertion order. Column values
    are kept as bound (SQLite's type affinity is not modelled), the
    remaining nullable columns of [documents] are not read by any operation
    below, and the connection is healthy: the only errors are the ones the
    statements themselves raise. *)

Module Database.

Record document_row := {
  doc_id : pyval;
  doc_content : pyval;
  doc_batch_id : string
}.

Record checkpoint_row := {
  ck_last_batch_id : pyval;
  ck_total_persisted : pyval;
  ck_status : pyval
}.

Record conn := {
  documents : list document_row;
  checkpoints : list checkpoint_row
}.

Definition empty : conn := {| documents := []; checkpoints := [] |}.

Definition with_documents (docs : list document_row) (c : conn) : conn :=
  {| documents := docs; checkpoints := checkpoints c |}.

(** [check_connection]: [SELECT 1]. *)
Definition check_connection : M conn bool := ret true.

(** One [INSERT INTO documents] of [insert_documents]: [id] is the primary
    key, [content] is [NOT NULL]. *)
Definition insert_row (doc : gmap string pyval) (batch_id : string) : M conn unit :=
  match doc !! "id", doc !! "content" with
  | None, _ => raise (Exn KeyError "'id'")
  | Some _, None => raise (Exn KeyError "'content'")
  | Some id, Some content =>
      c <- get ;;
      if bool_decide (content = VNone) then
        raise (Exn IntegrityError "NOT NULL constraint failed: documents.content")
      else if bool_decide (id ≠ VNone ∧ id ∈ doc_id <$> documents c) then
        raise (Exn IntegrityError "UNIQUE constraint failed: documents.id")
      else
        modify (with_documents
                  (documents c ++ [{| doc_id := id; doc_content := content;
                                      doc_batch_id := batch_id |}]))
  end.

(** [insert_documents]: the rows before a failing one stay inserted. *)
Fixpoint insert_documents (docs : list (gmap string pyval)) (batch_id : string)
  : M conn unit :=
  match docs with
  | [] => ret tt
  | doc :: rest => insert_row doc batch_id ;;; insert_documents rest batch_id
  end.

Definition commit : M conn unit := ret tt.

(** [get_latest_checkpoint]: the row with the greatest [id]; the
    [timestamp] column is left out. *)
Definition latest_row (c : conn) : option (gmap string pyval) :=
  match last (checkpoints c) with
  | Some row =>
      Some {[ "last_batch_id" := ck_last_batch_id row;
              "total_persisted" := ck_total_persisted row;
              "status" := ck_status row ]}
  | None => None
  end.

Definition get_latest_checkpoint : M conn pyobj :=
  c <- get ;;
  match latest_row c with
  | Some d => ret (ODict d)
  | None => ret (OScalar VNone)
  end.

(** [save_checkpoint]. *)
Definition save_checkpoint (checkpoint_data : gmap string pyval) : M conn unit :=
  match checkpoint_data !! "last_batch_id", checkpoint_data !! "total_persisted",
        checkpoint_data !! "status" with
  | Some b, Some t, Some st =>
      modify (fun c =>
                {| documents := documents c;
                   checkpoints := checkpoints c ++
                     [{| ck_last_batch_id := b; ck_total_persisted := t;
                         ck_status := st |}] |})
  | None, _, _ => raise (Exn KeyError "'last_batch_id'")
  | Some _, None, _ => raise (Exn KeyError "'total_persisted'")
  | Some _, Some _, None => raise (Exn KeyError "'status'")
  end.

(** [get_document_count]. *)
Definition get_document_count : M conn Z :=
  c <- get ;; ret (Z.of_nat (length (documents c))).

(** [SELECT DISTINCT batch_id FROM documents], as a set; a loop over it
    visits [elements doc_batches]. *)
Definition doc_batches (c : conn) : gset string :=
  list_to_set (doc_batch_id <$> documents c).

(** Lines 190-199 and 228-237: the number of the checkpointed batch;
    [split] on a value that is not a string raises. *)
Definition last_batch_num (last_batch_id : pyval) : exn + Z :=
  match last_batch_id with
  | VStr s =>
      match numeric_suffix s with
      | Numbered n => inr n
      | IntRaises => inr 0
      | Unnumbered => inr 0
      end
  | v => inl (no_attribute v "split")
  end.

(** The loop of [has_partial_batch], lines 201-214. *)
Fixpoint beyond_checkpoint (last_batch_id : pyval) (last_num : Z)
    (batches : list string) : bool :=
  match batches with
  | [] => false
  | batch_id :: rest =>
      match numeric_suffix (split_head "_partial" batch_id) with
      | Numbered batch_num =>
          if batch_num >? last_num then true
          else beyond_checkpoint last_batch_id last_num rest
      | IntRaises =>
          if bool_decide (VStr batch_id ≠ last_batch_id) then true
          else beyond_checkpoint last_batch_id last_num rest
      | Unnumbered => beyond_checkpoint last_batch_id last_num rest
      end
  end.

(** [has_partial_batch]. *)
Definition has_partial_batch : M conn bool :=
  c <- get ;;
  match latest_row c with
  | None => ret (0 <? size (doc_batches c))%nat
  | Some latest =>
      let last_batch_id := dict_get latest "last_batch_id" (VStr "") in
      match last_batch_num last_batch_id with
      | inl e => raise e
      | inr last_num =>
          ret (beyond_checkpoint last_batch_id last_num (elements (doc_batches c)))
      end
  end.

(** [DELETE FROM documents WHERE batch_id = ?]. *)
Definition delete_batch (batch_id : string) (docs : list document_row)
  : list document_row :=
  filter (fun row => doc_batch_id row ≠ batch_id) docs.

(** The test of the loop body of [discard_partial_batch], lines 243-257. *)
Definition is_partial (last_batch_id : pyval) (last_num : Z) (batch_id : string) : bool :=
  match numeric_suffix (split_head "_partial" batch_id) with
  | Numbered batch_num => batch_num >? last_num
  | IntRaises => bool_decide (VStr batch_id ≠ last_batch_id)
  | Unnumbered => bool_decide (VStr batch_id ≠ last_batch_id)
  end.

(** The loop of [discard_partial_batch]. *)
Fixpoint discard_loop (last_batch_id : pyval) (last_num : Z)
    (batches : list string) (docs : list document_row) : list document_row :=
  match batches with
  | [] => docs
  | batch_id :: rest =>
      discard_loop last_batch_id last_num rest
        (if is_partial last_batch_id last_num batch_id
         then delete_batch batch_id docs else docs)
  end.

(** [discard_partial_batch]. *)
Definition discard_partial_batch : M conn unit :=
  c <- get ;;
  match latest_row c with
  | None => modify (with_documents [])
  | Some latest =>
      let last_batch_id := dict_get latest "last_batch_id" (VStr "") in
      match last_batch_num last_batch_id with
      | inl e => raise e
      | inr last_num =>
          modify (with_documents
                    (discard_loop last_batch_id last_num (elements (doc_batches c))
                       (documents c)))
      end
  end.

(** The [Database] object as a storage collaborator. *)
Definition storage : Storage conn :=
  Build_Storage conn check_connection insert_documents commit get_latest_checkpoint
    save_checkpoint get_document_count (Some has_partial_batch)
    (Some discard_partial_batch).

End Database.

(** ** Test doubles

    Collaborators in the manner of the test suite's [Mock(side_effect=...)]
    and [MockDatabase.set_failure]. *)

Module Mock.

(** A double whose [insert_documents] raises [e]. *)
Definition insert_raises {S} (e : exn) (db : Storage S) : Storage S :=
  Build_Storage S (check_connection db) (fun _ _ => raise e) (commit db)
    (get_latest_checkpoint db) (save_checkpoint db) (get_document_count db)
    (has_partial_batch db) (discard_partial_batch db).

(** A double whose [check_connection] raises [e]. *)
Definition probe_raises {S} (e : exn) (db : Storage S) : Storage S :=
  Build_Storage S (raise e) (insert_documents db) (commit db)
    (get_latest_checkpoint db) (save_checkpoint db) (get_document_count db)
    (has_partial_batch db) (discard_partial_batch db).

(** Run a call of the database on the first component of the state. *)
Definition on_fst {X St A} (m : M St A) : M (St * X) A :=
  fun '(st, x) => let '(st', r) := m st in ((st', x), r).

(** The database of [database.py] with a transient fault: while an
    exception is armed, the next [save_checkpoint] raises it and disarms. *)
Definition transient_save : Storage (Database.conn * option exn) :=
  Build_Storage (Database.conn * option exn)
    (on_fst Database.check_connection)
    (fun docs b => on_fst (Database.insert_documents docs b))
    (on_fst Database.commit)
    (on_fst Database.get_latest_checkpoint)
    (fun d '(c, armed) =>
       match armed with
       | Some e => ((c, None), inl e)
       | None => on_fst (Database.save_checkpoint d) (c, None)
       end)
    (on_fst Database.get_document_count)
    (Some (on_fst Database.has_partial_batch))
    (Some (on_fst Database.discard_partial_batch)).

(** No checkpoint file is configured in the sessions below; the file
    system is never reached. *)
Definition os {S} : OS S :=
  {| write_json := fun _ _ => ret tt; rename := fun _ _ => ret tt |}.

(** [{"id": i, "content": "text"}]. *)
Definition doc (i : string) : gmap string pyval :=
  {[ "id" := VStr i; "content" := VStr "text" ]}.

End Mock.

(** ** Sessions

    The states a writer reaches from [__init__] through its public methods,
    each call made at an arbitrary state of the world, together with the
    batch ids whose [process_batch] returned [success=True]. *)

Definition succeeded (r : exn + BatchResult) : bool :=
  match r with
  | inr result => success result
  | inl _ => false
  end.

Inductive writer_session {S} (os : OS S) : StreamingBatchWriter S -> gset string -> Prop :=
| ws_init db cm size :
    writer_session os (StreamingBatchWriter_init db cm size) ∅
| ws_process w ok documents batch_id s :
    writer_session os w ok ->
    writer_session os (fst (fst (process_batch os documents batch_id (w, s))))
      (if succeeded (snd (process_batch os documents batch_id (w, s)))
       then {[ batch_id ]} ∪ ok else ok)
| ws_commit w ok batch_id s :
    writer_session os w ok ->
    writer_session os (fst (fst (commit_batch batch_id (w, s)))) ok.

(** Sessions of a writer from [start] in which every [process_batch] that
    did not succeed left the manager's checkpoint list as it was, together
    with the [persisted_count] of the successful calls, in order. *)
Inductive tidy_session {S} (os : OS S) (start : StreamingBatchWriter S)
  : StreamingBatchWriter S -> list Z -> Prop :=
| ts_start : tidy_session os start start []
| ts_success w counts documents batch_id s :
    tidy_session os start w counts ->
    succeeded (snd (process_batch os documents batch_id (w, s))) = true ->
    tidy_session os start (fst (fst (process_batch os documents batch_id (w, s))))
      (counts ++ [Z.of_nat (length documents)])
| ts_failure w counts documents batch_id s :
    tidy_session os start w counts ->
    succeeded (snd (process_batch os documents batch_id (w, s))) = false ->
    (_checkpoints <$> w_checkpoint_manager
                        (fst (fst (process_batch os documents batch_id (w, s)))))
    = (_checkpoints <$> w_checkpoint_manager w) ->
    tidy_session os start (fst (fst (process_batch os documents batch_id (w, s)))) counts.

(** The sum of the first [k] counts. *)
Definition sum_first (k : nat) (counts : list Z) : Z := foldr Z.add 0 (take k counts).

(** The states a checkpoint manager reaches from [__init__] through
    [update_checkpoint]. *)
Inductive manager_session {S} (os : OS S) : CheckpointManager S -> Prop :=
| ms_init db file :
    manager_session os (CheckpointManager_init db file)
| ms_update cm batch_id persisted_count metadata verify s :
    manager_session os cm ->
    manager_session os
      (fst (fst (update_checkpoint os batch_id persisted_count metadata verify (cm, s)))).

(** The states a checkpoint manager reaches from [start] through later
    calls of [update_checkpoint]. *)
Inductive manager_later {S} (os : OS S) (start : CheckpointManager S)
  : CheckpointManager S -> Prop :=
| ml_start : manager_later os start start
| ml_update cm batch_id persisted_count metadata verify s :
    manager_later os start cm ->
    manager_later os start
      (fst (fst (update_checkpoint os batch_id persisted_count metadata verify (cm, s)))).

(** ** The specification's wording, for comparison with the code *)

(** The [total_persisted] of a record read from storage, when it has one
    (a Python [bool] is an [int]). *)
Definition stored_total (latest : pyobj) : option Z :=
  match latest with
  | ODict d =>
      match d !! "total_persisted" with
      | Some (VInt t) => Some t
      | Some (VBool b) => Some (Z.b2z b)
      | _ => None
      end
  | OScalar _ => None
  end.

(** "(a) last in-memory checkpoint this session, else (b) latest checkpoint
    read from storage, else (c) zero". *)
Definition prior_cumulative (in_memory : list Checkpoint) (stored : option pyobj) : Z :=
  match last in_memory with
  | Some c => total_persisted c
  | None =>
      match stored with
      | Some latest => default 0 (stored_total latest)
      | None => 0
      end
  end.

(** The three validation tests of [process_batch], lines 61-74. *)
Definition rejected {S} (w : StreamingBatchWriter S)
    (documents : list (gmap string pyval)) (batch_id : string) : option exn :=
  if bool_decide (documents = []) then Some (Exn ValueError "Batch cannot be empty")
  else if bool_decide (batch_id ∈ _processed_batch_ids w) then
    Some (Exn ValueError "Batch ID already exists")
  else validate_documents documents.

(** "documents is empty, batch_id was already processed this session, or
    some document lacks a unique identifier or content payload". *)
Definition invalid_batch (ok : gset string) (documents : list (gmap string pyval))
    (batch_id : string) : Prop :=
  documents = [] \/ batch_id ∈ ok
  \/ exists doc, doc ∈ documents /\ (lacks doc "id" = true \/ lacks doc "content" = true).

(** What [get_latest_checkpoint] returns to the manager at state [s], when
    the manager has storage and the read returns. *)
Definition latest_read {S} (self : CheckpointManager S) (s : S) : option pyobj :=
  match cm_db self with
  | Some db =>
      match snd (get_latest_checkpoint db s) with
      | inr latest => Some latest
      | inl _ => None
      end
  | None => None
  end.

(** The liveness probe of [recover] let the handler through, leaving the
    world in state [s1]. *)
Definition probed {S} (self : CrashRecoveryHandler S) (s s1 : S) : Prop :=
  match h_db self with
  | Some db => exists alive, check_connection db s = (s1, inr alive)
  | None => s1 = s
  end.

(** A call that returns from every state. *)
Definition returns {St A} (m : M St A) : Prop :=
  forall st, exists st' a, m st = (st', inr a).

(** Collaborators whose calls all return, the latest checkpoint being a
    dictionary or a false value. *)
Definition cooperative {S} (os : OS S) (self : CheckpointManager S) : Prop :=
  (forall db, cm_db self = Some db ->
     (forall s, exists s' latest,
        get_latest_checkpoint db s = (s', inr latest)
        /\ forall v, latest = OScalar v -> truthy v = false)
     /\ returns (get_document_count db)
     /\ forall checkpoint, returns (save_checkpoint db (to_dict checkpoint)))
  /\ (forall path d, returns (write_json os path d))
  /\ (forall src dst, returns (rename os src dst)).

(** [total_persisted] never decreases from one checkpoint to the next. *)
Definition nondecreasing (checkpoints : list Checkpoint) : Prop :=
  forall i a b,
    checkpoints !! i = Some a -> checkpoints !! Datatypes.S i = Some b ->
    total_persisted a <= total_persisted b.

(** [sep not in s]. *)
Definition no_sep (sep : ascii) (s : string) : bool :=
  all_chars (fun c => negb (Ascii.eqb c sep)) s.

(** The batch identifiers of the form prefix_digits: a prefix without
    underscore, one underscore, and a non-empty run of decimal digits. *)
Definition conforming (s prefix digits : string) : Prop :=
  s = prefix +:+ "_" +:+ digits
  /\ no_sep "_" prefix = true
  /\ digits <> ""
  /\ all_chars is_decimal digits = true.

(** A string the interpreter reads or prints as an integer: no more
    characters than the limit. *)
Definition within_limit (s : string) : Prop :=
  Z.of_nat (String.length s) <= max_str_digits.

(** The identifier the specification describes: the prefix kept, the
    number incremented, the width of the suffix kept. *)
Definition spec_next_id (prefix digits : string) : option string :=
  match int digits with
  | Some n => Some (prefix +:+ "_" +:+ zfill (String.length digits) (decimal (n + 1)))
  | None => None
  end.

(** [recover] on the database of [database.py], given what the
    partial-batch check did: the recovery point depends on the checkpoint
    table only. *)
Definition outcome (self : CrashRecoveryHandler Database.conn) (c : Database.conn)
    (partial : Database.conn * (exn + bool))
  : Database.conn * (exn + RecoveryResult) :=
  match h_checkpoint_manager self with
  | None =>
      (c, inr (failed "'NoneType' object has no attribute 'get_recovery_point'"))
  | Some cm =>
      match snd (get_recovery_point cm
                   {| Database.documents := [];
                      Database.checkpoints := Database.checkpoints c |}) with
      | inl e =>
          (c, inr (failed (if bool_decide (exn_cls e = CorruptCheckpointError)
                           then "corrupt checkpoint: " +:+ exn_str e
                           else exn_str e)))
      | inr point =>
          if negb (can_resume point) then
            (c, inr {| rr_success := true; recovered_batches := 0;
                       rr_resume_from := None; data_loss := Some 0;
                       partial_batch_discarded := false; rr_error := None;
                       rr_can_resume := false |})
          else
            match batch_count (rp_last_batch_id point) with
            | inl e => (c, inr (failed (exn_str e)))
            | inr count =>
                match partial with
                | (c3, inl e) => (c3, inr (failed (exn_str e)))
                | (c3, inr discarded) =>
                    match resume_from point with
                    | inl e => (c3, inr (failed (exn_str e)))
                    | inr next =>
                        (c3, inr {| rr_success := true; recovered_batches := count;
                                    rr_resume_from := next; data_loss := Some 0;
                                    partial_batch_discarded := discarded;
                                    rr_error := None; rr_can_resume := true |})
                    end
                end
            end
      end
  end.

(** ** checkpoint.py: verify_consistency *)

(** [str(n)] for an integer of either sign. *)
Definition str_int (n : Z) : string :=
  if n <? 0 then "-" +:+ decimal (- n) else decimal n.

(** [str(v)], as an f-string renders [v]. *)
Definition py_str (v : pyval) : string :=
  match v with
  | VNone => "None"
  | VBool true => "True"
  | VBool false => "False"
  | VInt z => str_int z
  | VStr s => s
  end.

Record ConsistencyReport := {
  consistent : bool;
  discrepancies : list string
}.

(** [actual == expected], an [int] against a dynamic value. *)
Definition int_eq (actual : Z) (expected : pyval) : bool :=
  match expected with
  | VInt z => actual =? z
  | VBool b => actual =? Z.b2z b
  | VNone | VStr _ => false
  end.

(** [expected - actual]. *)
Definition minus_int (expected : pyval) (actual : Z) : exn + Z :=
  match expected with
  | VInt z => inr (z - actual)
  | VBool b => inr (Z.b2z b - actual)
  | VNone | VStr _ =>
      inl (Exn TypeError
             ("unsupported operand type(s) for -: '" +:+ type_name expected
              +:+ "' and 'int'"))
  end.

(** The two messages of [verify_consistency], lines 251-254. *)
Definition discrepancy (missing_count : Z) (expected : pyval) (actual : Z) : string :=
  if missing_count >? 0 then
    "missing " +:+ str_int missing_count +:+ " documents (checkpoint: "
    +:+ py_str expected +:+ ", db: " +:+ str_int actual +:+ ")"
  else
    "extra " +:+ str_int (- missing_count) +:+ " documents (checkpoint: "
    +:+ py_str expected +:+ ", db: " +:+ str_int actual +:+ ")".

(** [CheckpointManager.verify_consistency]. *)
Definition verify_consistency {S} (self : CheckpointManager S) : M S ConsistencyReport :=
  match cm_db self with
  | None => ret {| consistent := true; discrepancies := [] |}
  | Some db =>
      cp_data <- get_latest_checkpoint db ;;
      if negb (obj_truthy cp_data) then ret {| consistent := true; discrepancies := [] |}
      else
        actual_count <- get_document_count db ;;
        match cp_data with
        | OScalar v => raise (no_attribute v "get")
        | ODict d =>
            let expected_count := dict_get d "total_persisted" (VInt 0) in
            if int_eq actual_count expected_count then
              ret {| consistent := true; discrepancies := [] |}
            else
              match minus_int expected_count actual_count with
              | inl e => raise e
              | inr missing_count =>
                  ret {| consistent := false;
                         discrepancies :=
                           [discrepancy missing_count expected_count actual_count] |}
              end
        end
  end.

(** ** recovery.py: validate_integrity *)

Record IntegrityReport := {
  ir_success : bool;
  integrity : string;
  issues : list string
}.

(** [CrashRecoveryHandler.validate_integrity]. *)
Definition validate_integrity {S} (self : CrashRecoveryHandler S) : M S IntegrityReport :=
  try_except
    (match h_checkpoint_manager self with
     | None => ret {| ir_success := true; integrity := "full"; issues := [] |}
     | Some cm =>
         consistency <- verify_consistency cm ;;
         if consistent consistency then
           ret {| ir_success := true; integrity := "full"; issues := [] |}
         else
           ret {| ir_success := true; integrity := "partial";
                  issues := discrepancies consistency |}
     end)
    (fun e => ret {| ir_success := false; integrity := "corrupt";
                     issues := [exn_str e] |}).

(** ** database.py, read by rows *)

(** The test of the loop body of [has_partial_batch], lines 203-214: an
    identifier of unknown format is passed over. *)
Definition detected (last_batch_id : pyval) (last_num : Z) (batch_id : string) : bool :=
  match numeric_suffix (split_head "_partial" batch_id) with
  | Numbered batch_num => batch_num >? last_num
  | IntRaises => bool_decide (VStr batch_id ≠ last_batch_id)
  | Unnumbered => false
  end.

(** The rows [discard_partial_batch] leaves. *)
Definition committed_rows (last_batch_id : pyval) (last_num : Z)
    (docs : list Database.document_row) : list Database.document_row :=
  filter (fun row => Database.is_partial last_batch_id last_num
                       (Database.doc_batch_id row) = false) docs.

(** [doc["id"]] of each document of a batch. *)
Definition document_ids (documents : list (gmap string pyval)) : list pyval :=
  (fun doc => dict_get doc "id" VNone) <$> documents.

(** Documents the store takes as they are bound: the [id], if any, is text
    (the column is [id TEXT PRIMARY KEY]) and every integer fits SQLite's 64
    bits. *)
Definition storable (documents : list (gmap string pyval)) : Prop :=
  forall doc, doc ∈ documents ->
    (forall id, doc !! "id" = Some id -> id = VNone \/ exists i, id = VStr i)
    /\ forall key z, doc !! key = Some (VInt z) -> - 2 ^ 63 <= z < 2 ^ 63.

(** Storable documents that pass the validation of [process_batch]. *)
Definition text_documents (documents : list (gmap string pyval)) : Prop :=
  forall doc, doc ∈ documents ->
    (exists i, doc !! "id" = Some (VStr i))
    /\ (exists content, doc !! "content" = Some content /\ content <> VNone)
    /\ forall key z, doc !! key = Some (VInt z) -> - 2 ^ 63 <= z < 2 ^ 63.

(** ** Sessions on the database of [database.py] *)

(** The [total_persisted] of the latest stored checkpoint is an integer no
    greater than the number of stored documents. *)
Definition stored_within (c : Database.conn) : Prop :=
  match last (Database.checkpoints c) with
  | None => True
  | Some row =>
      exists t, Database.ck_total_persisted row = VInt t
                /\ t <= Z.of_nat (length (Database.documents c))
  end.

(** The row [insert_documents] writes for a document. *)
Definition row_of (batch_id : string) (doc : gmap string pyval) : Database.document_row :=
  {| Database.doc_id := dict_get doc "id" VNone;
     Database.doc_content := dict_get doc "content" VNone;
     Database.doc_batch_id := batch_id |}.

(** The manager [self] with [memory] as its in-memory checkpoints. *)
Definition with_memory {S} (memory : list Checkpoint) (self : CheckpointManager S)
  : CheckpointManager S :=
  {| cm_db := cm_db self; checkpoint_file := checkpoint_file self;
     _checkpoints := memory |}.

(** The row [save_checkpoint] writes for a checkpoint. *)
Definition checkpoint_row_of (ck : Checkpoint) : Database.checkpoint_row :=
  {| Database.ck_last_batch_id := VStr (last_batch_id ck);
     Database.ck_total_persisted := VInt (total_persisted ck);
     Database.ck_status := VStr (status ck) |}.

(** The cumulative count of the latest stored checkpoint, as
    [update_checkpoint] reads it (0 when there is none or it is no
    integer). *)
Definition stored_base (c : Database.conn) : Z :=
  match last (Database.checkpoints c) with
  | Some row =>
      match Database.ck_total_persisted row with
      | VInt t => t
      | VBool b => Z.b2z b
      | VNone | VStr _ => 0
      end
  | None => 0
  end.

(** A manager on the database, without checkpoint file, whose last
    in-memory checkpoint is the latest stored one. *)
Definition in_step (cm : CheckpointManager Database.conn) (c : Database.conn) : Prop :=
  cm_db cm = Some Database.storage
  /\ checkpoint_file cm = None
  /\ forall ck, last (_checkpoints cm) = Some ck ->
                last (Database.checkpoints c) = Some (checkpoint_row_of ck).

(** A run of [process_batch] calls on the database, each on the state the
    previous one left, from a fresh writer and manager (no checkpoint file)
    over the store [c0], with the batch identifier and [persisted_count] of
    the successful calls, in order. The batches are storable and the running
    total stays within the 64 bits of the [total_persisted] column. *)
Inductive database_session (os : OS Database.conn) (size : Z) (c0 : Database.conn)
  : StreamingBatchWriter Database.conn * Database.conn -> list (string * Z) -> Prop :=
| ds_init :
    database_session os size c0
      (StreamingBatchWriter_init (Some Database.storage)
         (Some (CheckpointManager_init (Some Database.storage) None)) size, c0) []
| ds_process st log documents batch_id :
    database_session os size c0 st log ->
    storable documents ->
    stored_base (snd st) + Z.of_nat (length documents) < 2 ^ 63 ->
    database_session os size c0 (fst (process_batch os documents batch_id st))
      (if succeeded (snd (process_batch os documents batch_id st))
       then log ++ [(batch_id, Z.of_nat (length documents))] else log).

(** The writer [w] with [cm] as its checkpoint manager. *)
Definition with_manager {S} (cm : CheckpointManager S) (w : StreamingBatchWriter S)
  : StreamingBatchWriter S :=
  {| w_db := w_db w; w_checkpoint_manager := Some cm; batch_size := batch_size w;
     _pending_batches := _pending_batches w;
     _processed_batch_ids := _processed_batch_ids w |}.

(** The sum of the counts of a session's successful calls. *)
Definition session_total (log : list (string * Z)) : Z := foldr Z.add 0 (snd <$> log).

(** The checkpoints of a session's successful calls, each holding the
    running total from [base]. *)
Fixpoint session_checkpoints (base : Z) (log : list (string * Z)) : list Checkpoint :=
  match log with
  | [] => []
  | (batch_id, count) :: rest =>
      {| last_batch_id := batch_id; total_persisted := base + count;
         status := "committed"; db_count_matches := false |}
      :: session_checkpoints (base + count) rest
  end.

(** A checkpoint record that [get_recovery_point] reports as corrupt: not
    a dictionary, a required field missing, or a total for which
    [total < 0] holds. *)
Definition corrupt (record : pyobj) : Prop :=
  match record with
  | OScalar v => v <> VNone
  | ODict d =>
      d !! "last_batch_id" = None \/ d !! "total_persisted" = None
      \/ exists t, d !! "total_persisted" = Some t /\ negative t = inr true
  end.

(** Lines 199-225 of [get_recovery_point]: the validation of the record it
    settled on, which touches no state. *)
Definition point_of_record (record : pyobj) : exn + RecoveryPoint :=
  match record with
  | OScalar VNone => inr (RecoveryPoint_init VNone (VInt 0) (Some false))
  | OScalar _ => inl (Exn CorruptCheckpointError "Checkpoint data is not a dictionary")
  | ODict d =>
      match d !! "last_batch_id", d !! "total_persisted" with
      | None, _ =>
          inl (Exn CorruptCheckpointError
                 "Checkpoint missing required field: last_batch_id")
      | Some _, None =>
          inl (Exn CorruptCheckpointError
                 "Checkpoint missing required field: total_persisted")
      | Some b, Some t =>
          match negative t with
          | inl e => inl e
          | inr true =>
              inl (Exn CorruptCheckpointError "Checkpoint has negative total_persisted")
          | inr false =>
              inr {| rp_last_batch_id := b; rp_total_persisted := t;
                     can_resume := negb (bool_decide (b = VNone)) |}
          end
      end
  end.

(** The record [get_recovery_point] settles on: what storage handed back,
    or the last in-memory checkpoint when that is [None]. *)
Definition settled (latest : pyobj) (memory : list Checkpoint) : pyobj :=
  match latest, last memory with
  | OScalar VNone, Some c => ODict (to_dict c)
  | _, _ => latest
  end.

(** * Properties *)

(** ** The scenarios of the specification and of the test suite, evaluated *)

Example resume_from_batch_005 :
  resume_from {| rp_last_batch_id := VStr "batch_005"; rp_total_persisted := VInt 500;
                 can_resume := true |} = inr (Some "batch_006").
Proof. reflexivity. Qed.

Example resume_from_batch_999 :
  resume_from {| rp_last_batch_id := VStr "batch_999"; rp_total_persisted := VInt 0;
                 can_resume := true |} = inr (Some "batch_1000").
Proof. reflexivity. Qed.

Example python_primitives :
  split "_" "a__1" = ["a"; ""; "1"] /\ split "_" "" = [""] /\
  split_head "_partial" "batch_006_partial" = "batch_006" /\
  format_03d 7 = Some "007" /\ format_03d 1234 = Some "1234" /\
  format_03d (-5) = Some "-05" /\
  lower "CONFLICT" = "conflict" /\ contains "conflict" "a conflict!" = true.
Proof. repeat split; reflexivity. Qed.

(** Four committed batches, then documents of a fifth written without a
    checkpoint: [recover] discards them and resumes at the fifth. *)
Example scenario_partial_batch :
  let db := Database.storage in
  let cm := CheckpointManager_init (Some db) None in
  let w0 := StreamingBatchWriter_init (Some db) (Some cm) 100 in
  let st1 := fst (process_batch Mock.os [Mock.doc "a1"; Mock.doc "a2"] "batch_001"
                    (w0, Database.empty)) in
  let st2 := fst (process_batch Mock.os [Mock.doc "b1"; Mock.doc "b2"] "batch_002" st1) in
  let st3 := fst (process_batch Mock.os [Mock.doc "c1"; Mock.doc "c2"] "batch_003" st2) in
  let st4 := fst (process_batch Mock.os [Mock.doc "d1"; Mock.doc "d2"] "batch_004" st3) in
  let crashed := fst (Database.insert_documents [Mock.doc "e1"] "batch_005" (snd st4)) in
  let handler := {| h_checkpoint_manager := Some (CheckpointManager_init (Some db) None);
                    h_db := Some db |} in
  let recovered := recover handler crashed in
  snd recovered
  = inr {| rr_success := true; recovered_batches := 4; rr_resume_from := Some "batch_005";
           data_loss := Some 0; partial_batch_discarded := true; rr_error := None;
           rr_can_resume := true |}
  /\ snd (Database.get_document_count (fst recovered)) = inr 8.
Proof. split; vm_compute; reflexivity. Qed.

(** A batch whose insert fails on a duplicate identifier leaves the
    recovery point at the last good batch. *)
Example scenario_duplicate_identifier :
  let db := Database.storage in
  let cm := CheckpointManager_init (Some db) None in
  let w0 := StreamingBatchWriter_init (Some db) (Some cm) 100 in
  let st1 := fst (process_batch Mock.os [Mock.doc "a1"; Mock.doc "a2"] "batch_001"
                    (w0, Database.empty)) in
  let second := process_batch Mock.os [Mock.doc "b1"; Mock.doc "a1"] "batch_002" st1 in
  snd second
  = inr {| success := false; persisted_count := 0; batch_id := "batch_002";
           checkpoint_updated := false;
           error := Some "UNIQUE constraint failed: documents.id" |}
  /\ snd (get_recovery_point cm (snd (fst second)))
     = inr {| rp_last_batch_id := VStr "batch_001"; rp_total_persisted := VInt 2;
              can_resume := true |}.
Proof. split; vm_compute; reflexivity. Qed.

(** No checkpoint and no documents: a fresh start. *)
Example scenario_fresh_start :
  snd (recover {| h_checkpoint_manager :=
                    Some (CheckpointManager_init (Some Database.storage) None);
                  h_db := Some Database.storage |} Database.empty)
  = inr {| rr_success := true; recovered_batches := 0; rr_resume_from := None;
           data_loss := Some 0; partial_batch_discarded := false; rr_error := None;
           rr_can_resume := false |}.
Proof. vm_compute; reflexivity. Qed.

(** The value returned by the liveness probe is not read: a probe that
    returns [False] lets [recover] proceed. *)
Example scenario_probe_returns_false :
  let db := Build_Storage Database.conn (ret false)
              Database.insert_documents Database.commit Database.get_latest_checkpoint
              Database.save_checkpoint Database.get_document_count
              (Some Database.has_partial_batch) (Some Database.discard_partial_batch) in
  snd (recover {| h_checkpoint_manager := Some (CheckpointManager_init (Some db) None);
                  h_db := Some db |} Database.empty)
  = inr {| rr_success := true; recovered_batches := 0; rr_resume_from := None;
           data_loss := Some 0; partial_batch_discarded := false; rr_error := None;
           rr_can_resume := false |}.
Proof. vm_compute; reflexivity. Qed.

(** ** Running calls *)

Ltac run :=
  unfold bind, ret, raise, get, modify, try_except, on_snd in *; simpl in *.

Lemma bind_inr {St A B} (m : M St A) (k : A -> M St B) st st' a :
  m st = (st', inr a) -> bind m k st = k a st'.
Proof. intros H. unfold bind. now rewrite H. Qed.

(** ** The writer *)

Section WriterFacts.
Context {S : Type} (os : OS S).
Implicit Types (w : StreamingBatchWriter S) (s : S).

Lemma process_batch_rejected w documents batch_id s e :
  rejected w documents batch_id = Some e ->
  process_batch os documents batch_id (w, s) = ((w, s), inl e).
Proof.
  unfold rejected, process_batch. run.
  repeat case_bool_decide; try (intros [= <-]; reflexivity).
  intros ->. reflexivity.
Qed.

Lemma on_manager_frame {A} (m : M (CheckpointManager S * S) A) w s :
  let w' := fst (fst (on_manager m (w, s))) in
  w_db w' = w_db w /\ batch_size w' = batch_size w
  /\ _pending_batches w' = _pending_batches w
  /\ _processed_batch_ids w' = _processed_batch_ids w.
Proof.
  unfold on_manager. destruct (w_checkpoint_manager w) as [cm|]; simpl; [|tauto].
  destruct (m (cm, s)) as [[cm' s'] r]. simpl. tauto.
Qed.

(** What [process_batch] does once validation has passed. *)
Lemma process_batch_accepted w documents batch_id s :
  rejected w documents batch_id = None ->
  exists w' s' result,
    process_batch os documents batch_id (w, s) = ((w', s'), inr result)
    /\ _pending_batches w' = _pending_batches w
    /\ _processed_batch_ids w' =
         (if success result then {[ batch_id ]} ∪ _processed_batch_ids w
          else _processed_batch_ids w).
Proof.
  unfold rejected, process_batch. run.
  repeat case_bool_decide; try discriminate.
  intros ->.
  set (ins := match w_db w with
              | Some db => _ | None => _ end).
  destruct (ins (w, s)) as [[w1 s1] [e|[]]] eqn:Hins.
  - assert (w1 = w) as ->.
    { subst ins. destruct (w_db w); [| now inversion Hins].
      destruct (insert_documents _ _ _ s); now inversion Hins. }
    eauto 10.
  - assert (w1 = w) as ->.
    { subst ins. destruct (w_db w); [| now inversion Hins].
      destruct (insert_documents _ _ _ s); now inversion Hins. }
    pose proof (on_manager_frame
      (update_checkpoint os batch_id (Z.of_nat (length documents)) None false) w s1)
      as (_ & _ & Hp & Hi).
    destruct (on_manager _ (w, s1)) as [[w2 s2] [e|u]]; simpl in *.
    + eauto 10.
    + do 3 eexists. split; [reflexivity|]. simpl. now rewrite Hp, Hi.
Qed.

Lemma commit_batch_pending w batch_id s :
  _pending_batches w = ∅ ->
  commit_batch batch_id (w, s)
  = ((w, s), inl (Exn BatchNotFoundError ("Batch " +:+ batch_id +:+ " not found"))).
Proof.
  intros H. unfold commit_batch. run. rewrite H, lookup_empty.
  now rewrite bool_decide_eq_true_2.
Qed.

(** In a session nothing is ever pending, and the processed set is the set
    of batches that succeeded. *)
Lemma writer_session_inv w ok :
  writer_session os w ok ->
  _pending_batches w = ∅ /\ _processed_batch_ids w = ok.
Proof.
  induction 1 as [| w ok documents batch_id s _ [IHp IHi] | w ok batch_id s _ [IHp IHi]].
  - split; reflexivity.
  - destruct (rejected w documents batch_id) as [e|] eqn:Hr.
    + rewrite (process_batch_rejected _ _ _ _ _ Hr). simpl. now split.
    + destruct (process_batch_accepted w documents batch_id s Hr)
        as (w' & s' & result & -> & Hp & Hi).
      simpl. rewrite Hp, Hi, IHi. now split.
  - rewrite (commit_batch_pending _ _ _ IHp). simpl. now split.
Qed.

End WriterFacts.

Lemma validate_documents_None (documents : list (gmap string pyval)) :
  validate_documents documents = None <->
  forall doc, doc ∈ documents -> lacks doc "id" = false /\ lacks doc "content" = false.
Proof.
  induction documents as [|d rest IH]; simpl.
  - split; [intros _ doc Hin; inversion Hin | reflexivity].
  - destruct (lacks d "id") eqn:Hid.
    { split; [discriminate|]. intros H.
      destruct (H d) as [H1 _]; [left | congruence]. }
    destruct (lacks d "content") eqn:Hc.
    { split; [discriminate|]. intros H.
      destruct (H d) as [_ H2]; [left | congruence]. }
    rewrite IH. split.
    + intros H doc Hin. apply elem_of_cons in Hin as [->|Hin]; auto.
    + intros H doc Hin. apply H. now right.
Qed.

Lemma validate_documents_Some (documents : list (gmap string pyval)) e :
  validate_documents documents = Some e ->
  exn_cls e = ValueError
  /\ exists doc, doc ∈ documents /\ (lacks doc "id" = true \/ lacks doc "content" = true).
Proof.
  induction documents as [|d rest IH]; simpl; [discriminate|].
  destruct (lacks d "id") eqn:Hid.
  { intros [= <-]. split; [reflexivity|]. exists d. split; [left | now left]. }
  destruct (lacks d "content") eqn:Hc.
  { intros [= <-]. split; [reflexivity|]. exists d. split; [left | now right]. }
  intros H. destruct (IH H) as [Hcls (doc & Hin & Hl)].
  split; [assumption|]. exists doc. split; [now right | assumption].
Qed.

(** C10. In a session of the writer (any calls of [process_batch] and
    [commit_batch] after [__init__], on any storage), [commit_batch] raises
    [BatchNotFoundError] for every batch id and changes nothing: no method
    adds to [_pending_batches]. *)
Theorem commit_batch_unreachable {S} (os : OS S) (w : StreamingBatchWriter S)
    (ok : gset string) (batch_id : string) (s : S) :
  writer_session os w ok ->
  commit_batch batch_id (w, s)
  = ((w, s), inl (Exn BatchNotFoundError ("Batch " +:+ batch_id +:+ " not found"))).
Proof.
  intros H. apply commit_batch_pending.
  exact (proj1 (writer_session_inv os w ok H)).
Qed.

(** C6. In a session, [process_batch] raises exactly when the batch is
    invalid (no documents, a batch id that already succeeded in the session,
    or a document without [id] or [content]); what it raises is a
    [ValueError], with the message "Batch cannot be empty" for an empty
    batch, and the writer (checkpoint manager included) and the storage are
    left as they were. *)
Theorem process_batch_validation {S} (os : OS S) (w : StreamingBatchWriter S)
    (ok : gset string) (documents : list (gmap string pyval)) (batch_id : string)
    (s : S) :
  writer_session os w ok ->
  (invalid_batch ok documents batch_id ->
   exists message,
     process_batch os documents batch_id (w, s) = ((w, s), inl (Exn ValueError message))
     /\ (documents = [] -> message = "Batch cannot be empty"))
  /\ (~ invalid_batch ok documents batch_id ->
      exists w' s' result,
        process_batch os documents batch_id (w, s) = ((w', s'), inr result)).
Proof.
  intros Hs. destruct (writer_session_inv os w ok Hs) as [_ Hok].
  destruct (rejected w documents batch_id) as [e|] eqn:Hr.
  - split.
    + intros _. rewrite (process_batch_rejected os _ _ _ _ _ Hr).
      unfold rejected in Hr. case_bool_decide as Hd.
      { injection Hr as <-. eauto. }
      case_bool_decide.
      { injection Hr as <-. eexists. split; [reflexivity | congruence]. }
      destruct (validate_documents_Some _ _ Hr) as [Hcls _].
      destruct e as [cls msg]. simpl in Hcls. subst cls.
      eexists. split; [reflexivity | congruence].
    + intros Hn. exfalso. apply Hn. unfold invalid_batch, rejected in *.
      case_bool_decide; [now left|]. case_bool_decide; [right; left; congruence|].
      right; right. now apply validate_documents_Some in Hr as [_ ?].
  - split.
    + intros Hi. exfalso. unfold invalid_batch, rejected in *.
      case_bool_decide; [discriminate|]. case_bool_decide; [discriminate|].
      destruct Hi as [?|[?|(doc & Hin & Hl)]]; [congruence.. |].
      rewrite validate_documents_None in Hr. destruct (Hr doc Hin).
      destruct Hl; congruence.
    + intros _. destruct (process_batch_accepted os w documents batch_id s Hr)
        as (w' & s' & result & -> & _). eauto.
Qed.

Lemma commit_batch_unreachable_witness :
  let w0 := StreamingBatchWriter_init (Some Database.storage)
              (Some (CheckpointManager_init (Some Database.storage) None)) 100 in
  let st := fst (process_batch Mock.os [Mock.doc "doc1"] "batch_001" (w0, Database.empty)) in
  commit_batch "batch_001" (fst st, snd st)
  = ((fst st, snd st),
     inl (Exn BatchNotFoundError ("Batch " +:+ "batch_001" +:+ " not found"))).
Proof.
  exact (commit_batch_unreachable Mock.os _ _ "batch_001" _
           (ws_process Mock.os _ _ [Mock.doc "doc1"] "batch_001" Database.empty
              (ws_init Mock.os (Some Database.storage)
                 (Some (CheckpointManager_init (Some Database.storage) None)) 100))).
Defined.

Lemma process_batch_validation_witness :
  let w0 := StreamingBatchWriter_init (Some Database.storage)
              (Some (CheckpointManager_init (Some Database.storage) None)) 100 in
  let st := process_batch Mock.os [Mock.doc "doc1"] "batch_001" (w0, Database.empty) in
  succeeded (snd st) = true
  /\ (exists message,
        process_batch Mock.os [Mock.doc "doc2"] "batch_001" (fst (fst st), snd (fst st))
        = ((fst (fst st), snd (fst st)), inl (Exn ValueError message)))
  /\ (exists message,
        process_batch Mock.os [] "batch_002" (fst (fst st), snd (fst st))
        = ((fst (fst st), snd (fst st)), inl (Exn ValueError message))
        /\ message = "Batch cannot be empty")
  /\ (exists w' s' result,
        process_batch Mock.os [Mock.doc "doc2"] "batch_002" (fst (fst st), snd (fst st))
        = ((w', s'), inr result)).
Proof.
  intros w0 st.
  assert (Hs : writer_session Mock.os (fst (fst st)) ({[ "batch_001" ]} ∪ ∅)).
  { exact (ws_process Mock.os _ _ [Mock.doc "doc1"] "batch_001" Database.empty
             (ws_init Mock.os (Some Database.storage)
                (Some (CheckpointManager_init (Some Database.storage) None)) 100)). }
  pose proof (process_batch_validation Mock.os _ _
                [Mock.doc "doc2"] "batch_001" (snd (fst st)) Hs) as [Hdup _].
  pose proof (process_batch_validation Mock.os _ _
                [] "batch_002" (snd (fst st)) Hs) as [Hempty _].
  pose proof (process_batch_validation Mock.os _ _
                [Mock.doc "doc2"] "batch_002" (snd (fst st)) Hs) as [_ Hvalid].
  split; [reflexivity|]. split; [|split].
  - destruct Hdup as (message & H & _).
    + right; left. set_solver.
    + exists message. exact H.
  - destruct Hempty as (message & H & Hm); [now left|].
    exists message. split; [exact H | now apply Hm].
  - apply Hvalid. intros [H|[H|(doc & Hin & Hl)]].
    + discriminate.
    + apply elem_of_union in H as [H|H]; [|set_solver].
      apply elem_of_singleton in H. discriminate.
    + apply list_elem_of_singleton in Hin as ->. vm_compute in Hl. destruct Hl; discriminate.
Defined.

Lemma insert_row_checkpoints doc batch_id (c : Database.conn) :
  Database.checkpoints (fst (Database.insert_row doc batch_id c)) = Database.checkpoints c.
Proof.
  unfold Database.insert_row.
  destruct (doc !! "id") as [id|], (doc !! "content") as [content|]; try reflexivity.
  run. repeat case_bool_decide; reflexivity.
Qed.

Lemma insert_documents_checkpoints docs batch_id (c : Database.conn) :
  Database.checkpoints (fst (Database.insert_documents docs batch_id c))
  = Database.checkpoints c.
Proof.
  revert c. induction docs as [|doc rest IH]; intros c; [reflexivity|].
  simpl. unfold bind.
  pose proof (insert_row_checkpoints doc batch_id c) as H.
  destruct (Database.insert_row doc batch_id c) as [c1 [e|[]]]; simpl in *.
  - exact H.
  - now rewrite IH.
Qed.

(** C1 (amended). When a batch passes validation and [insert_documents]
    raises [e], [process_batch] returns (no exception escapes) a result with
    [success=False], [persisted_count=0], [checkpoint_updated=False] and
    [error = str(e)]; the writer and its checkpoint manager are exactly as
    before, and the storage is in the state in which [insert_documents] left
    it: no checkpoint method ran. For the database of [database.py],
    [insert_documents] never touches the checkpoint table. *)
Theorem process_batch_insert_failure :
  (forall S (os : OS S) (w : StreamingBatchWriter S) documents batch_id s db s' e,
     documents <> [] ->
     batch_id ∉ _processed_batch_ids w ->
     (forall doc, doc ∈ documents -> lacks doc "id" = false /\ lacks doc "content" = false) ->
     w_db w = Some db ->
     insert_documents db documents batch_id s = (s', inl e) ->
     process_batch os documents batch_id (w, s)
     = ((w, s'),
        inr {| success := false; persisted_count := 0; batch_id := batch_id;
               checkpoint_updated := false; error := Some (exn_str e) |}))
  /\ (forall documents batch_id c,
        Database.checkpoints (fst (Database.insert_documents documents batch_id c))
        = Database.checkpoints c).
Proof.
  split; [| exact insert_documents_checkpoints].
  intros S os w documents batch_id s db s' e Hne Hnew Hdocs Hdb Hins.
  unfold process_batch. run.
  rewrite bool_decide_eq_false_2 by assumption.
  rewrite bool_decide_eq_false_2 by assumption.
  apply validate_documents_None in Hdocs. rewrite Hdocs.
  rewrite Hdb, Hins. reflexivity.
Qed.

Lemma process_batch_insert_failure_witness :
  let db := Mock.insert_raises (Exn (OtherError "Exception") "DatabaseError")
              Database.storage in
  let w := StreamingBatchWriter_init (Some db)
             (Some (CheckpointManager_init (Some db) None)) 100 in
  process_batch Mock.os [Mock.doc "doc3"] "batch_003" (w, Database.empty)
  = ((w, Database.empty),
     inr {| success := false; persisted_count := 0; batch_id := "batch_003";
            checkpoint_updated := false; error := Some "DatabaseError" |}).
Proof.
  intros db w.
  apply (proj1 process_batch_insert_failure _ Mock.os w [Mock.doc "doc3"] "batch_003"
           Database.empty db Database.empty (Exn (OtherError "Exception") "DatabaseError")).
  - discriminate.
  - set_solver.
  - intros doc Hin. apply list_elem_of_singleton in Hin as ->. split; reflexivity.
  - reflexivity.
  - reflexivity.
Defined.

(** C1 as stated fails: a collaborator that raises an exception without a
    message ([Exception()]) yields an empty error message. *)
Lemma process_batch_empty_error_message :
  let db := Mock.insert_raises (Exn (OtherError "Exception") "") Database.storage in
  let w := StreamingBatchWriter_init (Some db)
             (Some (CheckpointManager_init (Some db) None)) 100 in
  rejected w [Mock.doc "doc3"] "batch_003" = None
  /\ snd (insert_documents db [Mock.doc "doc3"] "batch_003" Database.empty)
     = inl (Exn (OtherError "Exception") "")
  /\ snd (process_batch Mock.os [Mock.doc "doc3"] "batch_003" (w, Database.empty))
     = inr {| success := false; persisted_count := 0; batch_id := "batch_003";
              checkpoint_updated := false; error := Some "" |}.
Proof. repeat split; vm_compute; reflexivity. Qed.

(** ** The checkpoint manager *)

Section ManagerFacts.
Context {S : Type} (os : OS S).
Implicit Types (self : CheckpointManager S) (s : S).

(** [update_checkpoint] step by step: the checkpoint is appended as soon as
    it is built, before it is persisted. *)
Lemma update_checkpoint_steps self batch_id n metadata verify s :
  0 <= n ->
  update_checkpoint os batch_id n metadata verify (self, s) =
  match new_checkpoint self batch_id n verify s with
  | (s1, inl e) => ((self, s1), inl e)
  | (s1, inr ck) =>
      match persist self ck s1 with
      | (s2, inl e) => ((append_checkpoint ck self, s2), inl e)
      | (s2, inr _) =>
          match _write_checkpoint_file os self ck s2 with
          | (s3, inl e) => ((append_checkpoint ck self, s3), inl e)
          | (s3, inr _) => ((append_checkpoint ck self, s3), inr ck)
          end
      end
  end.
Proof.
  intros Hn. unfold update_checkpoint.
  destruct (n <? 0) eqn:Hneg; [lia|]. run.
  destruct (new_checkpoint self batch_id n verify s) as [s1 [e|ck]]; [reflexivity|].
  destruct (persist self ck s1) as [s2 [e|[]]]; [reflexivity|].
  destruct (_write_checkpoint_file os self ck s2) as [s3 [e|[]]]; reflexivity.
Qed.

Lemma update_checkpoint_negative self batch_id n metadata verify s :
  n < 0 ->
  update_checkpoint os batch_id n metadata verify (self, s)
  = ((self, s), inl (Exn ValueError "persisted_count must be non-negative")).
Proof.
  intros Hn. unfold update_checkpoint.
  destruct (n <? 0) eqn:Hneg; [reflexivity | lia].
Qed.

(** With a checkpoint in memory the storage is not consulted. *)
Lemma cumulative_count_in_memory self n s c :
  last (_checkpoints self) = Some c ->
  cumulative_count self n s = (s, inr (n + total_persisted c)).
Proof. intros H. unfold cumulative_count. now rewrite H. Qed.

Lemma cumulative_count_prior self n s s' t :
  cumulative_count self n s = (s', inr t) ->
  t = n + prior_cumulative (_checkpoints self) (latest_read self s).
Proof.
  unfold cumulative_count, prior_cumulative, latest_read.
  destruct (last (_checkpoints self)) as [c|]; [now intros [= _ <-]|].
  destruct (cm_db self) as [db|]; [| intros [= _ <-]; simpl; lia].
  run. destruct (get_latest_checkpoint db s) as [s1 [e|latest]]; [discriminate|].
  simpl. destruct latest as [d|v]; simpl.
  - unfold dict_get. case_bool_decide as Hd; simpl.
    + subst d. rewrite lookup_empty. intros [= _ <-]. simpl. lia.
    + destruct (d !! "total_persisted") as [[| | |]|]; intros [= _ <-]; simpl; lia.
  - destruct (truthy v); [discriminate|]. intros [= _ <-]. simpl. lia.
Qed.

Lemma new_checkpoint_fields self batch_id n verify s s' ck :
  new_checkpoint self batch_id n verify s = (s', inr ck) ->
  last_batch_id ck = batch_id /\ status ck = "committed"
  /\ exists s1, cumulative_count self n s = (s1, inr (total_persisted ck)).
Proof.
  unfold new_checkpoint. run.
  destruct (cumulative_count self n s) as [s1 [e|t]]; [discriminate|].
  destruct (cm_db self) as [db|]; [destruct verify|].
  - destruct (get_document_count db s1) as [s2 [e|a]]; [discriminate|].
    intros [= _ <-]. simpl. eauto.
  - intros [= _ <-]. simpl. eauto.
  - intros [= _ <-]. simpl. eauto.
Qed.

(** The manager's configuration is never touched. *)
Lemma update_checkpoint_config self batch_id n metadata verify s :
  cm_db (fst (fst (update_checkpoint os batch_id n metadata verify (self, s))))
  = cm_db self.
Proof.
  destruct (Z.lt_ge_cases n 0) as [Hn|Hn].
  { now rewrite update_checkpoint_negative. }
  rewrite update_checkpoint_steps by assumption.
  destruct (new_checkpoint self batch_id n verify s) as [s1 [e|ck]]; [reflexivity|].
  destruct (persist self ck s1) as [s2 [e|[]]]; [reflexivity|].
  destruct (_write_checkpoint_file os self ck s2) as [s3 [e|[]]]; reflexivity.
Qed.

(** Whatever the outcome, the in-memory list is kept or extended by one
    checkpoint that is no smaller than the last. *)
Lemma update_checkpoint_list self batch_id n metadata verify s :
  let self' := fst (fst (update_checkpoint os batch_id n metadata verify (self, s))) in
  _checkpoints self' = _checkpoints self
  \/ exists ck, _checkpoints self' = (_checkpoints self ++ [ck])%list
                /\ forall c, last (_checkpoints self) = Some c ->
                             total_persisted c <= total_persisted ck.
Proof.
  destruct (Z.lt_ge_cases n 0) as [Hn|Hn].
  { rewrite update_checkpoint_negative by assumption. now left. }
  rewrite update_checkpoint_steps by assumption.
  destruct (new_checkpoint self batch_id n verify s) as [s1 [e|ck]] eqn:Hnew;
    [now left|].
  right. exists ck. split.
  - destruct (persist self ck s1) as [s2 [e|[]]]; [reflexivity|].
    destruct (_write_checkpoint_file os self ck s2) as [s3 [e|[]]]; reflexivity.
  - intros c Hc. apply new_checkpoint_fields in Hnew as (_ & _ & s0 & Hcum).
    rewrite (cumulative_count_in_memory _ _ _ _ Hc) in Hcum.
    injection Hcum as _ <-. lia.
Qed.

Lemma nondecreasing_snoc (l : list Checkpoint) ck :
  nondecreasing l ->
  (forall c, last l = Some c -> total_persisted c <= total_persisted ck) ->
  nondecreasing (l ++ [ck])%list.
Proof.
  intros Hl Hck i a b Ha Hb.
  destruct (decide (Datatypes.S i < length l)%nat) as [Hlt|Hge].
  - rewrite lookup_app_l in Ha by lia. rewrite lookup_app_l in Hb by lia. eauto.
  - assert (Datatypes.S i = length l) as Hi.
    { apply lookup_lt_Some in Hb. rewrite length_app in Hb. simpl in Hb. lia. }
    rewrite lookup_app_l in Ha by lia.
    rewrite lookup_app_r in Hb by lia.
    replace (Datatypes.S i - length l)%nat with 0%nat in Hb by lia.
    injection Hb as <-. apply Hck.
    rewrite last_lookup. rewrite <- Hi. simpl. exact Ha.
Qed.

Lemma manager_session_nondecreasing self :
  manager_session os self -> nondecreasing (_checkpoints self).
Proof.
  induction 1 as [db file | cm batch_id n metadata verify s _ IH].
  - intros i a b Ha. simpl in Ha. now rewrite lookup_nil in Ha.
  - destruct (update_checkpoint_list cm batch_id n metadata verify s)
      as [-> | (ck & -> & Hck)]; [assumption|].
    now apply nondecreasing_snoc.
Qed.

(** After a checkpoint [ck] is in memory, it stays, everything appended
    later is no smaller, and the cumulative count never consults storage. *)
Lemma manager_later_inv self ck later_self :
  manager_later os (append_checkpoint ck self) later_self ->
  exists later,
    _checkpoints later_self = (_checkpoints self ++ ck :: later)%list
    /\ Forall (fun c => total_persisted ck <= total_persisted c) later
    /\ exists c, last (_checkpoints later_self) = Some c
                 /\ total_persisted ck <= total_persisted c
                 /\ forall n s, cumulative_count later_self n s
                                = (s, inr (n + total_persisted c)).
Proof.
  induction 1 as [| cm batch_id n metadata verify s _ (later & Hl & Hall & c & Hc & Hle & _)].
  - exists []. split; [reflexivity|]. split; [constructor|].
    exists ck. simpl. rewrite last_snoc. split; [reflexivity|]. split; [lia|].
    intros n s. apply cumulative_count_in_memory. simpl. now rewrite last_snoc.
  - destruct (update_checkpoint_list cm batch_id n metadata verify s)
      as [Hsame | (ck' & Happ & Hck')].
    + exists later. rewrite Hsame. split; [assumption|]. split; [assumption|].
      exists c. split; [assumption|]. split; [assumption|].
      intros n' s'. apply cumulative_count_in_memory. now rewrite Hsame.
    + exists (later ++ [ck'])%list. rewrite Happ, Hl.
      split; [now rewrite <- app_assoc|]. split.
      * apply Forall_app. split; [assumption|]. constructor; [|constructor].
        specialize (Hck' c Hc). lia.
      * exists ck'. rewrite <- Hl, <- Happ.
        assert (last (_checkpoints
                        (update_checkpoint os batch_id n metadata verify (cm, s)).1.1)
                = Some ck') as Hlast by (rewrite Happ; apply last_snoc).
        split; [assumption|]. split; [specialize (Hck' c Hc); lia|].
        intros n' s'. now apply cumulative_count_in_memory.
Qed.

End ManagerFacts.

Lemma cumulative_count_returns {S} (self : CheckpointManager S) n s :
  (forall db, cm_db self = Some db ->
     forall s, exists s' latest,
       get_latest_checkpoint db s = (s', inr latest)
       /\ forall v, latest = OScalar v -> truthy v = false) ->
  exists s1 t, cumulative_count self n s = (s1, inr t).
Proof.
  intros Hlatest. unfold cumulative_count.
  destruct (last (_checkpoints self)) as [c|]; [unfold ret; eauto|].
  destruct (cm_db self) as [db|]; [|unfold ret; eauto].
  destruct (Hlatest db eq_refl s) as (s1 & latest & Hl & Hfalse).
  rewrite (bind_inr _ _ _ _ _ Hl).
  destruct latest as [d|v]; simpl.
  - destruct (negb _); [|unfold ret; eauto].
    destruct (dict_get d "total_persisted" (VInt 0)); unfold ret; eauto.
  - rewrite (Hfalse v eq_refl). unfold ret; eauto.
Qed.

Lemma update_checkpoint_returns {S} (os : OS S) (self : CheckpointManager S)
    batch_id n metadata verify s :
  0 <= n -> cooperative os self ->
  exists self' s' checkpoint,
    update_checkpoint os batch_id n metadata verify (self, s)
    = ((self', s'), inr checkpoint).
Proof.
  intros Hn (Hdb & Hw & Hr). rewrite update_checkpoint_steps by assumption.
  assert (exists s1 ck, new_checkpoint self batch_id n verify s = (s1, inr ck))
    as (s1 & ck & ->).
  { unfold new_checkpoint.
    destruct (cumulative_count_returns self n s) as (s1 & t & Hc).
    { intros db Edb. now destruct (Hdb db Edb). }
    rewrite (bind_inr _ _ _ _ _ Hc).
    destruct (cm_db self) as [db|] eqn:Edb; [destruct verify|]; run; eauto.
    destruct (Hdb db eq_refl) as (_ & Hcount & _).
    destruct (Hcount s1) as (s2 & a & ->). eauto. }
  assert (exists s2, persist self ck s1 = (s2, inr tt)) as (s2 & ->).
  { unfold persist. run. destruct (cm_db self) as [db|] eqn:Edb; [|eauto].
    destruct (Hdb db eq_refl) as (_ & _ & Hsave).
    destruct (Hsave ck s1) as (s2 & [] & ->). eauto. }
  assert (exists s3, _write_checkpoint_file os self ck s2 = (s3, inr tt)) as (s3 & ->).
  { unfold _write_checkpoint_file. run.
    destruct (checkpoint_file self) as [path|]; [|eauto].
    destruct (negb _); [eauto|].
    destruct (Hw (path +:+ ".tmp") (to_dict ck) s2) as (s3 & [] & ->).
    destruct (Hr (path +:+ ".tmp") path s3) as (s4 & [] & ->). eauto. }
  eauto.
Qed.

(** What a returning [update_checkpoint] returns. *)
Lemma update_checkpoint_returned {S} (os : OS S) (self self' : CheckpointManager S)
    batch_id n metadata verify s s' checkpoint :
  0 <= n ->
  update_checkpoint os batch_id n metadata verify (self, s)
  = ((self', s'), inr checkpoint) ->
  total_persisted checkpoint
  = n + prior_cumulative (_checkpoints self) (latest_read self s)
  /\ last_batch_id checkpoint = batch_id
  /\ _checkpoints self' = (_checkpoints self ++ [checkpoint])%list.
Proof.
  intros Hn. rewrite update_checkpoint_steps by assumption.
  destruct (new_checkpoint self batch_id n verify s) as [s1 [e|ck]] eqn:Hnew;
    [discriminate|].
  destruct (persist self ck s1) as [s2 [e|[]]]; [discriminate|].
  destruct (_write_checkpoint_file os self ck s2) as [s3 [e|[]]]; [discriminate|].
  intros [= <- <- <-].
  apply new_checkpoint_fields in Hnew as (Hid & _ & s0 & Hcum).
  apply cumulative_count_prior in Hcum. auto.
Qed.

(** Every outcome of [update_checkpoint]: no checkpoint and an exception, or
    exactly one new checkpoint, whose total follows the precedence, either
    returned or left behind by an exception raised while persisting it. *)
Lemma update_checkpoint_outcome {S} (os : OS S) (self self' : CheckpointManager S)
    batch_id n metadata verify s s' r :
  0 <= n ->
  update_checkpoint os batch_id n metadata verify (self, s) = ((self', s'), r) ->
  (self' = self /\ exists e, r = inl e)
  \/ exists checkpoint,
       self' = append_checkpoint checkpoint self
       /\ last_batch_id checkpoint = batch_id
       /\ total_persisted checkpoint
          = n + prior_cumulative (_checkpoints self) (latest_read self s)
       /\ (r = inr checkpoint \/ exists e, r = inl e).
Proof.
  intros Hn. rewrite update_checkpoint_steps by assumption.
  destruct (new_checkpoint self batch_id n verify s) as [s1 [e|ck]] eqn:Hnew.
  { intros [= <- <- <-]. left. eauto. }
  apply new_checkpoint_fields in Hnew as (Hid & _ & s0 & Hcum).
  apply cumulative_count_prior in Hcum.
  destruct (persist self ck s1) as [s2 [e|[]]].
  { intros [= <- <- <-]. right. exists ck. eauto 10. }
  destruct (_write_checkpoint_file os self ck s2) as [s3 [e|[]]];
    intros [= <- <- <-]; right; exists ck; eauto 10.
Qed.

(** C3. [update_checkpoint] with a negative count raises [ValueError] and
    changes nothing. With a count [>= 0], the checkpoint it returns is the one
    appended to the in-memory list, and its [total_persisted] is the count
    plus the prior cumulative value: that of the last in-memory checkpoint if
    there is one, otherwise that of the latest checkpoint read from storage
    if storage has one, otherwise zero. Whatever the outcome, the call
    creates no checkpoint or exactly one with that total. It does return
    whenever the collaborators' calls return. *)
Theorem update_checkpoint_cumulative {S} (os : OS S) (self : CheckpointManager S)
    (batch_id : string) (persisted_count : Z) (metadata : option (gmap string pyval))
    (verify : bool) (s : S) :
  (persisted_count < 0 ->
   update_checkpoint os batch_id persisted_count metadata verify (self, s)
   = ((self, s), inl (Exn ValueError "persisted_count must be non-negative")))
  /\ (0 <= persisted_count ->
      forall self' s' checkpoint,
        update_checkpoint os batch_id persisted_count metadata verify (self, s)
        = ((self', s'), inr checkpoint) ->
        total_persisted checkpoint
        = persisted_count + prior_cumulative (_checkpoints self) (latest_read self s)
        /\ last_batch_id checkpoint = batch_id
        /\ _checkpoints self' = (_checkpoints self ++ [checkpoint])%list)
  /\ (0 <= persisted_count ->
      forall self' s' r,
        update_checkpoint os batch_id persisted_count metadata verify (self, s)
        = ((self', s'), r) ->
        (self' = self /\ exists e, r = inl e)
        \/ exists checkpoint,
             self' = append_checkpoint checkpoint self
             /\ last_batch_id checkpoint = batch_id
             /\ total_persisted checkpoint
                = persisted_count
                  + prior_cumulative (_checkpoints self) (latest_read self s)
             /\ (r = inr checkpoint \/ exists e, r = inl e))
  /\ (0 <= persisted_count -> cooperative os self ->
      exists self' s' checkpoint,
        update_checkpoint os batch_id persisted_count metadata verify (self, s)
        = ((self', s'), inr checkpoint)).
Proof.
  split; [apply update_checkpoint_negative|].
  split; [|split; [|apply update_checkpoint_returns]].
  - intros Hn self' s' checkpoint. now apply update_checkpoint_returned.
  - intros Hn self' s' r. now apply update_checkpoint_outcome.
Qed.

Lemma database_returns :
  (forall c, exists latest,
      Database.get_latest_checkpoint c = (c, inr latest)
      /\ forall v, latest = OScalar v -> truthy v = false)
  /\ returns Database.get_document_count
  /\ forall checkpoint, returns (Database.save_checkpoint (to_dict checkpoint)).
Proof.
  split; [|split].
  - intros c. unfold Database.get_latest_checkpoint. run.
    destruct (Database.latest_row c); eexists; (split; [reflexivity|]).
    + discriminate.
    + now intros v [= <-].
  - intros c. unfold Database.get_document_count. run. eauto.
  - intros checkpoint c. unfold Database.save_checkpoint. run. eauto.
Qed.

Lemma database_cooperative (self : CheckpointManager Database.conn) :
  (forall db, cm_db self = Some db -> db = Database.storage) ->
  cooperative Mock.os self.
Proof.
  intros Hdb. destruct database_returns as (Hl & Hc & Hs).
  split; [|split].
  - intros db Edb. rewrite (Hdb db Edb). simpl. split; [|split]; try assumption.
    intros s. destruct (Hl s) as (latest & ? & ?). eauto.
  - intros path d s. simpl. unfold ret. eauto.
  - intros src dst s. simpl. unfold ret. eauto.
Qed.

Lemma update_checkpoint_cumulative_witness :
  let stored :=
    {| Database.documents := [];
       Database.checkpoints :=
         [{| Database.ck_last_batch_id := VStr "batch_005";
             Database.ck_total_persisted := VInt 500;
             Database.ck_status := VStr "committed" |}] |} in
  let cm := CheckpointManager_init (Some Database.storage) None in
  update_checkpoint Mock.os "batch_006" (-1) None false (cm, stored)
  = ((cm, stored), inl (Exn ValueError "persisted_count must be non-negative"))
  /\ exists self' s' checkpoint,
       update_checkpoint Mock.os "batch_006" 100 None false (cm, stored)
       = ((self', s'), inr checkpoint)
       /\ total_persisted checkpoint = 600
       /\ _checkpoints self' = [checkpoint].
Proof.
  intros stored cm. split.
  - apply (proj1 (update_checkpoint_cumulative Mock.os cm "batch_006" (-1) None false
                    stored)). lia.
  - destruct (update_checkpoint_cumulative Mock.os cm "batch_006" 100 None false stored)
      as (_ & Hsound & _ & Hreturns).
    destruct Hreturns as (self' & s' & checkpoint & Heq).
    + lia.
    + apply database_cooperative. now intros db [= <-].
    + exists self', s', checkpoint. split; [exact Heq|].
      destruct (Hsound ltac:(lia) self' s' checkpoint Heq) as (Ht & _ & Hl).
      split; [exact Ht | exact Hl].
Defined.

(** C7. In a session of a checkpoint manager (any calls of
    [update_checkpoint] after [__init__], successful or not, on any storage),
    each checkpoint of the in-memory list has a [total_persisted] no smaller
    than that of the checkpoint appended just before it. *)
Theorem total_persisted_monotone {S} (os : OS S) (self : CheckpointManager S)
    (i : nat) (a b : Checkpoint) :
  manager_session os self ->
  _checkpoints self !! i = Some a ->
  _checkpoints self !! Datatypes.S i = Some b ->
  total_persisted a <= total_persisted b.
Proof.
  intros Hs. exact (manager_session_nondecreasing os self Hs i a b).
Qed.

Lemma total_persisted_monotone_witness :
  let cm0 := CheckpointManager_init (Some Database.storage) None in
  let st1 := fst (update_checkpoint Mock.os "batch_001" 100 None false
                    (cm0, Database.empty)) in
  let st2 := fst (update_checkpoint Mock.os "batch_002" 50 None true st1) in
  let c1 := {| last_batch_id := "batch_001"; total_persisted := 100;
               status := "committed"; db_count_matches := false |} in
  let c2 := {| last_batch_id := "batch_002"; total_persisted := 150;
               status := "committed"; db_count_matches := false |} in
  _checkpoints (fst st2) = [c1; c2]
  /\ total_persisted c1 <= total_persisted c2.
Proof.
  intros cm0 st1 st2 c1 c2. split; [reflexivity|].
  apply (total_persisted_monotone Mock.os (fst st2) 0 c1 c2).
  - exact (ms_update Mock.os _ "batch_002" 50 None true (snd st1)
             (ms_update Mock.os _ "batch_001" 100 None false Database.empty
                (ms_init Mock.os (Some Database.storage) None))).
  - reflexivity.
  - reflexivity.
Defined.

Lemma get_recovery_point_fallback {S} (self : CheckpointManager S) db ck s s' :
  cm_db self = Some db ->
  0 <= total_persisted ck ->
  get_latest_checkpoint db s = (s', inr (OScalar VNone)) ->
  get_recovery_point (append_checkpoint ck self) s
  = (s', inr {| rp_last_batch_id := VStr (last_batch_id ck);
                rp_total_persisted := VInt (total_persisted ck);
                can_resume := true |}).
Proof.
  intros Hdb Hpos Hlatest. unfold get_recovery_point. simpl. rewrite Hdb.
  rewrite (bind_inr _ _ _ _ _ Hlatest). rewrite last_snoc.
  change (to_dict ck !! "last_batch_id") with (Some (VStr (last_batch_id ck))).
  change (to_dict ck !! "total_persisted") with (Some (VInt (total_persisted ck))).
  unfold dict_get.
  change (to_dict ck !! "last_batch_id") with (Some (VStr (last_batch_id ck))).
  change (to_dict ck !! "total_persisted") with (Some (VInt (total_persisted ck))).
  simpl. destruct (total_persisted ck <? 0) eqn:E; [lia|]. reflexivity.
Qed.

(** C9. [update_checkpoint] is not atomic. When the checkpoint has been
    built and [save_checkpoint] raises [e], the call raises ([ConflictError]
    when the message of [e] mentions "concurrent" or "conflict", [e] itself
    otherwise) and the checkpoint stays appended to the in-memory list. The
    next [update_checkpoint] that returns has the count plus that
    checkpoint's total; throughout the rest of the session the checkpoint
    stays in the list, the cumulative count is taken from memory, never from
    storage, and no later total is below it; and [get_recovery_point] returns
    it when storage holds no checkpoint. *)
Theorem update_checkpoint_not_atomic {S} (os : OS S) (self : CheckpointManager S)
    (db : Storage S) (batch_id : string) (n : Z) (metadata : option (gmap string pyval))
    (verify : bool) (s s1 s2 : S) (ck : Checkpoint) (e : exn) :
  0 <= n ->
  cm_db self = Some db ->
  new_checkpoint self batch_id n verify s = (s1, inr ck) ->
  save_checkpoint db (to_dict ck) s1 = (s2, inl e) ->
  update_checkpoint os batch_id n metadata verify (self, s)
  = ((append_checkpoint ck self, s2), inl (translated e))
  /\ _checkpoints (append_checkpoint ck self) = (_checkpoints self ++ [ck])%list
  /\ (contains "concurrent" (lower (exn_str e)) || contains "conflict" (lower (exn_str e))
      = true -> translated e = Exn ConflictError "Concurrent update detected")
  /\ (forall batch_id' n' metadata' verify' s' self'' s'' ck',
        0 <= n' ->
        update_checkpoint os batch_id' n' metadata' verify' (append_checkpoint ck self, s')
        = ((self'', s''), inr ck') ->
        total_persisted ck' = n' + total_persisted ck)
  /\ (forall later_self,
        manager_later os (append_checkpoint ck self) later_self ->
        exists later c,
          _checkpoints later_self = (_checkpoints self ++ ck :: later)%list
          /\ last (_checkpoints later_self) = Some c
          /\ total_persisted ck <= total_persisted c
          /\ forall n' s', cumulative_count later_self n' s'
                           = (s', inr (n' + total_persisted c)))
  /\ (forall s' s'',
        0 <= total_persisted ck ->
        get_latest_checkpoint db s' = (s'', inr (OScalar VNone)) ->
        get_recovery_point (append_checkpoint ck self) s'
        = (s'', inr {| rp_last_batch_id := VStr batch_id;
                       rp_total_persisted := VInt (total_persisted ck);
                       can_resume := true |})).
Proof.
  intros Hn Hdb Hnew Hsave. split; [|split; [reflexivity|split; [|split; [|split]]]].
  - rewrite update_checkpoint_steps by assumption. rewrite Hnew.
    unfold persist. rewrite Hdb. unfold try_except. rewrite Hsave. reflexivity.
  - unfold translated. now intros ->.
  - intros batch_id' n' metadata' verify' s' self'' s'' ck' Hn' Hupd.
    destruct (update_checkpoint_returned os _ _ _ _ _ _ _ _ _ Hn' Hupd) as (-> & _).
    unfold prior_cumulative. simpl. now rewrite last_snoc.
  - intros later_self Hlater.
    destruct (manager_later_inv os self ck later_self Hlater)
      as (later & Hl & _ & c & Hc & Hle & Hcount).
    exists later, c. auto.
  - intros s' s'' Hpos Hlatest.
    apply new_checkpoint_fields in Hnew as (<- & _).
    now apply (get_recovery_point_fallback self db).
Qed.

Lemma update_checkpoint_not_atomic_witness :
  let locked := Exn (OtherError "OperationalError") "database is locked" in
  let cm := CheckpointManager_init (Some Mock.transient_save) None in
  let ck := {| last_batch_id := "batch_001"; total_persisted := 100;
               status := "committed"; db_count_matches := false |} in
  update_checkpoint Mock.os "batch_001" 100 None false (cm, (Database.empty, Some locked))
  = ((append_checkpoint ck cm, (Database.empty, None)), inl locked)
  /\ get_recovery_point (append_checkpoint ck cm) (Database.empty, None)
     = ((Database.empty, None),
        inr {| rp_last_batch_id := VStr "batch_001"; rp_total_persisted := VInt 100;
               can_resume := true |}).
Proof.
  intros locked cm ck.
  destruct (update_checkpoint_not_atomic Mock.os cm Mock.transient_save "batch_001" 100
              None false (Database.empty, Some locked) (Database.empty, Some locked)
              (Database.empty, None) ck locked)
    as (Hraise & _ & _ & _ & _ & Hpoint);
    [lia | reflexivity | reflexivity | reflexivity |].
  split; [exact Hraise|]. apply Hpoint; [simpl; lia | reflexivity].
Defined.

(** ** Recovery *)

(** [recover] step by step. *)
Lemma recover_steps {S} (self : CrashRecoveryHandler S) (s : S) :
  recover self s =
  match (match h_db self with
         | Some db => check_connection db s
         | None => (s, inr true)
         end) with
  | (s1, inl e) => (s1, inr (failed ("Database unavailable: " +:+ exn_str e)))
  | (s1, inr _) =>
      match h_checkpoint_manager self with
      | None =>
          (s1, inr (failed "'NoneType' object has no attribute 'get_recovery_point'"))
      | Some cm =>
          match get_recovery_point cm s1 with
          | (s2, inl e) =>
              (s2, inr (failed (if bool_decide (exn_cls e = CorruptCheckpointError)
                                then "corrupt checkpoint: " +:+ exn_str e
                                else exn_str e)))
          | (s2, inr point) =>
              if negb (can_resume point) then
                (s2, inr {| rr_success := true; recovered_batches := 0;
                            rr_resume_from := None; data_loss := Some 0;
                            partial_batch_discarded := false; rr_error := None;
                            rr_can_resume := false |})
              else
                match batch_count (rp_last_batch_id point) with
                | inl e => (s2, inr (failed (exn_str e)))
                | inr count =>
                    match check_partial self s2 with
                    | (s3, inl e) => (s3, inr (failed (exn_str e)))
                    | (s3, inr discarded) =>
                        match resume_from point with
                        | inl e => (s3, inr (failed (exn_str e)))
                        | inr next =>
                            (s3, inr {| rr_success := true; recovered_batches := count;
                                        rr_resume_from := next; data_loss := Some 0;
                                        partial_batch_discarded := discarded;
                                        rr_error := None; rr_can_resume := true |})
                        end
                    end
                end
          end
      end
  end.
Proof.
  unfold recover. run.
  destruct (h_db self) as [db|].
  - destruct (check_connection db s) as [s1 [e|alive]]; [reflexivity|].
    destruct (h_checkpoint_manager self) as [cm|]; [|reflexivity].
    destruct (get_recovery_point cm s1) as [s2 [e|point]].
    { case_bool_decide; reflexivity. }
    destruct (negb (can_resume point)); [reflexivity|].
    destruct (batch_count (rp_last_batch_id point)); [reflexivity|].
    destruct (check_partial self s2) as [s3 [e|discarded]]; [reflexivity|].
    destruct (resume_from point); reflexivity.
  - destruct (h_checkpoint_manager self) as [cm|]; [|reflexivity].
    destruct (get_recovery_point cm s) as [s2 [e|point]].
    { case_bool_decide; reflexivity. }
    destruct (negb (can_resume point)); [reflexivity|].
    destruct (batch_count (rp_last_batch_id point)); [reflexivity|].
    destruct (check_partial self s2) as [s3 [e|discarded]]; [reflexivity|].
    destruct (resume_from point); reflexivity.
Qed.

(** C5 (amended). [recover] always returns a [RecoveryResult]: no exception
    escapes, whatever the storage and the checkpoint manager do. A failed
    result has [data_loss=None] and an error message. When the liveness probe
    raises [e] the result is the failure with message
    "Database unavailable: " followed by [str(e)]; when [get_recovery_point]
    raises [e] it is the failure with message "corrupt checkpoint: " and
    [str(e)] for a [CorruptCheckpointError] and [str(e)] otherwise; when the
    partial-batch check raises [e] it is the failure with message [str(e)]. *)
Theorem recover_never_raises {S} (self : CrashRecoveryHandler S) (s : S) :
  (exists s' result,
     recover self s = (s', inr result)
     /\ (rr_success result = false ->
         data_loss result = None /\ exists message, rr_error result = Some message))
  /\ (forall db s' e,
        h_db self = Some db -> check_connection db s = (s', inl e) ->
        recover self s
        = (s', inr (failed ("Database unavailable: " +:+ exn_str e))))
  /\ (forall cm s1 s2 e,
        probed self s s1 -> h_checkpoint_manager self = Some cm ->
        get_recovery_point cm s1 = (s2, inl e) ->
        recover self s
        = (s2, inr (failed (if bool_decide (exn_cls e = CorruptCheckpointError)
                            then "corrupt checkpoint: " +:+ exn_str e
                            else exn_str e))))
  /\ (forall cm s1 s2 point count s3 e,
        probed self s s1 -> h_checkpoint_manager self = Some cm ->
        get_recovery_point cm s1 = (s2, inr point) ->
        can_resume point = true ->
        batch_count (rp_last_batch_id point) = inr count ->
        check_partial self s2 = (s3, inl e) ->
        recover self s = (s3, inr (failed (exn_str e)))).
Proof.
  rewrite recover_steps. split; [|split; [|split]].
  - destruct (match h_db self with
              | Some db => check_connection db s
              | None => (s, inr true)
              end) as [s1 [e|alive]]; [unfold failed; simpl; eauto 10|].
    destruct (h_checkpoint_manager self) as [cm|]; [|unfold failed; simpl; eauto 10].
    destruct (get_recovery_point cm s1) as [s2 [e|point]];
      [unfold failed; simpl; eauto 10|].
    destruct (negb (can_resume point)); [do 2 eexists; split;
                                          [reflexivity | discriminate]|].
    destruct (batch_count (rp_last_batch_id point));
      [unfold failed; simpl; eauto 10|].
    destruct (check_partial self s2) as [s3 [e|discarded]];
      [unfold failed; simpl; eauto 10|].
    destruct (resume_from point); [unfold failed; simpl; eauto 10|].
    do 2 eexists; split; [reflexivity | discriminate].
  - intros db s' e -> ->. reflexivity.
  - intros cm s1 s2 e Hprobe -> Hget. unfold probed in Hprobe.
    destruct (h_db self) as [db|]; [destruct Hprobe as [alive ->] | subst s1];
      now rewrite Hget.
  - intros cm s1 s2 point count s3 e Hprobe -> Hget Hresume Hcount Hpartial.
    unfold probed in Hprobe.
    destruct (h_db self) as [db|] eqn:Edb;
      [destruct Hprobe as [alive ->] | subst s1];
      rewrite Hget, Hresume, Hcount; simpl; now rewrite Hpartial.
Qed.

(** C5 as stated fails: with an unreachable store the error message begins
    "Database unavailable: ", not "storage unavailable: ". *)
Lemma recover_unavailable_message :
  let down := Exn (OtherError "DatabaseUnavailableError") "connection refused" in
  let db := Mock.probe_raises down Database.storage in
  let handler := {| h_checkpoint_manager := Some (CheckpointManager_init (Some db) None);
                    h_db := Some db |} in
  snd (check_connection db Database.empty) = inl down
  /\ snd (recover handler Database.empty)
     = inr (failed "Database unavailable: connection refused")
  /\ startswith "storage unavailable: " "Database unavailable: connection refused" = false.
Proof. repeat split; vm_compute; reflexivity. Qed.

Lemma recover_never_raises_witness :
  let down := Exn (OtherError "DatabaseUnavailableError") "connection refused" in
  let db := Mock.probe_raises down Database.storage in
  let handler := {| h_checkpoint_manager := Some (CheckpointManager_init (Some db) None);
                    h_db := Some db |} in
  recover handler Database.empty
  = (Database.empty, inr (failed "Database unavailable: connection refused")).
Proof.
  intros down db handler.
  destruct (recover_never_raises handler Database.empty) as (_ & Hprobe & _).
  exact (Hprobe db Database.empty down eq_refl eq_refl).
Defined.

(** ** Batch identifiers *)

Section Strings.
Variable sep : ascii.

Lemma split_no_sep s : no_sep sep s = true -> split sep s = [s].
Proof.
  induction s as [|c s IH]; simpl; [reflexivity|].
  intros [Hc Hs]%andb_true_iff. apply negb_true_iff in Hc. rewrite Hc.
  now rewrite (IH Hs).
Qed.

Lemma split_app p r :
  no_sep sep p = true -> split sep (p +:+ String sep r) = p :: split sep r.
Proof.
  induction p as [|c p IH]; simpl.
  - intros _. now rewrite Ascii.eqb_refl.
  - intros [Hc Hp]%andb_true_iff. apply negb_true_iff in Hc. rewrite Hc.
    now rewrite (IH Hp).
Qed.

Lemma split_inv s :
  exists h t,
    split sep s = h :: t /\ no_sep sep h = true
    /\ match t with
       | [] => s = h
       | _ :: _ => exists r, s = h +:+ String sep r /\ split sep r = t
       end.
Proof.
  induction s as [|c s (h & t & Hsplit & Hh & Ht)]; simpl.
  - exists "", []. auto.
  - destruct (Ascii.eqb c sep) eqn:Hc.
    + apply Ascii.eqb_eq in Hc as ->.
      exists "", (h :: t). rewrite Hsplit. repeat split. exists s. now split.
    + rewrite Hsplit. exists (String c h), t. split; [reflexivity|]. split.
      * unfold no_sep in *. simpl. now rewrite Hc, Hh.
      * destruct t as [|b t]; [now subst|].
        destruct Ht as (r & -> & Hr). exists r. now split.
Qed.

Lemma split_two s a b :
  split sep s = [a; b] ->
  s = a +:+ String sep b /\ no_sep sep a = true /\ no_sep sep b = true.
Proof.
  intros H. destruct (split_inv s) as (h & t & Hsplit & Hh & Ht).
  rewrite H in Hsplit. injection Hsplit as <- <-.
  destruct Ht as (r & -> & Hr).
  destruct (split_inv r) as (h & t & Hsplit & Hh' & Ht).
  rewrite Hr in Hsplit. injection Hsplit as <- <-. subst r. auto.
Qed.

End Strings.

Lemma decimal_not_underscore c : is_decimal c = true -> Ascii.eqb c "_" = false.
Proof.
  intros H. destruct (Ascii.eqb_spec c "_") as [->|]; [discriminate H | reflexivity].
Qed.

Lemma all_decimal_no_underscore s :
  all_chars is_decimal s = true -> no_sep "_" s = true.
Proof.
  induction s as [|c s IH]; [reflexivity|]. unfold no_sep in *. simpl.
  intros [Hc Hs]%andb_true_iff. now rewrite (decimal_not_underscore c Hc), (IH Hs).
Qed.

Lemma all_decimal_isdigit s :
  s <> "" -> all_chars is_decimal s = true -> isdigit s = true.
Proof.
  intros Hne Hs. unfold isdigit. apply andb_true_iff. split.
  - apply negb_true_iff. now apply String.eqb_neq.
  - induction s as [|c s IH]; [reflexivity|]. simpl in *.
    apply andb_true_iff in Hs as [Hc Hs]. unfold isdigit_char. rewrite Hc. simpl.
    destruct s; [reflexivity|]. now apply IH.
Qed.

Lemma int_acc_decimal s acc :
  all_chars is_decimal s = true <-> exists n, int_acc acc s = Some n.
Proof.
  revert acc. induction s as [|c s IH]; intros acc; simpl.
  - split; eauto.
  - destruct (is_decimal c); simpl; [apply IH|].
    split; [discriminate | now intros [n ?]].
Qed.

Lemma int_within s : within_limit s -> s <> "" -> int s = int_acc 0 s.
Proof.
  unfold within_limit, int. intros Hlen Hne.
  destruct s as [|c s]; [congruence|].
  destruct (max_str_digits <? _) eqn:E; [lia | reflexivity].
Qed.

Lemma int_beyond s : ~ within_limit s -> int s = None.
Proof.
  unfold within_limit, int. intros Hlen. destruct s as [|c s]; [reflexivity|].
  destruct (max_str_digits <? _) eqn:E; [reflexivity | lia].
Qed.

Lemma int_decimal s :
  s <> "" /\ all_chars is_decimal s = true /\ within_limit s
  <-> exists n, int s = Some n.
Proof.
  split.
  - intros (Hne & Hd & Hlen). rewrite (int_within s Hlen Hne).
    now apply int_acc_decimal.
  - intros [n Hn].
    assert (Hne : s <> "") by (intros ->; discriminate Hn).
    assert (Hlen : within_limit s).
    { destruct (Z_le_gt_dec (Z.of_nat (String.length s)) max_str_digits) as [H|H];
        [exact H|].
      rewrite int_beyond in Hn by (unfold within_limit; lia). discriminate. }
    rewrite (int_within s Hlen Hne) in Hn. repeat split; try assumption.
    apply (int_acc_decimal s 0). eauto.
Qed.

Lemma split_conforming s prefix digits :
  conforming s prefix digits ->
  split "_" s = [prefix; digits] /\ isdigit digits = true.
Proof.
  intros (-> & Hp & Hne & Hd).
  change (prefix +:+ "_" +:+ digits) with (prefix +:+ String "_" digits).
  rewrite (split_app "_" prefix digits Hp).
  rewrite (split_no_sep "_" digits (all_decimal_no_underscore digits Hd)).
  split; [reflexivity | exact (all_decimal_isdigit digits Hne Hd)].
Qed.

Lemma numeric_suffix_conforming s prefix digits :
  conforming s prefix digits ->
  within_limit digits ->
  exists n, int digits = Some n /\ numeric_suffix s = Numbered n.
Proof.
  intros Hc Hlen. destruct (split_conforming s prefix digits Hc) as [Hsplit Hdigit].
  destruct Hc as (_ & _ & Hne & Hd).
  destruct (proj1 (int_decimal digits) (conj Hne (conj Hd Hlen))) as [n Hn].
  exists n. split; [assumption|]. unfold numeric_suffix.
  rewrite Hsplit. simpl. now rewrite Hdigit, Hn.
Qed.

Lemma numeric_suffix_beyond s prefix digits :
  conforming s prefix digits ->
  ~ within_limit digits ->
  numeric_suffix s = IntRaises.
Proof.
  intros Hc Hlen. destruct (split_conforming s prefix digits Hc) as [Hsplit Hdigit].
  unfold numeric_suffix. rewrite Hsplit. simpl.
  now rewrite Hdigit, (int_beyond digits Hlen).
Qed.

Lemma numeric_suffix_Numbered s n :
  numeric_suffix s = Numbered n ->
  exists prefix digits,
    conforming s prefix digits /\ within_limit digits /\ int digits = Some n.
Proof.
  unfold numeric_suffix.
  destruct (split "_" s) as [|a [|b [|c t]]] eqn:Hsplit; simpl; try discriminate.
  destruct (isdigit b); simpl; [|discriminate].
  destruct (int b) as [m|] eqn:Hint; [|discriminate]. intros [= <-].
  destruct (split_two "_" s a b Hsplit) as (-> & Ha & _).
  destruct (proj2 (int_decimal b) (ex_intro _ m Hint)) as (Hne & Hd & Hlen).
  exists a, b. repeat split; assumption.
Qed.

Lemma int_acc_nonneg s acc n : 0 <= acc -> int_acc acc s = Some n -> 0 <= n.
Proof.
  revert acc. induction s as [|c s IH]; intros acc Hacc; simpl.
  - now intros [= <-].
  - destruct (is_decimal c) eqn:Hc; [|discriminate]. apply IH.
    unfold is_decimal in Hc. apply andb_true_iff in Hc as [Hlow _].
    apply Nat.leb_le in Hlow. unfold digit_value. lia.
Qed.

Lemma int_nonneg s n : int s = Some n -> 0 <= n.
Proof.
  unfold int. destruct s as [|c s]; [discriminate|].
  destruct (max_str_digits <? _); [discriminate|].
  now apply int_acc_nonneg.
Qed.

Lemma format_03d_within n :
  0 <= n -> within_limit (decimal n) -> format_03d n = Some (zfill 3 (decimal n)).
Proof.
  unfold within_limit, format_03d. intros Hn Hlen. rewrite Z.abs_eq by assumption.
  destruct (max_str_digits <? _) eqn:E; [lia|].
  destruct (n <? 0) eqn:Hneg; [lia | reflexivity].
Qed.

Lemma format_03d_beyond n :
  0 <= n -> ~ within_limit (decimal n) -> format_03d n = None.
Proof.
  unfold within_limit, format_03d. intros Hn Hlen. rewrite Z.abs_eq by assumption.
  destruct (max_str_digits <? _) eqn:E; [reflexivity | lia].
Qed.

Lemma length_app_string (a b : string) :
  String.length (a +:+ b) = (String.length a + String.length b)%nat.
Proof.
  induction a as [|c a IH]; [reflexivity|].
  change (String c a +:+ b) with (String c (a +:+ b)). simpl. now rewrite IH.
Qed.

Lemma length_zeros k : String.length (zeros k) = k.
Proof. induction k as [|k IH]; simpl; congruence. Qed.

(** Two paddings of the same digits agree iff they have the same length. *)
Lemma zfill_same a b x :
  zfill a x = zfill b x
  <-> Nat.max a (String.length x) = Nat.max b (String.length x).
Proof.
  unfold zfill. split.
  - intros H. apply (f_equal String.length) in H.
    rewrite !length_app_string, !length_zeros in H. lia.
  - intros H.
    replace (a - String.length x)%nat with (b - String.length x)%nat by lia.
    reflexivity.
Qed.

(** An identifier splits at its only underscore in one way. *)
Lemma app_sep_inj p q a b :
  no_sep "_" p = true -> no_sep "_" q = true ->
  p +:+ String "_" a = q +:+ String "_" b -> p = q /\ a = b.
Proof.
  unfold no_sep. revert q. induction p as [|c p IH]; intros [|d q]; simpl.
  - intros _ _ [= ->]. now split.
  - intros _ [Hd _]%andb_true_iff.
    change (String d q +:+ String "_" b) with (String d (q +:+ String "_" b)).
    intros [= <- _]. discriminate Hd.
  - intros [Hc _]%andb_true_iff _.
    change (String c p +:+ String "_" a) with (String c (p +:+ String "_" a)).
    intros [= -> _]. discriminate Hc.
  - intros [_ Hp]%andb_true_iff [_ Hq]%andb_true_iff.
    change (String c p +:+ String "_" a) with (String c (p +:+ String "_" a)).
    change (String d q +:+ String "_" b) with (String d (q +:+ String "_" b)).
    intros [= -> H]. destruct (IH q Hp Hq H) as [-> ->]. now split.
Qed.

(** [resume_from] on an identifier of the form prefix_digits. *)
Lemma resume_from_conforming point s prefix digits :
  rp_last_batch_id point = VStr s ->
  conforming s prefix digits ->
  within_limit digits ->
  exists n,
    int digits = Some n /\ 0 <= n
    /\ resume_from point
       = inr match format_03d (n + 1) with
             | Some next => Some ("batch_" +:+ next)
             | None => None
             end.
Proof.
  intros Hs Hc Hlen.
  destruct (numeric_suffix_conforming s prefix digits Hc Hlen) as (n & Hn & Hsuf).
  exists n. split; [assumption|]. split; [exact (int_nonneg digits n Hn)|].
  unfold resume_from. rewrite Hs, Hsuf.
  assert (truthy (VStr s) = true) as ->.
  { destruct Hc as (-> & _). now destruct prefix. }
  simpl. now destruct (format_03d (n + 1)).
Qed.

(** C4 (amended). Identifiers are strings of characters below U+0100. For
    a [last_batch_id] made of a prefix without underscore, one underscore and
    a run of at most 4300 decimal digits, [resume_from] is "batch_" followed
    by the number plus one, zero-padded to at least three digits, whatever
    the prefix and the width of [last_batch_id]; it is absent when the number
    plus one has more than 4300 digits, or the run of digits has. The result
    is the identifier the specification describes (prefix kept, width kept)
    exactly when the number plus one has at most 4300 digits, the prefix is
    "batch" and padding to the width of the suffix gives as many characters
    as padding to three. [resume_from] is absent when [last_batch_id] is
    absent or is a string of any other form. *)
Theorem resume_from_fixed_format (point : RecoveryPoint) :
  (forall s prefix digits,
     rp_last_batch_id point = VStr s -> conforming s prefix digits ->
     within_limit digits ->
     exists n,
       int digits = Some n
       /\ (within_limit (decimal (n + 1)) ->
           resume_from point = inr (Some ("batch_" +:+ zfill 3 (decimal (n + 1)))))
       /\ (~ within_limit (decimal (n + 1)) -> resume_from point = inr None))
  /\ (forall s prefix digits,
        rp_last_batch_id point = VStr s -> conforming s prefix digits ->
        ~ within_limit digits ->
        resume_from point = inr None)
  /\ (forall s prefix digits n,
        rp_last_batch_id point = VStr s -> conforming s prefix digits ->
        int digits = Some n ->
        (resume_from point = inr (spec_next_id prefix digits)
         <-> within_limit (decimal (n + 1))
             /\ prefix = "batch"
             /\ Nat.max 3 (String.length (decimal (n + 1)))
                = Nat.max (String.length digits) (String.length (decimal (n + 1)))))
  /\ (rp_last_batch_id point = VNone -> resume_from point = inr None)
  /\ (forall s,
        rp_last_batch_id point = VStr s ->
        (forall prefix digits, ~ conforming s prefix digits) ->
        resume_from point = inr None).
Proof.
  split; [|split; [|split; [|split]]].
  - intros s prefix digits Hs Hc Hlen.
    destruct (resume_from_conforming point s prefix digits Hs Hc Hlen)
      as (n & Hn & Hpos & Hr).
    exists n. split; [assumption|]. split; intros Hnext; rewrite Hr.
    + now rewrite (format_03d_within (n + 1) ltac:(lia) Hnext).
    + now rewrite (format_03d_beyond (n + 1) ltac:(lia) Hnext).
  - intros s prefix digits Hs Hc Hlen. unfold resume_from.
    rewrite Hs, (numeric_suffix_beyond s prefix digits Hc Hlen).
    now destruct (negb _).
  - intros s prefix digits n Hs Hc Hn.
    assert (Hlen : within_limit digits).
    { apply (proj2 (int_decimal digits)). eauto. }
    destruct (resume_from_conforming point s prefix digits Hs Hc Hlen)
      as (n' & Hn' & Hpos & ->).
    assert (n' = n) as -> by congruence.
    unfold spec_next_id. rewrite Hn.
    destruct (Z_le_gt_dec (Z.of_nat (String.length (decimal (n + 1)))) max_str_digits)
      as [Hnext | Hnext].
    + rewrite (format_03d_within (n + 1) ltac:(lia) Hnext).
      destruct Hc as (_ & Hp & _). split.
      * intros [= H].
        change ("batch_" +:+ zfill 3 (decimal (n + 1)))
          with ("batch" +:+ String "_" (zfill 3 (decimal (n + 1)))) in H.
        change (prefix +:+ "_" +:+ ?x) with (prefix +:+ String "_" x) in H.
        apply app_sep_inj in H as [<- H]; [|reflexivity | exact Hp].
        split; [exact Hnext|]. split; [reflexivity | now apply zfill_same].
      * intros (_ & -> & H). apply zfill_same in H. now rewrite <- H.
    + rewrite (format_03d_beyond (n + 1) ltac:(lia)) by (unfold within_limit; lia).
      split; [discriminate|]. intros [H _]. unfold within_limit in H. lia.
  - unfold resume_from. now intros ->.
  - intros s Hs Hnone. unfold resume_from. rewrite Hs.
    destruct (negb (truthy (VStr s))); [reflexivity|].
    destruct (numeric_suffix s) as [n| |] eqn:Hsuf; try reflexivity.
    destruct (numeric_suffix_Numbered s n Hsuf) as (prefix & digits & Hc & _).
    destruct (Hnone prefix digits Hc).
Qed.

Lemma resume_from_fixed_format_witness :
  resume_from {| rp_last_batch_id := VStr "chunk_0009"; rp_total_persisted := VInt 900;
                 can_resume := true |} = inr (Some "batch_010")
  /\ (resume_from {| rp_last_batch_id := VStr "batch_1234"; rp_total_persisted := VInt 0;
                     can_resume := true |} = inr (spec_next_id "batch" "1234")
      <-> within_limit (decimal 1235)
          /\ "batch" = "batch" /\ Nat.max 3 4 = Nat.max 4 4).
Proof.
  split.
  - destruct (proj1 (resume_from_fixed_format
                       {| rp_last_batch_id := VStr "chunk_0009";
                          rp_total_persisted := VInt 900; can_resume := true |})
                "chunk_0009" "chunk" "0009" eq_refl) as (n & Hn & Hnext & _).
    + repeat split. discriminate.
    + unfold within_limit. simpl. unfold max_str_digits. lia.
    + injection Hn as <-. apply Hnext.
      unfold within_limit. simpl. unfold max_str_digits. lia.
  - apply (proj1 (proj2 (proj2 (resume_from_fixed_format
                                  {| rp_last_batch_id := VStr "batch_1234";
                                     rp_total_persisted := VInt 0;
                                     can_resume := true |})))
             "batch_1234" "batch" "1234" 1234 eq_refl).
    + repeat split. discriminate.
    + reflexivity.
Defined.

(** C4 as stated fails: "chunk_0009" does not yield "chunk_0010". *)
Lemma resume_from_chunk_0009 :
  resume_from {| rp_last_batch_id := VStr "chunk_0009"; rp_total_persisted := VInt 900;
                 can_resume := true |} = inr (Some "batch_010")
  /\ spec_next_id "chunk" "0009" = Some "chunk_0010"
  /\ "batch_010" <> "chunk_0010".
Proof. repeat split; [reflexivity.. | discriminate]. Qed.

(** ** Recovery on the database of [database.py] *)

Section DatabaseFacts.
Import Database.
Implicit Types (c : conn) (row : document_row).

Lemma dict_get_latest_row c latest :
  latest_row c = Some latest ->
  exists r, last (checkpoints c) = Some r
            /\ dict_get latest "last_batch_id" (VStr "") = ck_last_batch_id r.
Proof.
  unfold latest_row. destruct (last (checkpoints c)) as [r|]; [|discriminate].
  intros [= <-]. exists r. split; reflexivity.
Qed.

(** A batch that the detection loop reports is one the discard loop
    deletes. *)
Lemma beyond_checkpoint_false last_id last_num (batches : list string) :
  (forall b, b ∈ batches -> is_partial last_id last_num b = false) ->
  beyond_checkpoint last_id last_num batches = false.
Proof.
  induction batches as [|b rest IH]; intros H; simpl; [reflexivity|].
  pose proof (H b ltac:(left)) as Hb. unfold is_partial in Hb.
  assert (Hrest : beyond_checkpoint last_id last_num rest = false).
  { apply IH. intros b' Hin. apply H. now right. }
  destruct (numeric_suffix (split_head "_partial" b)); now rewrite ?Hb.
Qed.

Lemma discard_loop_elem last_id last_num (batches : list string) docs row :
  row ∈ discard_loop last_id last_num batches docs ->
  row ∈ docs
  /\ (doc_batch_id row ∈ batches -> is_partial last_id last_num (doc_batch_id row) = false).
Proof.
  revert docs. induction batches as [|b rest IH]; intros docs; simpl.
  - intros H. split; [assumption|]. intros Hin. inversion Hin.
  - intros H. apply IH in H as [Hin Hrest].
    destruct (is_partial last_id last_num b) eqn:Hb.
    + unfold delete_batch in Hin. apply list_elem_of_filter in Hin as [Hne Hin].
      split; [assumption|]. intros [Heq|Hr]%elem_of_cons; [now destruct Hne | auto].
    + split; [assumption|]. intros [->|Hr]%elem_of_cons; auto.
Qed.

Lemma elem_of_doc_batches c b :
  b ∈ elements (doc_batches c) <-> exists row, row ∈ documents c /\ doc_batch_id row = b.
Proof.
  unfold doc_batches. rewrite elem_of_elements, elem_of_list_to_set, list_elem_of_fmap.
  split; intros (row & ? & ?); exists row; auto.
Qed.

Lemma has_partial_batch_state c : fst (has_partial_batch c) = c.
Proof.
  unfold has_partial_batch. run. destruct (latest_row c); [|reflexivity].
  destruct (last_batch_num _); reflexivity.
Qed.

(** Once a partial batch was detected, discarding succeeds, leaves the
    checkpoints alone, and leaves nothing to detect. *)
Lemma discard_after_partial c :
  snd (has_partial_batch c) = inr true ->
  exists c',
    discard_partial_batch c = (c', inr tt)
    /\ checkpoints c' = checkpoints c
    /\ has_partial_batch c' = (c', inr false).
Proof.
  unfold has_partial_batch, discard_partial_batch. run.
  destruct (latest_row c) as [latest|] eqn:Hlatest.
  - destruct (last_batch_num _) as [e|num] eqn:Hnum; [discriminate|]. intros _.
    eexists. split; [reflexivity|]. split; [reflexivity|].
    unfold latest_row in *. simpl. 
    destruct (last (checkpoints c)) as [r|]; [|discriminate].
    injection Hlatest as <-. rewrite Hnum. f_equal. f_equal.
    apply beyond_checkpoint_false. intros b Hb.
    apply elem_of_doc_batches in Hb as (row & Hrow & <-). simpl in Hrow.
    apply discard_loop_elem in Hrow as [Hin Hfalse]. apply Hfalse.
    apply elem_of_doc_batches. eauto.
  - intros _. eexists. split; [reflexivity|]. split; [reflexivity|].
    unfold latest_row in *. simpl.
    destruct (last (checkpoints c)); [discriminate|]. reflexivity.
Qed.

Lemma check_partial_database (self : CrashRecoveryHandler conn) c :
  (forall db, h_db self = Some db -> db = storage) ->
  (fst (check_partial self c) = c /\ snd (check_partial self c) <> inr true)
  \/ exists c', check_partial self c = (c', inr true)
                /\ checkpoints c' = checkpoints c
                /\ check_partial self c' = (c', inr false).
Proof.
  intros Hdb. unfold check_partial.
  destruct (h_db self) as [db|]; [|left; now split].
  rewrite (Hdb db eq_refl). simpl. unfold bind.
  pose proof (has_partial_batch_state c) as Hstate.
  destruct (has_partial_batch c) as [c0 [e|[|]]] eqn:Hhas; simpl in Hstate; subst c0.
  - left. now split.
  - right. destruct (discard_after_partial c) as (c' & Hd & Hck & Hhas').
    { now rewrite Hhas. }
    exists c'. rewrite Hd. split; [reflexivity|]. split; [assumption|].
    now rewrite Hhas'.
  - left. now split.
Qed.

Lemma get_recovery_point_database (cm : CheckpointManager conn) c :
  (forall db, cm_db cm = Some db -> db = storage) ->
  get_recovery_point cm c
  = (c, snd (get_recovery_point cm {| documents := []; checkpoints := checkpoints c |})).
Proof.
  intros Hdb. unfold get_recovery_point.
  destruct (cm_db cm) as [db|].
  - rewrite (Hdb db eq_refl). simpl. unfold get_latest_checkpoint, latest_row. run.
    destruct (last (checkpoints c)) as [r|]; simpl.
    + match goal with |- context [match ?d !! "last_batch_id" with _ => _ end] =>
        destruct (d !! "last_batch_id"), (d !! "total_persisted") end;
        try reflexivity.
      destruct (negative _) as [e|[|]]; reflexivity.
    + destruct (last (_checkpoints cm)); [|reflexivity].
      match goal with |- context [match ?d !! "last_batch_id" with _ => _ end] =>
        destruct (d !! "last_batch_id"), (d !! "total_persisted") end;
        try reflexivity.
      destruct (negative _) as [e|[|]]; reflexivity.
  - run.
    destruct (last (_checkpoints cm)); [|reflexivity].
    match goal with |- context [match ?d !! "last_batch_id" with _ => _ end] =>
      destruct (d !! "last_batch_id"), (d !! "total_persisted") end;
      try reflexivity.
    destruct (negative _) as [e|[|]]; reflexivity.
Qed.

End DatabaseFacts.

Lemma recover_database (self : CrashRecoveryHandler Database.conn) (c : Database.conn) :
  (forall db, h_db self = Some db -> db = Database.storage) ->
  (forall cm db,
     h_checkpoint_manager self = Some cm -> cm_db cm = Some db ->
     db = Database.storage) ->
  recover self c = outcome self c (check_partial self c).
Proof.
  intros handler_db manager_db.
  rewrite recover_steps. unfold outcome.
  assert ((match h_db self with
           | Some db => check_connection db c
           | None => (c, inr true)
           end) = (c, inr true)) as ->.
  { destruct (h_db self) as [db|]; [|reflexivity].
    now rewrite (handler_db db eq_refl). }
  destruct (h_checkpoint_manager self) as [cm|] eqn:Ecm; [|reflexivity].
  rewrite (get_recovery_point_database cm c (fun db => manager_db cm db eq_refl)).
  reflexivity.
Qed.

Lemma recover_twice (self : CrashRecoveryHandler Database.conn) (c : Database.conn) :
  (forall db, h_db self = Some db -> db = Database.storage) ->
  (forall cm db,
     h_checkpoint_manager self = Some cm -> cm_db cm = Some db ->
     db = Database.storage) ->
  exists c1 first second,
    recover self c = (c1, inr first)
    /\ recover self c1 = (c1, inr second)
    /\ rr_resume_from second = rr_resume_from first
    /\ recovered_batches second = recovered_batches first
    /\ partial_batch_discarded second = false.
Proof.
  intros handler_db manager_db.
  pose proof (fun c => recover_database self c handler_db manager_db) as Hrecover.
  rewrite Hrecover.
  destruct (check_partial_database self c handler_db)
    as [[Hstate Hnot] | (c' & Hfirst & Hck & Hsecond)].
  - (* nothing was discarded: the second call sees the same world *)
    destruct (check_partial self c) as [c0 r] eqn:Hpartial. simpl in *. subst c0.
    assert (exists first, outcome self c (c, r) = (c, inr first)
                          /\ partial_batch_discarded first = false)
      as (first & Hout & Hflag).
    { unfold outcome.
      destruct (h_checkpoint_manager self); [|eauto].
      destruct (snd (get_recovery_point _ _)) as [e|point]; [eauto|].
      destruct (negb (can_resume point)); [eauto|].
      destruct (batch_count _); [eauto|].
      destruct r as [e|[|]]; [eauto | congruence |].
      destruct (resume_from point); eauto. }
    exists c, first, first. rewrite Hrecover, Hpartial, Hout. auto.
  - (* a partial batch was discarded: the checkpoints are untouched *)
    rewrite Hfirst. unfold outcome at 1.
    destruct (h_checkpoint_manager self) as [cm|] eqn:Ecm.
    2:{ exists c. do 2 eexists. split; [reflexivity|].
        rewrite Hrecover. unfold outcome. rewrite Ecm. auto. }
    destruct (snd (get_recovery_point cm _)) as [e|point] eqn:Hpoint.
    { exists c. do 2 eexists. split; [reflexivity|].
      rewrite Hrecover. unfold outcome. rewrite Ecm, Hpoint. auto. }
    destruct (negb (can_resume point)) eqn:Hresume.
    { exists c. do 2 eexists. split; [reflexivity|].
      rewrite Hrecover. unfold outcome. rewrite Ecm, Hpoint, Hresume. auto. }
    destruct (batch_count (rp_last_batch_id point)) as [e|count] eqn:Hcount.
    { exists c. do 2 eexists. split; [reflexivity|].
      rewrite Hrecover. unfold outcome.
      rewrite Ecm, Hpoint, Hresume, Hcount. auto. }
    destruct (resume_from point) as [e|next] eqn:Hnext.
    + exists c'. do 2 eexists. split; [reflexivity|].
      rewrite Hrecover, Hsecond. unfold outcome.
      rewrite Ecm, Hck, Hpoint, Hresume, Hcount, Hnext. auto.
    + exists c'. do 2 eexists. split; [reflexivity|].
      rewrite Hrecover, Hsecond. unfold outcome.
      rewrite Ecm, Hck, Hpoint, Hresume, Hcount, Hnext. auto.
Qed.


(** C8. On the database of [database.py], two consecutive calls of
    [recover] with nothing written in between both return a result; the
    second has the same [resume_from] and [recovered_batches] as the first
    and [partial_batch_discarded=False], and it leaves the storage as the
    first call left it. *)
Theorem recover_idempotent (self : CrashRecoveryHandler Database.conn)
    (c : Database.conn) :
  (forall db, h_db self = Some db -> db = Database.storage) ->
  (forall cm db,
     h_checkpoint_manager self = Some cm -> cm_db cm = Some db ->
     db = Database.storage) ->
  exists c1 first second,
    recover self c = (c1, inr first)
    /\ recover self c1 = (c1, inr second)
    /\ rr_resume_from second = rr_resume_from first
    /\ recovered_batches second = recovered_batches first
    /\ partial_batch_discarded second = false.
Proof. exact (recover_twice self c). Qed.

Lemma recover_idempotent_witness :
  let row id batch := {| Database.doc_id := VStr id; Database.doc_content := VStr "text";
                         Database.doc_batch_id := batch |} in
  let c := {| Database.documents :=
                [row "doc1" "batch_004"; row "doc2" "batch_005"; row "doc3" "batch_005"];
              Database.checkpoints :=
                [{| Database.ck_last_batch_id := VStr "batch_004";
                    Database.ck_total_persisted := VInt 400;
                    Database.ck_status := VStr "committed" |}] |} in
  let handler :=
    {| h_checkpoint_manager := Some (CheckpointManager_init (Some Database.storage) None);
       h_db := Some Database.storage |} in
  exists c1 first second,
    recover handler c = (c1, inr first)
    /\ recover handler c1 = (c1, inr second)
    /\ rr_resume_from second = rr_resume_from first
    /\ recovered_batches second = recovered_batches first
    /\ partial_batch_discarded second = false
    /\ partial_batch_discarded first = true
    /\ rr_resume_from first = Some "batch_005"
    /\ recovered_batches first = 4
    /\ Database.documents c1 = [row "doc1" "batch_004"].
Proof.
  intros row c handler.
  destruct (recover_idempotent handler c) as (c1 & first & second & H1 & H2 & H3 & H4 & H5).
  - now intros db [= <-].
  - now intros cm db [= <-] [= <-].
  - exists c1, first, second. vm_compute in H1. injection H1 as <- <-.
    repeat split; assumption || reflexivity.
Defined.

(** C2 at a failing session. The first batch's documents are inserted, its
    checkpoint is appended in memory, and [save_checkpoint] raises: the call
    reports [success=False, persisted_count=0]. The second batch succeeds
    with [persisted_count=3], and its checkpoint has [total_persisted=5]: the
    sum of the successful counts is 3. *)
Theorem process_batch_counts_failed_batch :
  let locked := Exn (OtherError "OperationalError") "database is locked" in
  let db := Mock.transient_save in
  let w0 := StreamingBatchWriter_init (Some db)
              (Some (CheckpointManager_init (Some db) None)) 100 in
  let first := process_batch Mock.os [Mock.doc "a"; Mock.doc "b"] "batch_001"
                 (w0, (Database.empty, Some locked)) in
  let second := process_batch Mock.os [Mock.doc "c"; Mock.doc "d"; Mock.doc "e"]
                  "batch_002" (fst first) in
  snd first = inr {| success := false; persisted_count := 0; batch_id := "batch_001";
                     checkpoint_updated := false; error := Some "database is locked" |}
  /\ snd second = inr {| success := true; persisted_count := 3; batch_id := "batch_002";
                         checkpoint_updated := true; error := None |}
  /\ (_checkpoints <$> w_checkpoint_manager (fst (fst second)))
     = Some [ {| last_batch_id := "batch_001"; total_persisted := 2;
                 status := "committed"; db_count_matches := false |};
              {| last_batch_id := "batch_002"; total_persisted := 5;
                 status := "committed"; db_count_matches := false |} ]
  /\ Database.checkpoints (fst (snd (fst second)))
     = [ {| Database.ck_last_batch_id := VStr "batch_002";
            Database.ck_total_persisted := VInt 5;
            Database.ck_status := VStr "committed" |} ].
Proof. repeat split; vm_compute; reflexivity. Qed.

(** A successful [process_batch] reports the number of documents submitted
    and, when the writer has a checkpoint manager, appends one checkpoint
    whose total is that number plus the prior cumulative value. *)
Lemma process_batch_success_step {S} (os : OS S) (w w' : StreamingBatchWriter S)
    documents batch_id s s' result :
  process_batch os documents batch_id (w, s) = ((w', s'), inr result) ->
  success result = true ->
  persisted_count result = Z.of_nat (length documents)
  /\ forall cm, w_checkpoint_manager w = Some cm ->
       exists cm' s1 checkpoint,
         w_checkpoint_manager w' = Some cm'
         /\ cm_db cm' = cm_db cm
         /\ _checkpoints cm' = (_checkpoints cm ++ [checkpoint])%list
         /\ total_persisted checkpoint
            = Z.of_nat (length documents)
              + prior_cumulative (_checkpoints cm) (latest_read cm s1).
Proof.
  destruct (rejected w documents batch_id) as [e|] eqn:Hr.
  { rewrite (process_batch_rejected os _ _ _ _ _ Hr). discriminate. }
  unfold rejected in Hr. unfold process_batch. run.
  repeat case_bool_decide; try discriminate. rewrite Hr.
  set (ins := match w_db w with Some db => _ | None => _ end).
  destruct (ins (w, s)) as [[w1 s1] [e|[]]] eqn:Hins.
  { intros [= <- <- <-]. discriminate. }
  assert (w1 = w) as ->.
  { subst ins. destruct (w_db w); [| now inversion Hins].
    destruct (insert_documents _ _ _ s); now inversion Hins. }
  unfold on_manager.
  destruct (w_checkpoint_manager w) as [cm|] eqn:Ecm.
  - destruct (update_checkpoint os batch_id (Z.of_nat (length documents)) None false
                (cm, s1)) as [[cm' s2] [e|checkpoint]] eqn:Hupd.
    { intros [= <- <- <-]. discriminate. }
    intros [= <- <- <-] _. split; [reflexivity|]. intros cm0 [= <-].
    destruct (update_checkpoint_returned os cm cm' batch_id
                (Z.of_nat (length documents)) None false s1 s2 checkpoint
                ltac:(lia) Hupd) as (Ht & _ & Hl).
    pose proof (update_checkpoint_config os cm batch_id (Z.of_nat (length documents))
                  None false s1) as Hcfg.
    rewrite Hupd in Hcfg. exists cm', s1, checkpoint. simpl. auto.
  - intros [= <- <- <-] _. split; [reflexivity|]. discriminate.
Qed.

Lemma process_batch_config {S} (os : OS S) (w : StreamingBatchWriter S)
    documents batch_id s :
  (cm_db <$> w_checkpoint_manager (fst (fst (process_batch os documents batch_id (w, s)))))
  = (cm_db <$> w_checkpoint_manager w).
Proof.
  destruct (rejected w documents batch_id) as [e|] eqn:Hr.
  { now rewrite (process_batch_rejected os _ _ _ _ _ Hr). }
  unfold rejected in Hr. unfold process_batch. run.
  repeat case_bool_decide; try discriminate. rewrite Hr.
  set (ins := match w_db w with Some db => _ | None => _ end).
  destruct (ins (w, s)) as [[w1 s1] [e|[]]] eqn:Hins;
    (assert (w1 = w) as ->;
     [ subst ins; destruct (w_db w); [| now inversion Hins];
       destruct (insert_documents _ _ _ s); now inversion Hins |]);
    [reflexivity|].
  unfold on_manager.
  destruct (w_checkpoint_manager w) as [cm|] eqn:Ecm; [|simpl; now rewrite Ecm].
  pose proof (update_checkpoint_config os cm batch_id (Z.of_nat (length documents))
                None false s1) as Hcfg.
  destruct (update_checkpoint os batch_id (Z.of_nat (length documents)) None false
              (cm, s1)) as [[cm' s2] [e|checkpoint]]; simpl in *; now rewrite Hcfg.
Qed.

Lemma sum_first_snoc (counts : list Z) n :
  sum_first (Datatypes.S (length counts)) (counts ++ [n]) = sum_first (length counts) counts + n.
Proof.
  unfold sum_first. rewrite firstn_all.
  rewrite take_ge by (rewrite length_app; simpl; lia).
  induction counts as [|a l IH]; simpl; [lia|]. rewrite IH. lia.
Qed.

Lemma sum_first_app (counts : list Z) n k :
  (k <= length counts)%nat -> sum_first k (counts ++ [n]) = sum_first k counts.
Proof. intros H. unfold sum_first. now rewrite take_app_le. Qed.

(** In a tidy session every checkpoint the writer produced holds the prior
    cumulative value plus the sum of the successful counts so far. *)
Lemma tidy_session_sums {S} (os : OS S) (start w : StreamingBatchWriter S)
    (counts : list Z) (cm0 : CheckpointManager S) :
  tidy_session os start w counts ->
  w_checkpoint_manager start = Some cm0 ->
  exists cm later base,
    w_checkpoint_manager w = Some cm
    /\ cm_db cm = cm_db cm0
    /\ _checkpoints cm = (_checkpoints cm0 ++ later)%list
    /\ length later = length counts
    /\ (later <> [] ->
        exists s1, base = prior_cumulative (_checkpoints cm0) (latest_read cm0 s1))
    /\ forall i c, later !! i = Some c ->
                   total_persisted c = base + sum_first (Datatypes.S i) counts.
Proof.
  intros Hs Hcm0.
  induction Hs as [| w counts documents batch_id s _ IH Hok
                   | w counts documents batch_id s _ IH Hfail Hlist].
  - exists cm0, [], 0. rewrite app_nil_r. repeat split; done.
  - destruct IH as (cm & later & base & Hcm & Hdb & Hl & Hlen & Hbase & Hsum).
    destruct (process_batch os documents batch_id (w, s)) as [[w' s'] [e|result]] eqn:Hpb;
      [discriminate|]. simpl in Hok.
    destruct (process_batch_success_step os w w' documents batch_id s s' result Hpb Hok)
      as (_ & Hstep).
    destruct (Hstep cm Hcm) as (cm' & s1 & ck & Hcm' & Hdb' & Hl' & Htotal).
    simpl.
    destruct later as [|c0 later0] eqn:Hlater.
    + (* the first checkpoint of the session fixes the base *)
      rewrite app_nil_r in Hl. destruct counts; [|discriminate].
      exists cm', [ck], (prior_cumulative (_checkpoints cm0) (latest_read cm0 s1)).
      split; [assumption|]. split; [congruence|].
      split; [now rewrite Hl', Hl|]. split; [reflexivity|]. split; [eauto|].
      intros [|i] c Hi; [|now destruct i].
      injection Hi as <-. rewrite Htotal, Hl.
      unfold latest_read. rewrite Hdb. unfold sum_first. simpl. lia.
    + rewrite <- Hlater in *.
      exists cm', (later ++ [ck])%list, base.
      split; [assumption|]. split; [congruence|].
      split; [now rewrite Hl', Hl, app_assoc|].
      split; [rewrite !length_app; simpl; lia|].
      split; [intros _; apply Hbase; now subst later|].
      intros i c Hi.
      destruct (decide (i < length later)%nat) as [Hlt|Hge].
      * rewrite lookup_app_l in Hi by assumption.
        rewrite sum_first_app by lia. now apply Hsum.
      * assert (i = length later) as ->.
        { apply lookup_lt_Some in Hi. rewrite length_app in Hi. simpl in Hi. lia. }
        rewrite lookup_app_r in Hi by lia. rewrite Nat.sub_diag in Hi.
        injection Hi as <-. rewrite Hlen, sum_first_snoc, Htotal.
        assert (exists c, last later = Some c) as (c & Hc).
        { subst later. rewrite last_cons. destruct (last later0); eauto. }
        unfold prior_cumulative. rewrite Hl, last_app, Hc.
        rewrite last_lookup in Hc.
        assert (Hidx : Datatypes.S (pred (length later)) = length counts).
        { rewrite <- Hlen. subst later. simpl. lia. }
        rewrite (Hsum _ _ Hc), Hidx. lia.
  - destruct IH as (cm & later & base & Hcm & Hdb & Hl & Hlen & Hbase & Hsum).
    pose proof (process_batch_config os w documents batch_id s) as Hcfg.
    rewrite Hcm in Hlist, Hcfg. simpl in *.
    destruct (w_checkpoint_manager _) as [cm'|]; [|discriminate].
    injection Hlist as Hlist. injection Hcfg as Hcfg.
    exists cm', later, base. rewrite Hlist, Hcfg. auto 10.
Qed.

(** * Further properties of the code *)

(** ** get_recovery_point *)

Lemma bind_inl {St A B} (m : M St A) (k : A -> M St B) st st' e :
  m st = (st', inl e) -> bind m k st = (st', inl e).
Proof. intros H. unfold bind. now rewrite H. Qed.

Lemma to_dict_lookups (c : Checkpoint) :
  to_dict c !! "last_batch_id" = Some (VStr (last_batch_id c))
  /\ to_dict c !! "total_persisted" = Some (VInt (total_persisted c)).
Proof. split; reflexivity. Qed.

(** What [get_recovery_point] does with the record it settled on. *)
Lemma get_recovery_point_record {S} (self : CheckpointManager S) (s s' : S) latest :
  match cm_db self with
  | Some db => get_latest_checkpoint db s = (s', inr latest)
  | None => s' = s /\ latest = OScalar VNone
  end ->
  get_recovery_point self s
  = (s', point_of_record (settled latest (_checkpoints self))).
Proof.
  intros H. unfold get_recovery_point.
  assert ((match cm_db self with
           | Some db => get_latest_checkpoint db
           | None => ret (OScalar VNone)
           end) s = (s', inr latest)) as Hl.
  { destruct (cm_db self); [assumption|]. destruct H as [-> ->]. reflexivity. }
  rewrite (bind_inr _ _ _ _ _ Hl). fold (settled latest (_checkpoints self)).
  unfold point_of_record.
  destruct (settled latest (_checkpoints self)) as [d|[]]; try reflexivity.
  unfold dict_get.
  destruct (d !! "last_batch_id") as [b|], (d !! "total_persisted") as [t|];
    try reflexivity.
  destruct (negative t) as [e|[]]; reflexivity.
Qed.

Lemma get_recovery_point_read {S} (self : CheckpointManager S) (s s' : S) r :
  get_recovery_point self s = (s', r) ->
  (exists e, r = inl e
             /\ exists db, cm_db self = Some db /\ get_latest_checkpoint db s = (s', inl e))
  \/ exists latest,
       match cm_db self with
       | Some db => get_latest_checkpoint db s = (s', inr latest)
       | None => s' = s /\ latest = OScalar VNone
       end.
Proof.
  destruct (cm_db self) as [db|] eqn:Edb.
  - destruct (get_latest_checkpoint db s) as [s1 [e|latest]] eqn:Hl.
    + unfold get_recovery_point. rewrite Edb, (bind_inl _ _ _ _ _ Hl).
      intros [= <- <-]. left. eauto.
    + intros H. right. exists latest.
      pose proof (get_recovery_point_record self s s1 latest) as Hrec.
      rewrite Edb in Hrec. specialize (Hrec Hl). rewrite Hrec in H.
      now injection H as -> _.
  - intros H. right. exists (OScalar VNone).
    pose proof (get_recovery_point_record self s s (OScalar VNone)) as Hrec.
    rewrite Edb in Hrec. specialize (Hrec (conj eq_refl eq_refl)). rewrite Hrec in H.
    now injection H as -> _.
Qed.

(** X1. Whenever [get_recovery_point] returns, [can_resume] holds exactly
    when [last_batch_id] is not [None], and the test [total_persisted < 0]
    is False for the total it returns: no recovery point carries a negative
    total. *)
Theorem get_recovery_point_returned {S} (self : CheckpointManager S) (s s' : S)
    (point : RecoveryPoint) :
  get_recovery_point self s = (s', inr point) ->
  (can_resume point = true <-> rp_last_batch_id point <> VNone)
  /\ negative (rp_total_persisted point) = inr false.
Proof.
  intros H. destruct (get_recovery_point_read self s s' _ H)
    as [(e & He & _) | (latest & Hl)]; [discriminate|].
  rewrite (get_recovery_point_record self s s' latest Hl) in H.
  unfold point_of_record in H.
  destruct (settled latest (_checkpoints self)) as [d|[]]; try discriminate.
  - destruct (d !! "last_batch_id") as [b|], (d !! "total_persisted") as [t|];
      try discriminate.
    destruct (negative t) as [e|[]] eqn:Hneg; try discriminate.
    injection H as <-. simpl. split; [|exact Hneg].
    rewrite negb_true_iff, bool_decide_eq_false. tauto.
  - injection H as <-. simpl. split; [split; [discriminate | congruence]|].
    reflexivity.
Qed.

Lemma get_recovery_point_returned_witness :
  let stored :=
    {| Database.documents := [];
       Database.checkpoints :=
         [{| Database.ck_last_batch_id := VStr "batch_005";
             Database.ck_total_persisted := VInt 500;
             Database.ck_status := VStr "committed" |}] |} in
  let point := {| rp_last_batch_id := VStr "batch_005"; rp_total_persisted := VInt 500;
                  can_resume := true |} in
  (can_resume point = true <-> rp_last_batch_id point <> VNone)
  /\ negative (rp_total_persisted point) = inr false.
Proof.
  intros stored point.
  exact (get_recovery_point_returned
           (CheckpointManager_init (Some Database.storage) None) stored stored point
           eq_refl).
Defined.

(** X2. When storage hands back a record, [get_recovery_point] raises
    [CorruptCheckpointError] exactly when the record is not a dictionary,
    lacks [last_batch_id] or [total_persisted], or has a total for which
    [total < 0] holds; a total that is [None] or a string makes that
    comparison raise, and [get_recovery_point] raises its [TypeError]
    instead. *)
Theorem get_recovery_point_corrupt {S} (self : CheckpointManager S) (db : Storage S)
    (s s' : S) (latest : pyobj) :
  cm_db self = Some db ->
  get_latest_checkpoint db s = (s', inr latest) ->
  latest <> OScalar VNone ->
  ((exists message,
      get_recovery_point self s = (s', inl (Exn CorruptCheckpointError message)))
   <-> corrupt latest)
  /\ (forall d b t,
        latest = ODict d -> d !! "last_batch_id" = Some b ->
        d !! "total_persisted" = Some t -> t = VNone \/ (exists x, t = VStr x) ->
        exists message, get_recovery_point self s = (s', inl (Exn TypeError message))).
Proof.
  intros Hdb Hl Hsome.
  pose proof (get_recovery_point_record self s s' latest) as Hrec.
  rewrite Hdb in Hrec. specialize (Hrec Hl). rewrite Hrec. clear Hrec.
  assert (settled latest (_checkpoints self) = latest) as ->.
  { unfold settled. destruct latest as [d|[]]; try reflexivity. congruence. }
  assert (Hpair : forall (a b : exn + RecoveryPoint), (s', a) = (s', b) <-> a = b).
  { intros a b. split; [now intros [= ->] | now intros ->]. }
  split.
  - setoid_rewrite Hpair. destruct latest as [d|v]; simpl.
    + destruct (d !! "last_batch_id") as [b|], (d !! "total_persisted") as [t|];
        try (split; [intros _|]; eauto; fail).
      destruct t as [|b'|z|x]; simpl.
      * split; [intros [m [=]] | intros [|[|(t & [= <-] & [=])]]; discriminate].
      * split; [intros [m [=]] | intros [|[|(t & [= <-] & [=])]]; discriminate].
      * destruct (z <? 0) eqn:Hz.
        -- split; [intros _ | eauto]. right; right. exists (VInt z).
           split; [reflexivity|]. simpl. now rewrite Hz.
        -- split; [intros [m [=]]|].
           intros [|[|(t & [= <-] & Hneg)]]; try discriminate.
           simpl in Hneg. rewrite Hz in Hneg. discriminate.
      * split; [intros [m [=]] | intros [|[|(t & [= <-] & [=])]]; discriminate].
    + destruct v; try (split; [intros _; discriminate | eauto]). congruence.
  - intros d b t -> Hb Ht Hbad. simpl. rewrite Hb, Ht.
    destruct Hbad as [-> | [x ->]]; simpl; eauto.
Qed.

Lemma get_recovery_point_corrupt_witness :
  let stored :=
    {| Database.documents := [];
       Database.checkpoints :=
         [{| Database.ck_last_batch_id := VStr "batch_005";
             Database.ck_total_persisted := VInt (-1);
             Database.ck_status := VStr "committed" |}] |} in
  exists message,
    get_recovery_point (CheckpointManager_init (Some Database.storage) None) stored
    = (stored, inl (Exn CorruptCheckpointError message)).
Proof.
  intros stored.
  destruct (get_recovery_point_corrupt
              (CheckpointManager_init (Some Database.storage) None) Database.storage
              stored stored
              (ODict {[ "last_batch_id" := VStr "batch_005";
                        "total_persisted" := VInt (-1);
                        "status" := VStr "committed" ]})
              eq_refl eq_refl ltac:(discriminate)) as [Hiff _].
  apply Hiff. right; right. exists (VInt (-1)). split; reflexivity.
Defined.

(** X3. When storage hands back a record, [get_recovery_point] does not look
    at the in-memory checkpoints: the outcome is the same whatever they
    are. *)
Theorem get_recovery_point_storage_first {S} (self : CheckpointManager S)
    (db : Storage S) (s s' : S) (latest : pyobj) (memory : list Checkpoint) :
  cm_db self = Some db ->
  get_latest_checkpoint db s = (s', inr latest) ->
  latest <> OScalar VNone ->
  get_recovery_point (with_memory memory self) s = get_recovery_point self s.
Proof.
  intros Hdb Hl Hsome.
  pose proof (get_recovery_point_record self s s' latest) as H1.
  pose proof (get_recovery_point_record (with_memory memory self) s s' latest) as H2.
  simpl in H2. rewrite Hdb in H1, H2. rewrite (H1 Hl), (H2 Hl).
  unfold settled. destruct latest as [d|[]]; try reflexivity. congruence.
Qed.

Lemma get_recovery_point_storage_first_witness :
  let stored :=
    {| Database.documents := [];
       Database.checkpoints :=
         [{| Database.ck_last_batch_id := VStr "batch_005";
             Database.ck_total_persisted := VInt 500;
             Database.ck_status := VStr "committed" |}] |} in
  let unsaved := {| last_batch_id := "batch_006"; total_persisted := 600;
                    status := "committed"; db_count_matches := false |} in
  let cm := CheckpointManager_init (Some Database.storage) None in
  get_recovery_point (with_memory [unsaved] cm) stored = get_recovery_point cm stored.
Proof.
  intros stored unsaved cm.
  apply (get_recovery_point_storage_first cm Database.storage stored stored
           (ODict {[ "last_batch_id" := VStr "batch_005";
                     "total_persisted" := VInt 500;
                     "status" := VStr "committed" ]}) [unsaved]).
  - reflexivity.
  - reflexivity.
  - discriminate.
Defined.

(** ** verify_consistency and validate_integrity *)

Lemma startswith_app p s : startswith p (p +:+ s) = true.
Proof.
  unfold startswith. induction p as [|a p IH]; simpl.
  - now destruct s.
  - now destruct (ascii_dec a a).
Qed.

Lemma discrepancy_prefix missing_count expected actual :
  startswith "missing " (discrepancy missing_count expected actual) = true
  \/ startswith "extra " (discrepancy missing_count expected actual) = true.
Proof.
  unfold discrepancy.
  destruct (missing_count >? 0); [left | right]; apply startswith_app.
Qed.

(** A report is consistent and empty, or inconsistent with one message. *)
Lemma verify_consistency_shape {S} (self : CheckpointManager S) (s s' : S) report :
  verify_consistency self s = (s', inr report) ->
  report = {| consistent := true; discrepancies := [] |}
  \/ exists message,
       report = {| consistent := false; discrepancies := [message] |}
       /\ (startswith "missing " message = true \/ startswith "extra " message = true).
Proof.
  unfold verify_consistency. destruct (cm_db self) as [db|]; [|intros [= _ <-]; now left].
  run. destruct (get_latest_checkpoint db s) as [s1 [e|cp_data]]; [discriminate|].
  destruct (negb (obj_truthy cp_data)); [intros [= _ <-]; now left|].
  destruct (get_document_count db s1) as [s2 [e|actual]]; [discriminate|].
  destruct cp_data as [d|v]; [|discriminate].
  destruct (int_eq actual _); [intros [= _ <-]; now left|].
  destruct (minus_int _ actual) as [e|missing_count]; [discriminate|].
  intros [= _ <-]. right. eexists. split; [reflexivity|]. apply discrepancy_prefix.
Qed.

Lemma verify_consistency_counts {S} (self : CheckpointManager S) (s : S) db s1 s2 d t a :
  cm_db self = Some db ->
  get_latest_checkpoint db s = (s1, inr (ODict d)) ->
  d !! "total_persisted" = Some (VInt t) ->
  get_document_count db s1 = (s2, inr a) ->
  verify_consistency self s
  = (s2, inr (if a =? t then {| consistent := true; discrepancies := [] |}
              else if t >? a then
                {| consistent := false;
                   discrepancies :=
                     ["missing " +:+ str_int (t - a) +:+ " documents (checkpoint: "
                      +:+ str_int t +:+ ", db: " +:+ str_int a +:+ ")"] |}
              else
                {| consistent := false;
                   discrepancies :=
                     ["extra " +:+ str_int (a - t) +:+ " documents (checkpoint: "
                      +:+ str_int t +:+ ", db: " +:+ str_int a +:+ ")"] |})).
Proof.
  intros Hdb Hl Ht Hc. unfold verify_consistency.
  rewrite Hdb, (bind_inr _ _ _ _ _ Hl).
  assert (obj_truthy (ODict d) = true) as ->.
  { simpl. apply negb_true_iff, bool_decide_eq_false. intros ->.
    now rewrite lookup_empty in Ht. }
  simpl. rewrite (bind_inr _ _ _ _ _ Hc). unfold dict_get. rewrite Ht. simpl.
  destruct (a =? t); [reflexivity|]. unfold ret, discrepancy.
  destruct (t - a >? 0) eqn:E1, (t >? a) eqn:E2; try lia.
  - reflexivity.
  - replace (- (t - a)) with (a - t) by lia. reflexivity.
Qed.



(** X5. [validate_integrity] never raises. It reports "full" with no issue
    when there is no manager or the check is consistent, "partial" with the
    one discrepancy when it is not, and, when the check raises [e], failure
    with integrity "corrupt" and the single issue [str(e)]; the storage is
    left as the check left it. *)
Theorem validate_integrity_report {S} (self : CrashRecoveryHandler S) (s : S) :
  exists s' report,
    validate_integrity self s = (s', inr report)
    /\ match h_checkpoint_manager self with
       | None =>
           s' = s /\ report = {| ir_success := true; integrity := "full"; issues := [] |}
       | Some cm =>
           s' = fst (verify_consistency cm s)
           /\ match snd (verify_consistency cm s) with
              | inl e =>
                  report = {| ir_success := false; integrity := "corrupt";
                              issues := [exn_str e] |}
              | inr consistency =>
                  if consistent consistency then
                    report = {| ir_success := true; integrity := "full"; issues := [] |}
                  else
                    exists message,
                      discrepancies consistency = [message]
                      /\ report = {| ir_success := true; integrity := "partial";
                                     issues := [message] |}
              end
       end.
Proof.
  unfold validate_integrity. run.
  destruct (h_checkpoint_manager self) as [cm|]; [|eauto].
  destruct (verify_consistency cm s) as [s1 [e|consistency]] eqn:Hv; simpl; [eauto|].
  destruct (verify_consistency_shape cm s s1 consistency Hv) as [-> | (m & -> & _)];
    simpl; eauto 10.
Qed.

(** ** database.py: partial batches *)

Section DatabaseRows.
Import Database.

Lemma with_documents_same c : with_documents (documents c) c = c.
Proof. now destruct c. Qed.

Lemma filter_all {A} (P : A -> Prop) `{forall x, Decision (P x)} (l : list A) :
  (forall x, x ∈ l -> P x) -> filter P l = l.
Proof.
  induction l as [|a l IH]; intros Hall; [reflexivity|].
  rewrite filter_cons_True by (apply Hall; left).
  f_equal. apply IH. intros x Hx. apply Hall. now right.
Qed.

Lemma filter_iff_in {A} (P Q : A -> Prop) `{forall x, Decision (P x)}
    `{forall x, Decision (Q x)} (l : list A) :
  (forall x, x ∈ l -> P x <-> Q x) -> filter P l = filter Q l.
Proof.
  induction l as [|a l IH]; intros Hall; [reflexivity|].
  pose proof (Hall a ltac:(left)) as Ha.
  assert (filter P l = filter Q l) as Hl.
  { apply IH. intros x Hx. apply Hall. now right. }
  rewrite !filter_cons, Hl.
  destruct (decide (P a)), (decide (Q a)); tauto.
Qed.

Lemma discard_loop_filter last_id last_num (batches : list string) docs :
  discard_loop last_id last_num batches docs
  = filter (fun row => ~ (doc_batch_id row ∈ batches
                          /\ is_partial last_id last_num (doc_batch_id row) = true)) docs.
Proof.
  revert docs. induction batches as [|b rest IH]; intros docs; simpl.
  - symmetry. apply filter_all. intros row _ [Hin _]. inversion Hin.
  - rewrite IH. destruct (is_partial last_id last_num b) eqn:Hb.
    + unfold delete_batch. rewrite list_filter_filter. apply list_filter_iff.
      intros row. split.
      * intros [Hrest Hne] [Hin Hp]. apply elem_of_cons in Hin as [Heq | Hin]; tauto.
      * intros Hnot. split.
        -- intros [Hin Hp]. apply Hnot. split; [now right | assumption].
        -- intros Heq. apply Hnot. rewrite Heq. split; [left | assumption].
    + apply list_filter_iff. intros row. split.
      * intros Hrest [Hin Hp]. apply elem_of_cons in Hin as [Heq | Hin].
        -- rewrite Heq in Hp. congruence.
        -- tauto.
      * intros Hnot [Hin Hp]. apply Hnot. split; [now right | assumption].
Qed.

Lemma discard_loop_committed last_id last_num c :
  discard_loop last_id last_num (elements (doc_batches c)) (documents c)
  = committed_rows last_id last_num (documents c).
Proof.
  rewrite discard_loop_filter. unfold committed_rows.
  apply filter_iff_in. intros row Hrow. split.
  - intros Hnot. destruct (is_partial _ _ _) eqn:E; [|reflexivity].
    exfalso. apply Hnot. split; [|reflexivity]. apply elem_of_doc_batches. eauto.
  - intros Hf [_ Hp]. congruence.
Qed.

Lemma latest_row_last c :
  latest_row c
  = match last (checkpoints c) with
    | Some r => Some {[ "last_batch_id" := ck_last_batch_id r;
                        "total_persisted" := ck_total_persisted r;
                        "status" := ck_status r ]}
    | None => None
    end.
Proof. reflexivity. Qed.

Lemma discard_partial_batch_steps c :
  discard_partial_batch c =
  match last (checkpoints c) with
  | None => (with_documents [] c, inr tt)
  | Some r =>
      match last_batch_num (ck_last_batch_id r) with
      | inl e => (c, inl e)
      | inr last_num =>
          (with_documents
             (committed_rows (ck_last_batch_id r) last_num (documents c)) c, inr tt)
      end
  end.
Proof.
  unfold discard_partial_batch. run. rewrite latest_row_last.
  destruct (last (checkpoints c)) as [r|]; [|reflexivity].
  change (dict_get _ "last_batch_id" (VStr "")) with (ck_last_batch_id r).
  destruct (last_batch_num (ck_last_batch_id r)) as [e|n]; [reflexivity|].
  now rewrite discard_loop_committed.
Qed.

Lemma detected_is_partial last_id last_num b :
  detected last_id last_num b = true -> is_partial last_id last_num b = true.
Proof.
  unfold detected, is_partial.
  destruct (numeric_suffix (split_head "_partial" b)); congruence.
Qed.

Lemma beyond_checkpoint_detected last_id last_num (batches : list string) :
  beyond_checkpoint last_id last_num batches = true
  <-> exists b, b ∈ batches /\ detected last_id last_num b = true.
Proof.
  induction batches as [|b rest IH]; simpl.
  - split; [discriminate | intros (b & Hin & _); inversion Hin].
  - assert (beyond_checkpoint last_id last_num (b :: rest)
            = detected last_id last_num b || beyond_checkpoint last_id last_num rest)
      as Hstep.
    { simpl. unfold detected.
      destruct (numeric_suffix (split_head "_partial" b)) as [k| |]; [| |reflexivity].
      - now destruct (k >? last_num).
      - now destruct (bool_decide _). }
    simpl in Hstep. rewrite Hstep, orb_true_iff, IH. split.
    + intros [Hb | (b' & Hin & Hd)]; [exists b | exists b']; split; auto;
        [left | now right].
    + intros (b' & Hin & Hd). apply elem_of_cons in Hin as [-> | Hin]; eauto.
Qed.

Lemma has_partial_batch_steps c :
  has_partial_batch c =
  match last (checkpoints c) with
  | None => (c, inr (negb (bool_decide (documents c = []))))
  | Some r =>
      match last_batch_num (ck_last_batch_id r) with
      | inl e => (c, inl e)
      | inr last_num =>
          (c, inr (existsb (fun row => detected (ck_last_batch_id r) last_num
                                         (doc_batch_id row)) (documents c)))
      end
  end.
Proof.
  unfold has_partial_batch. run. rewrite latest_row_last.
  destruct (last (checkpoints c)) as [r|].
  - change (dict_get _ "last_batch_id" (VStr "")) with (ck_last_batch_id r).
    destruct (last_batch_num (ck_last_batch_id r)) as [e|n]; [reflexivity|].
    do 2 f_equal. apply eq_true_iff_eq.
    rewrite beyond_checkpoint_detected, existsb_exists. split.
    + intros (b & Hin & Hd). apply elem_of_doc_batches in Hin as (row & Hrow & <-).
      exists row. split; [now apply list_elem_of_In | assumption].
    + intros (row & Hrow & Hd). exists (doc_batch_id row). split; [|assumption].
      apply elem_of_doc_batches. exists row. split; [now apply list_elem_of_In | reflexivity].
  - do 2 f_equal. unfold doc_batches. destruct (documents c) as [|row docs]; [reflexivity|].
    rewrite bool_decide_eq_false_2 by discriminate. simpl.
    apply Nat.ltb_lt.
    match goal with |- (0 < ?n)%nat => assert (n <> 0)%nat; [|lia] end.
    apply size_non_empty_iff. intros Hempty.
    apply (not_elem_of_empty (C := gset string) (doc_batch_id row)).
    rewrite <- Hempty. apply elem_of_union_l, elem_of_singleton. reflexivity.
Qed.

Lemma prefix_cons a p c s :
  String.prefix (String a p) (String c s)
  = if ascii_dec a c then String.prefix p s else false.
Proof. reflexivity. Qed.

Lemma prefix_partial_other c s :
  Ascii.eqb c "_" = false -> String.prefix "_partial" (String c s) = false.
Proof.
  intros Hc. rewrite prefix_cons.
  destruct (ascii_dec "_" c) as [<-|]; [discriminate Hc | reflexivity].
Qed.

Lemma split_head_no_underscore s rest :
  no_sep "_" s = true ->
  split_head "_partial" (s +:+ rest) = s +:+ split_head "_partial" rest.
Proof.
  unfold no_sep. induction s as [|c s IH]; [reflexivity|].
  intros [Hc Hs]%andb_true_iff. apply negb_true_iff in Hc.
  change (String c s +:+ rest) with (String c (s +:+ rest)).
  cbn [split_head]. rewrite (prefix_partial_other c _ Hc), (IH Hs). reflexivity.
Qed.

Lemma app_empty_r (s : string) : s +:+ "" = s.
Proof.
  induction s as [|c s IH]; [reflexivity|].
  change (String c (s +:+ "") = String c s). now rewrite IH.
Qed.

Lemma app_assoc_string (a b c : string) : (a +:+ b) +:+ c = a +:+ b +:+ c.
Proof.
  induction a as [|x a IH]; [reflexivity|].
  change (String x ((a +:+ b) +:+ c) = String x (a +:+ b +:+ c)). now rewrite IH.
Qed.

(** The identifiers [has_partial_batch] and [discard_partial_batch] number:
    a conforming identifier, alone or followed by "_partial" and anything. *)
Lemma split_head_conforming x prefix digits :
  conforming x prefix digits ->
  split_head "_partial" x = x
  /\ forall tail, split_head "_partial" (x +:+ "_partial" +:+ tail) = x.
Proof.
  intros (-> & Hp & Hne & Hd).
  assert (forall rest, split_head "_partial" ((prefix +:+ "_" +:+ digits) +:+ rest)
                       = prefix +:+ "_" +:+ digits +:+ split_head "_partial" rest) as Hcut.
  { intros rest. rewrite app_assoc_string, (split_head_no_underscore _ _ Hp). f_equal.
    destruct digits as [|d digits]; [congruence|]. simpl in Hd.
    apply andb_true_iff in Hd as [Hd0 Hd].
    change (("_" +:+ String d digits) +:+ rest)
      with (String "_" (String d (digits +:+ rest))).
    cbn [split_head].
    assert (String.prefix "_partial" (String "_" (String d (digits +:+ rest))) = false)
      as ->.
    { rewrite prefix_cons. destruct (ascii_dec "_" "_") as [_|]; [|congruence].
      rewrite prefix_cons.
      destruct (ascii_dec "p" d) as [<-|]; [discriminate Hd0 | reflexivity]. }
    rewrite (prefix_partial_other d _ (decimal_not_underscore d Hd0)).
    rewrite (split_head_no_underscore _ _ (all_decimal_no_underscore _ Hd)).
    reflexivity. }
  split.
  - rewrite <- (app_empty_r (prefix +:+ "_" +:+ digits)) at 1.
    rewrite Hcut. simpl. now rewrite !app_empty_r.
  - intros tail. rewrite Hcut.
    assert (split_head "_partial" ("_partial" +:+ tail) = "") as ->.
    { simpl. now destruct tail. }
    now rewrite !app_empty_r.
Qed.

(** X6. [discard_partial_batch] never touches the checkpoint table. With
    no checkpoint it deletes every document. Otherwise it keeps, in order,
    exactly the rows whose batch is not beyond the latest checkpoint: the
    batch identifier, cut at "_partial", is numbered no greater than the
    checkpoint's, or it is not numbered and is the checkpointed identifier.
    When the stored [last_batch_id] is not a string it raises and deletes
    nothing. *)
Theorem discard_partial_batch_filter c :
  discard_partial_batch c =
  match last (checkpoints c) with
  | None => ({| documents := []; checkpoints := checkpoints c |}, inr tt)
  | Some r =>
      match last_batch_num (ck_last_batch_id r) with
      | inl e => (c, inl e)
      | inr last_num =>
          ({| documents :=
                filter (fun row =>
                          Is_true
                            match numeric_suffix
                                    (split_head "_partial" (doc_batch_id row)) with
                            | Numbered batch_num => batch_num <=? last_num
                            | IntRaises | Unnumbered =>
                                bool_decide (VStr (doc_batch_id row) = ck_last_batch_id r)
                            end) (documents c);
              checkpoints := checkpoints c |}, inr tt)
      end
  end.
Proof.
  rewrite discard_partial_batch_steps.
  destruct (last (checkpoints c)) as [r|]; [|reflexivity].
  destruct (last_batch_num (ck_last_batch_id r)) as [e|n]; [reflexivity|].
  unfold with_documents, committed_rows. do 2 f_equal.
  apply list_filter_iff. intros row. unfold is_partial.
  destruct (numeric_suffix (split_head "_partial" (doc_batch_id row))) as [k| |].
  - rewrite Z.gtb_ltb, Z.ltb_ge, Is_true_true, Z.leb_le. reflexivity.
  - rewrite bool_decide_eq_false, Is_true_true, bool_decide_eq_true.
    split; [apply dec_stable | tauto].
  - rewrite bool_decide_eq_false, Is_true_true, bool_decide_eq_true.
    split; [apply dec_stable | tauto].
Qed.



(** X8. With a checkpoint stored, [has_partial_batch] is True iff some
    stored row's batch identifier, cut at "_partial", is numbered beyond the
    checkpoint's number, or has a suffix that [isdigit] accepts and [int]
    rejects and is not the checkpointed identifier. When it is True,
    [discard_partial_batch] deletes at least one row. A row whose batch
    identifier is of neither form and is not the checkpointed one is not
    detected, yet [discard_partial_batch] deletes it. *)
Theorem has_partial_batch_rows c r last_num :
  last (checkpoints c) = Some r ->
  last_batch_num (ck_last_batch_id r) = inr last_num ->
  exists partial,
    has_partial_batch c = (c, inr partial)
    /\ (partial = true <->
        exists row,
          row ∈ documents c
          /\ match numeric_suffix (split_head "_partial" (doc_batch_id row)) with
             | Numbered batch_num => last_num < batch_num
             | IntRaises => VStr (doc_batch_id row) <> ck_last_batch_id r
             | Unnumbered => False
             end)
    /\ (partial = true ->
        (length (documents (fst (discard_partial_batch c))) < length (documents c))%nat)
    /\ forall row,
         row ∈ documents c ->
         numeric_suffix (split_head "_partial" (doc_batch_id row)) = Unnumbered ->
         VStr (doc_batch_id row) <> ck_last_batch_id r ->
         row ∉ documents (fst (discard_partial_batch c)).
Proof.
  intros Hlast Hnum.
  rewrite has_partial_batch_steps, discard_partial_batch_steps, Hlast, Hnum.
  eexists. split; [reflexivity|]. simpl. unfold committed_rows.
  assert (forall row,
            detected (ck_last_batch_id r) last_num (doc_batch_id row) = true
            <-> match numeric_suffix (split_head "_partial" (doc_batch_id row)) with
                | Numbered batch_num => last_num < batch_num
                | IntRaises => VStr (doc_batch_id row) <> ck_last_batch_id r
                | Unnumbered => False
                end) as Hdetected.
  { intros row. unfold detected.
    destruct (numeric_suffix (split_head "_partial" (doc_batch_id row))) as [k| |].
    - rewrite Z.gtb_ltb, Z.ltb_lt. reflexivity.
    - apply bool_decide_eq_true.
    - split; [discriminate | tauto]. }
  split; [|split].
  - rewrite existsb_exists. split.
    + intros (row & Hrow & Hd). exists row.
      split; [now apply list_elem_of_In | now apply Hdetected].
    + intros (row & Hrow & Hd). exists row.
      split; [now apply list_elem_of_In | now apply Hdetected].
  - intros (row & Hrow & Hd)%existsb_exists. apply list_elem_of_In in Hrow.
    apply (length_filter_lt _ _ row Hrow).
    rewrite (detected_is_partial _ _ _ Hd). discriminate.
  - intros row Hrow Hun Hne [Hkept _]%list_elem_of_filter.
    unfold is_partial in Hkept. rewrite Hun in Hkept.
    now apply bool_decide_eq_false in Hkept.
Qed.

Lemma has_partial_batch_rows_witness :
  let c := {| documents := [{| doc_id := VStr "d1"; doc_content := VStr "text";
                               doc_batch_id := "notes" |}];
              checkpoints := [{| ck_last_batch_id := VStr "batch_005";
                                 ck_total_persisted := VInt 1;
                                 ck_status := VStr "committed" |}] |} in
  exists partial,
    has_partial_batch c = (c, inr partial)
    /\ forall row, row ∈ documents c -> row ∉ documents (fst (discard_partial_batch c)).
Proof.
  intros c.
  destruct (has_partial_batch_rows c
              {| ck_last_batch_id := VStr "batch_005"; ck_total_persisted := VInt 1;
                 ck_status := VStr "committed" |} 5 eq_refl eq_refl)
    as (partial & Hp & _ & _ & Hdeleted).
  exists partial. split; [exact Hp|].
  intros row Hrow. apply Hdeleted; [exact Hrow | |].
  - apply elem_of_cons in Hrow as [-> | Hrow]; [reflexivity | inversion Hrow].
  - apply elem_of_cons in Hrow as [-> | Hrow]; [discriminate | inversion Hrow].
Defined.

Lemma last_batch_num_conforming last_batch_id last_num :
  last_batch_num last_batch_id = inr last_num ->
  (forall last_id prefix digits,
     last_batch_id = VStr last_id -> conforming last_id prefix digits ->
     within_limit digits -> int digits = Some last_num)
  /\ ((forall last_id prefix digits,
         last_batch_id = VStr last_id -> conforming last_id prefix digits ->
         ~ within_limit digits) ->
      last_num = 0).
Proof.
  destruct last_batch_id as [| | |s]; try discriminate. simpl. intros Hnum. split.
  - intros last_id prefix digits [= <-] Hc Hlen.
    destruct (numeric_suffix_conforming s prefix digits Hc Hlen) as (k & Hk & Hs).
    rewrite Hs in Hnum. congruence.
  - intros Hnone. destruct (numeric_suffix s) as [k| |] eqn:Hs; [|congruence..].
    destruct (numeric_suffix_Numbered s k Hs) as (prefix & digits & Hc & Hlen & _).
    destruct (Hnone s prefix digits eq_refl Hc Hlen).
Qed.

(** X9. [discard_partial_batch] by batch number, for identifiers made of
    characters below U+0100. The number it compares with is that of the
    checkpointed identifier when it has the form prefix_digits with at most
    4300 digits, and 0 when it has not. A row whose batch identifier has
    that form with number [k], alone or followed by "_partial", is kept iff
    [k] is no greater: committed batches up to the checkpoint survive, later
    ones are deleted, and with a checkpointed identifier of another form
    every batch numbered 1 or more is deleted. A row whose run of digits is
    longer than 4300 is kept iff its identifier is the checkpointed one. *)
Theorem discard_partial_batch_numbered c r last_num :
  last (checkpoints c) = Some r ->
  last_batch_num (ck_last_batch_id r) = inr last_num ->
  (forall last_id prefix digits,
     ck_last_batch_id r = VStr last_id -> conforming last_id prefix digits ->
     within_limit digits -> int digits = Some last_num)
  /\ ((forall last_id prefix digits,
         ck_last_batch_id r = VStr last_id -> conforming last_id prefix digits ->
         ~ within_limit digits) ->
      last_num = 0)
  /\ forall row x prefix digits,
       row ∈ documents c ->
       conforming x prefix digits ->
       doc_batch_id row = x
       \/ (exists tail, doc_batch_id row = x +:+ "_partial" +:+ tail) ->
       (forall k, int digits = Some k ->
                  (row ∈ documents (fst (discard_partial_batch c)) <-> k <= last_num))
       /\ (~ within_limit digits ->
           (row ∈ documents (fst (discard_partial_batch c))
            <-> VStr (doc_batch_id row) = ck_last_batch_id r)).
Proof.
  intros Hlast Hnum.
  destruct (last_batch_num_conforming _ _ Hnum) as [Hsame Hzero].
  split; [exact Hsame|]. split; [exact Hzero|].
  intros row x prefix digits Hrow Hx Hid.
  rewrite discard_partial_batch_steps, Hlast, Hnum. simpl. unfold committed_rows.
  assert (split_head "_partial" (doc_batch_id row) = x) as Hcut.
  { destruct (split_head_conforming x prefix digits Hx) as [Hkeep Hcut].
    destruct Hid as [-> | [tail ->]]; auto. }
  split.
  - intros k Hk. rewrite list_elem_of_filter. unfold is_partial. rewrite Hcut.
    assert (Hlen : within_limit digits).
    { apply (proj2 (int_decimal digits)). eauto. }
    destruct (numeric_suffix_conforming x prefix digits Hx Hlen) as (k' & Hk' & ->).
    assert (k' = k) as -> by congruence.
    rewrite Z.gtb_ltb, Z.ltb_ge. tauto.
  - intros Hlen. rewrite list_elem_of_filter. unfold is_partial.
    rewrite Hcut, (numeric_suffix_beyond x prefix digits Hx Hlen).
    rewrite bool_decide_eq_false. split; [intros [H _]; now apply dec_stable | tauto].
Qed.

Lemma discard_partial_batch_numbered_witness :
  let row b := {| doc_id := VStr b; doc_content := VStr "text"; doc_batch_id := b |} in
  let c := {| documents := [row "batch_004"; row "batch_006_partial"];
              checkpoints := [{| ck_last_batch_id := VStr "batch_005";
                                 ck_total_persisted := VInt 1;
                                 ck_status := VStr "committed" |}] |} in
  row "batch_004" ∈ documents (fst (discard_partial_batch c))
  /\ row "batch_006_partial" ∉ documents (fst (discard_partial_batch c)).
Proof.
  intros row c.
  pose proof (proj2 (proj2 (discard_partial_batch_numbered c
                              {| ck_last_batch_id := VStr "batch_005";
                                 ck_total_persisted := VInt 1;
                                 ck_status := VStr "committed" |} 5 eq_refl eq_refl)))
    as Hkept.
  split.
  - apply (proj1 (Hkept (row "batch_004") "batch_004" "batch" "004"
                    ltac:(left) ltac:(repeat split; discriminate) ltac:(now left))
             4 eq_refl).
    lia.
  - intros Hin.
    apply (proj1 (Hkept (row "batch_006_partial") "batch_006" "batch" "006"
                    ltac:(right; left) ltac:(repeat split; discriminate)
                    ltac:(right; now exists ""))
             6 eq_refl) in Hin.
    lia.
Defined.

(** ** database.py: insert_documents *)

Lemma mock_documents_text (ids : list string) : text_documents (Mock.doc <$> ids).
Proof.
  intros doc (i & -> & _)%list_elem_of_fmap. split; [|split].
  - now exists i.
  - now exists (VStr "text").
  - intros key z. unfold Mock.doc.
    intros [[_ H] | [_ H]]%lookup_insert_Some; [discriminate|].
    apply lookup_singleton_Some in H as [_ H]. discriminate.
Qed.

Lemma text_documents_storable documents : text_documents documents -> storable documents.
Proof.
  intros Htext doc Hdoc. destruct (Htext doc Hdoc) as ([i Hi] & _ & Hfit).
  split; [|exact Hfit]. intros id Hid. right. exists i. congruence.
Qed.

Lemma insert_row_steps doc batch_id c :
  insert_row doc batch_id c =
  match doc !! "id", doc !! "content" with
  | None, _ => (c, inl (Exn KeyError "'id'"))
  | Some _, None => (c, inl (Exn KeyError "'content'"))
  | Some id, Some content =>
      if bool_decide (content = VNone) then
        (c, inl (Exn IntegrityError "NOT NULL constraint failed: documents.content"))
      else if bool_decide (id ≠ VNone ∧ id ∈ doc_id <$> documents c) then
        (c, inl (Exn IntegrityError "UNIQUE constraint failed: documents.id"))
      else
        (with_documents (documents c ++ [row_of batch_id doc])%list c, inr tt)
  end.
Proof.
  unfold insert_row, row_of, dict_get.
  destruct (doc !! "id") as [id|], (doc !! "content") as [content|]; try reflexivity.
  run. destruct (bool_decide (content = VNone)); [reflexivity|].
  now destruct (bool_decide _).
Qed.

Lemma insert_documents_cons doc rest batch_id c :
  insert_documents (doc :: rest) batch_id c =
  match insert_row doc batch_id c with
  | (c1, inl e) => (c1, inl e)
  | (c1, inr _) => insert_documents rest batch_id c1
  end.
Proof. simpl. unfold bind. now destruct (insert_row doc batch_id c) as [c1 [e|[]]]. Qed.

Lemma insert_row_outcome doc batch_id c :
  insert_row doc batch_id c
  = (with_documents (documents c ++ [row_of batch_id doc])%list c, inr tt)
  \/ exists e,
       insert_row doc batch_id c = (c, inl e)
       /\ (exn_cls e = KeyError \/ exn_cls e = IntegrityError).
Proof.
  rewrite insert_row_steps.
  destruct (doc !! "id") as [id|]; [|eauto].
  destruct (doc !! "content") as [content|]; [|eauto].
  repeat case_bool_decide; eauto.
Qed.

Lemma insert_documents_rows docs batch_id c :
  exists k,
    fst (insert_documents docs batch_id c)
    = {| documents := (documents c ++ (row_of batch_id <$> take k docs))%list;
         checkpoints := checkpoints c |}
    /\ match snd (insert_documents docs batch_id c) with
       | inr _ => k = length docs
       | inl e =>
           (k < length docs)%nat /\ (exn_cls e = KeyError \/ exn_cls e = IntegrityError)
       end.
Proof.
  revert c. induction docs as [|doc rest IH]; intros c.
  - exists 0%nat. simpl. rewrite app_nil_r. now destruct c.
  - rewrite insert_documents_cons.
    destruct (insert_row_outcome doc batch_id c) as [-> | (e & -> & He)].
    + destruct (IH (with_documents (documents c ++ [row_of batch_id doc])%list c))
        as (k & Hstate & Hresult).
      exists (S k). split.
      * rewrite Hstate. simpl. now rewrite <- app_assoc.
      * destruct (snd (insert_documents rest batch_id _)) as [e|[]]; simpl.
        -- destruct Hresult. split; [lia | assumption].
        -- lia.
    + exists 0%nat. simpl. rewrite app_nil_r.
      split; [now destruct c | split; [lia | exact He]].
Qed.



Lemma insert_documents_unique docs batch_id c :
  text_documents docs ->
  (snd (insert_documents docs batch_id c) = inr tt
   <-> NoDup (document_ids docs)
       /\ forall id, id ∈ document_ids docs -> id ∉ doc_id <$> documents c)
  /\ forall e,
       snd (insert_documents docs batch_id c) = inl e ->
       e = Exn IntegrityError "UNIQUE constraint failed: documents.id".
Proof.
  revert c. induction docs as [|doc rest IH]; intros c Htext.
  - simpl. split; [|discriminate]. split; [|reflexivity].
    intros _. split; [constructor | intros id Hid; inversion Hid].
  - destruct (Htext doc ltac:(left)) as ([i Hi] & (content & Hcontent & Hne) & _).
    assert (text_documents rest) as Hrest.
    { intros d Hd. apply Htext. now right. }
    rewrite insert_documents_cons, insert_row_steps, Hi, Hcontent.
    rewrite (bool_decide_eq_false_2 _ Hne).
    unfold document_ids. rewrite fmap_cons. unfold dict_get at 1 3. rewrite Hi.
    fold (document_ids rest).
    case_bool_decide as Hdup.
    + simpl. split; [|now intros e [= <-]]. split; [discriminate|].
      intros [_ Hfresh]. exfalso. apply (Hfresh (VStr i)); [left | apply Hdup].
    + specialize (IH (with_documents (documents c ++ [row_of batch_id doc])%list c) Hrest).
      destruct IH as [IHiff IHerr]. split; [|exact IHerr].
      rewrite IHiff. simpl. rewrite fmap_app. simpl.
      unfold dict_get. rewrite Hi. rewrite NoDup_cons. split.
      * intros [Hnodup Hfresh]. split; [split; [|exact Hnodup]|].
        -- intros Hin. apply (Hfresh _ Hin). apply elem_of_app. right. left.
        -- intros id [-> | Hin]%elem_of_cons.
           ++ intros Hstored. apply Hdup. split; [discriminate | exact Hstored].
           ++ intros Hstored. apply (Hfresh _ Hin). apply elem_of_app. now left.
      * intros [[Hnotin Hnodup] Hfresh]. split; [exact Hnodup|].
        intros id Hin [Hstored | Hnew]%elem_of_app.
        -- apply (Hfresh id); [now right | exact Hstored].
        -- apply elem_of_cons in Hnew as [-> | Hnil]; [tauto | inversion Hnil].
Qed.

(** X11. For storable documents that pass the validation of
    [process_batch], [insert_documents] returns iff the identifiers are
    pairwise distinct and none is stored already; otherwise it raises the
    [IntegrityError] of the primary key. *)
Theorem insert_documents_fresh docs batch_id c :
  text_documents docs ->
  (snd (insert_documents docs batch_id c) = inr tt
   <-> NoDup (document_ids docs)
       /\ forall id, id ∈ document_ids docs -> id ∉ doc_id <$> documents c)
  /\ forall e,
       snd (insert_documents docs batch_id c) = inl e ->
       e = Exn IntegrityError "UNIQUE constraint failed: documents.id".
Proof. exact (insert_documents_unique docs batch_id c). Qed.

Lemma insert_documents_fresh_witness :
  snd (insert_documents [Mock.doc "a"; Mock.doc "b"] "batch_001" empty) = inr tt
  <-> NoDup (document_ids [Mock.doc "a"; Mock.doc "b"])
      /\ forall id, id ∈ document_ids [Mock.doc "a"; Mock.doc "b"] ->
                    id ∉ doc_id <$> documents empty.
Proof.
  exact (proj1 (insert_documents_fresh [Mock.doc "a"; Mock.doc "b"] "batch_001" empty
                  (mock_documents_text ["a"; "b"]))).
Defined.

End DatabaseRows.

(** ** A writer and its manager on the database *)

Section DatabaseSessions.
Context (os : OS Database.conn).

Lemma get_latest_checkpoint_database c :
  Database.get_latest_checkpoint c
  = (c, inr match last (Database.checkpoints c) with
            | Some r => ODict {[ "last_batch_id" := Database.ck_last_batch_id r;
                                 "total_persisted" := Database.ck_total_persisted r;
                                 "status" := Database.ck_status r ]}
            | None => OScalar VNone
            end).
Proof.
  unfold Database.get_latest_checkpoint, Database.latest_row. run.
  now destruct (last (Database.checkpoints c)).
Qed.

Lemma cumulative_count_database cm c n :
  in_step cm c -> cumulative_count cm n c = (c, inr (n + stored_base c)).
Proof.
  intros (Hdb & _ & Hmem). unfold cumulative_count, stored_base.
  destruct (last (_checkpoints cm)) as [ck|].
  - now rewrite (Hmem ck eq_refl).
  - rewrite Hdb. simpl. unfold bind. rewrite get_latest_checkpoint_database.
    destruct (last (Database.checkpoints c)) as [r|];
      [|simpl; unfold ret; now rewrite Z.add_0_r].
    change (obj_truthy (ODict _)) with true. cbv iota.
    change (dict_get _ "total_persisted" (VInt 0)) with (Database.ck_total_persisted r).
    destruct (Database.ck_total_persisted r); unfold ret; rewrite ?Z.add_0_r;
      reflexivity.
Qed.

Lemma update_checkpoint_database cm c batch_id n metadata verify :
  in_step cm c -> 0 <= n ->
  let ck := {| last_batch_id := batch_id; total_persisted := n + stored_base c;
               status := "committed";
               db_count_matches :=
                 verify && (Z.of_nat (length (Database.documents c))
                            =? n + stored_base c) |} in
  update_checkpoint os batch_id n metadata verify (cm, c)
  = ((append_checkpoint ck cm,
      {| Database.documents := Database.documents c;
         Database.checkpoints := (Database.checkpoints c ++ [checkpoint_row_of ck])%list |}),
     inr ck).
Proof.
  intros Hstep Hn ck. rewrite (update_checkpoint_steps os _ _ _ _ _ _ Hn).
  unfold new_checkpoint, bind. rewrite (cumulative_count_database _ _ _ Hstep).
  destruct Hstep as (Hdb & Hfile & _). rewrite Hdb.
  subst ck. destruct verify; simpl; unfold persist, _write_checkpoint_file;
    rewrite Hdb, Hfile; reflexivity.
Qed.

Lemma process_batch_database w cm c documents batch_id :
  w_db w = Some Database.storage ->
  w_checkpoint_manager w = Some cm ->
  in_step cm c ->
  rejected w documents batch_id = None ->
  process_batch os documents batch_id (w, c) =
  match Database.insert_documents documents batch_id c with
  | (c1, inl e) =>
      ((w, c1), inr {| success := false; persisted_count := 0; batch_id := batch_id;
                       checkpoint_updated := false; error := Some (exn_str e) |})
  | (c1, inr _) =>
      let ck := {| last_batch_id := batch_id;
                   total_persisted := Z.of_nat (length documents) + stored_base c;
                   status := "committed"; db_count_matches := false |} in
      ((add_processed batch_id (with_manager (append_checkpoint ck cm) w),
        {| Database.documents := Database.documents c1;
           Database.checkpoints :=
             (Database.checkpoints c ++ [checkpoint_row_of ck])%list |}),
       inr {| success := true; persisted_count := Z.of_nat (length documents);
              batch_id := batch_id; checkpoint_updated := true; error := None |})
  end.
Proof.
  intros Hw Hcm Hstep Hr. unfold rejected in Hr. unfold process_batch. run.
  repeat case_bool_decide; try discriminate. rewrite Hr, Hw. simpl.
  pose proof (insert_documents_checkpoints documents batch_id c) as Hsame.
  destruct (Database.insert_documents documents batch_id c) as [c1 [e|[]]];
    [reflexivity|]. simpl in Hsame.
  assert (in_step cm c1) as Hstep1.
  { destruct Hstep as (? & ? & Hmem). repeat split; try assumption.
    intros ck Hck. rewrite Hsame. now apply Hmem. }
  unfold on_manager. rewrite Hcm.
  rewrite (update_checkpoint_database cm c1 batch_id (Z.of_nat (length documents))
             None false Hstep1 (Zle_0_nat _)).
  unfold stored_base. rewrite Hsame. reflexivity.
Qed.

Lemma session_total_snoc log batch_id n :
  session_total (log ++ [(batch_id, n)]) = session_total log + n.
Proof.
  unfold session_total. rewrite fmap_app, foldr_app. simpl.
  induction (snd <$> log) as [|k l IH]; simpl; lia.
Qed.

Lemma session_checkpoints_snoc base log batch_id n :
  session_checkpoints base (log ++ [(batch_id, n)])
  = (session_checkpoints base log
     ++ [{| last_batch_id := batch_id; total_persisted := base + session_total log + n;
            status := "committed"; db_count_matches := false |}])%list.
Proof.
  revert base. induction log as [|[b k] log IH]; intros base; simpl.
  - unfold session_total. simpl. now rewrite Z.add_0_r.
  - rewrite IH. unfold session_total. rewrite fmap_cons. simpl. do 4 f_equal. lia.
Qed.

Lemma session_checkpoints_last base log :
  match last (session_checkpoints base log), last log with
  | Some ck, Some (batch_id, _) =>
      last_batch_id ck = batch_id /\ total_persisted ck = base + session_total log
  | None, None => True
  | _, _ => False
  end.
Proof.
  destruct log as [|entry log] using rev_ind; [exact I|].
  destruct entry as [b n].
  rewrite session_checkpoints_snoc, !last_snoc, session_total_snoc. simpl.
  split; [reflexivity | lia].
Qed.

Lemma session_total_nonneg log : Forall (fun entry => 0 <= snd entry) log -> 0 <= session_total log.
Proof.
  unfold session_total. induction 1 as [|[b n] log Hn _ IH]; [reflexivity|].
  rewrite fmap_cons. simpl in *. lia.
Qed.

(** The store after a session: the checkpoint table grew by the rows of the
    manager's checkpoints, which hold the running totals. *)
Lemma database_session_state size c0 st log :
  database_session os size c0 st log ->
  w_db (fst st) = Some Database.storage
  /\ Forall (fun entry => 0 <= snd entry) log
  /\ exists cm added,
       w_checkpoint_manager (fst st) = Some cm
       /\ cm_db cm = Some Database.storage
       /\ checkpoint_file cm = None
       /\ _checkpoints cm = session_checkpoints (stored_base c0) log
       /\ Database.checkpoints (snd st)
          = (Database.checkpoints c0 ++ (checkpoint_row_of <$> _checkpoints cm))%list
       /\ Database.documents (snd st) = (Database.documents c0 ++ added)%list
       /\ session_total log <= Z.of_nat (length added)
       /\ _processed_batch_ids (fst st) = list_to_set (fst <$> log).
Proof.
  induction 1 as [|[w c] log documents batch_id Hsession IH].
  - simpl. split; [reflexivity|]. split; [constructor|].
    exists (CheckpointManager_init (Some Database.storage) None), [].
    simpl. rewrite !app_nil_r. repeat split; reflexivity.
  - destruct IH as (Hw & Hlog & cm & added & Hcm & Hdb & Hfile & Hmem & Hrows & Hdocs
                    & Htotal & Hids).
    simpl in *.
    assert (stored_base c = stored_base c0 + session_total log) as Hbase.
    { unfold stored_base. rewrite Hrows, last_app, fmap_last, Hmem.
      pose proof (session_checkpoints_last (stored_base c0) log) as Hlast.
      destruct (last (session_checkpoints (stored_base c0) log)) as [ck|],
        (last log) as [[b n]|] eqn:Elog; try contradiction; simpl.
      - apply Hlast.
      - apply last_None in Elog. subst log. unfold session_total, stored_base. simpl. lia. }
    assert (in_step cm c) as Hstep.
    { repeat split; try assumption. intros ck Hck.
      now rewrite Hrows, last_app, fmap_last, Hck. }
    destruct (rejected w documents batch_id) as [e|] eqn:Hr.
    { rewrite (process_batch_rejected os _ _ _ _ _ Hr). simpl.
      split; [assumption|]. split; [assumption|]. exists cm, added. auto 10. }
    rewrite (process_batch_database w cm c documents batch_id Hw Hcm Hstep Hr).
    destruct (insert_documents_rows documents batch_id c) as (k & Hstate & Hresult).
    destruct (Database.insert_documents documents batch_id c) as [c1 [e|[]]];
      simpl in *; subst c1.
    + split; [assumption|]. split; [assumption|].
      exists cm, (added ++ (row_of batch_id <$> take k documents))%list. simpl.
      rewrite Hdocs, app_assoc, length_app. repeat split; try assumption. lia.
    + split; [assumption|]. split.
      { apply Forall_app. split; [assumption|]. repeat constructor. simpl. lia. }
      eexists _, (added ++ (row_of batch_id <$> take k documents))%list. simpl.
      split; [reflexivity|]. simpl.
      rewrite Hmem, session_checkpoints_snoc, Hbase, Hrows, Hmem, Hdocs, Hids.
      rewrite !fmap_app, !app_assoc, session_total_snoc, length_app, length_fmap.
      subst k. rewrite firstn_all. simpl.
      repeat split; try assumption.
      * do 3 f_equal. lia.
      * lia.
      * rewrite list_to_set_snoc_L. apply union_comm_L.
Qed.

Lemma session_checkpoints_lookup base log i ck :
  session_checkpoints base log !! i = Some ck ->
  exists batch_id count,
    log !! i = Some (batch_id, count)
    /\ last_batch_id ck = batch_id
    /\ total_persisted ck = base + session_total (take (S i) log).
Proof.
  revert base i. induction log as [|[b n] log IH]; intros base i; [discriminate|].
  destruct i as [|i]; simpl.
  - intros [= <-]. exists b, n. unfold session_total. simpl.
    destruct log; simpl; repeat split; lia.
  - intros Hck. destruct (IH _ _ Hck) as (b' & n' & Hlog & Hid & Htotal).
    exists b', n'. repeat split; try assumption.
    rewrite Htotal. unfold session_total.
    change (take (S (S i)) ((b, n) :: log)) with ((b, n) :: take (S i) log).
    rewrite fmap_cons. simpl. lia.
Qed.

(** X12. A session of [process_batch] calls with storable batches on the
    database of [database.py], from a fresh writer and manager without
    checkpoint file:
    the manager holds one checkpoint per successful call, in order, with that
    call's batch identifier and the stored cumulative count the session found
    plus the sum of the [persisted_count]s of the successful calls so far; the
    checkpoint table grew by exactly these checkpoints; a call that failed
    left none; and the processed identifiers are those of the successful
    calls. *)
Theorem database_session_totals size c0 st log :
  database_session os size c0 st log ->
  exists cm,
    w_checkpoint_manager (fst st) = Some cm
    /\ length (_checkpoints cm) = length log
    /\ (forall i ck,
          _checkpoints cm !! i = Some ck ->
          exists batch_id count,
            log !! i = Some (batch_id, count)
            /\ last_batch_id ck = batch_id
            /\ total_persisted ck = stored_base c0 + session_total (take (S i) log))
    /\ Database.checkpoints (snd st)
       = (Database.checkpoints c0 ++ (checkpoint_row_of <$> _checkpoints cm))%list
    /\ _processed_batch_ids (fst st) = list_to_set (fst <$> log).
Proof.
  intros Hsession.
  destruct (database_session_state size c0 st log Hsession)
    as (_ & _ & cm & added & Hcm & _ & _ & Hmem & Hrows & _ & _ & Hids).
  exists cm. repeat split; try assumption.
  - rewrite Hmem. clear. generalize (stored_base c0).
    induction log as [|[b n] log IH]; intros base; simpl; [reflexivity|].
    now rewrite IH.
  - intros i ck. rewrite Hmem. apply session_checkpoints_lookup.
Qed.

Lemma stored_within_base c :
  stored_within c -> stored_base c <= Z.of_nat (length (Database.documents c)).
Proof.
  unfold stored_within, stored_base.
  destruct (last (Database.checkpoints c)) as [row|]; [|lia].
  now intros (t & -> & Ht).
Qed.

Lemma database_session_stored size c0 st log :
  database_session os size c0 st log ->
  stored_within c0 ->
  stored_within (snd st).
Proof.
  intros Hsession Hwithin.
  destruct (database_session_state size c0 st log Hsession)
    as (_ & Hlog & cm & added & _ & _ & _ & Hmem & Hrows & Hdocs & Htotal & _).
  pose proof (stored_within_base c0 Hwithin) as Hbase.
  unfold stored_within in *. rewrite Hrows, last_app, fmap_last, Hmem, Hdocs, length_app.
  pose proof (session_checkpoints_last (stored_base c0) log) as Hlast.
  destruct (last (session_checkpoints (stored_base c0) log)) as [ck|]; simpl.
  - destruct (last log) as [[b n]|]; [|contradiction].
    exists (total_persisted ck). split; [reflexivity|]. lia.
  - destruct (last (Database.checkpoints c0)) as [row|]; [|exact I].
    destruct Hwithin as (t & Ht & Hle). exists t. split; [assumption | lia].
Qed.

(** X13. In such a session, over a store whose latest checkpoint counts no
    more documents than are stored, the latest checkpoint never counts more
    documents than are stored, and [verify_consistency] never reports
    missing documents: it reports consistency, or the extra documents that
    failed inserts left behind. *)
Theorem database_session_within size c0 st log :
  database_session os size c0 st log ->
  stored_within c0 ->
  stored_within (snd st)
  /\ exists cm report,
       w_checkpoint_manager (fst st) = Some cm
       /\ verify_consistency cm (snd st) = (snd st, inr report)
       /\ forall message,
            message ∈ discrepancies report -> startswith "extra " message = true.
Proof.
  intros Hsession Hwithin.
  pose proof (database_session_stored size c0 st log Hsession Hwithin) as Hstored.
  split; [exact Hstored|].
  destruct (database_session_state size c0 st log Hsession)
    as (_ & _ & cm & added & Hcm & Hdb & _).
  exists cm. unfold stored_within in Hstored.
  destruct (last (Database.checkpoints (snd st))) as [row|] eqn:Hlast.
  - destruct Hstored as (t & Ht & Hle).
    eexists. split; [exact Hcm|]. split.
    + apply (verify_consistency_counts cm (snd st) Database.storage (snd st) (snd st)
               {[ "last_batch_id" := Database.ck_last_batch_id row;
                  "total_persisted" := Database.ck_total_persisted row;
                  "status" := Database.ck_status row ]} t
               (Z.of_nat (length (Database.documents (snd st)))) Hdb).
      * simpl. now rewrite get_latest_checkpoint_database, Hlast.
      * rewrite <- Ht. reflexivity.
      * reflexivity.
    + intros message.
      destruct (Z.of_nat (length (Database.documents (snd st))) =? t) eqn:Heq;
        [intros Hin; inversion Hin|].
      destruct (t >? Z.of_nat (length (Database.documents (snd st)))) eqn:Hgt; [lia|].
      intros ->%list_elem_of_singleton. apply startswith_app.
  - exists {| consistent := true; discrepancies := [] |}.
    split; [exact Hcm|]. split.
    + unfold verify_consistency. rewrite Hdb. simpl. unfold bind.
      now rewrite get_latest_checkpoint_database, Hlast.
    + intros message Hin. inversion Hin.
Qed.

Lemma database_session_point size c0 st log cm batch_id count :
  database_session os size c0 st log ->
  last log = Some (batch_id, count) ->
  0 <= stored_base c0 ->
  cm_db cm = Some Database.storage ->
  get_recovery_point cm (snd st)
  = (snd st,
     inr {| rp_last_batch_id := VStr batch_id;
            rp_total_persisted := VInt (stored_base c0 + session_total log);
            can_resume := true |}).
Proof.
  intros Hsession Hlast Hbase Hdb.
  destruct (database_session_state size c0 st log Hsession)
    as (_ & Hlog & cm' & added & _ & _ & _ & Hmem & Hrows & _).
  pose proof (session_checkpoints_last (stored_base c0) log) as Hck.
  rewrite Hlast in Hck.
  destruct (last (session_checkpoints (stored_base c0) log)) as [ck|] eqn:Eck;
    [|contradiction].
  destruct Hck as [Hid Htotal].
  assert (last (Database.checkpoints (snd st)) = Some (checkpoint_row_of ck)) as Hrow.
  { now rewrite Hrows, last_app, fmap_last, Hmem, Eck. }
  rewrite (get_recovery_point_record cm (snd st) (snd st)
             (ODict {[ "last_batch_id" := VStr (last_batch_id ck);
                       "total_persisted" := VInt (total_persisted ck);
                       "status" := VStr (status ck) ]})).
  - unfold settled, point_of_record.
    change (_ !! "last_batch_id") with (Some (VStr (last_batch_id ck))).
    change (_ !! "total_persisted") with (Some (VInt (total_persisted ck))).
    simpl. pose proof (session_total_nonneg log Hlog).
    destruct (total_persisted ck <? 0) eqn:Hneg; [lia|].
    now rewrite Hid, Htotal.
  - rewrite Hdb. simpl. now rewrite get_latest_checkpoint_database, Hrow.
Qed.

(** X14. After such a session with at least one successful call, over a
    store whose cumulative count was not negative, [get_recovery_point] of
    any manager on that database (the session's, or a fresh one after a
    restart) returns the identifier of the last successful batch and the
    stored count plus the sum of all successful [persisted_count]s, and the
    session may be resumed. *)
Theorem database_session_recovery_point size c0 st log cm batch_id count :
  database_session os size c0 st log ->
  last log = Some (batch_id, count) ->
  0 <= stored_base c0 ->
  cm_db cm = Some Database.storage ->
  get_recovery_point cm (snd st)
  = (snd st,
     inr {| rp_last_batch_id := VStr batch_id;
            rp_total_persisted := VInt (stored_base c0 + session_total log);
            can_resume := true |}).
Proof. apply database_session_point. Qed.

End DatabaseSessions.

(** Two sessions on an empty store: one batch of two documents, and the
    same followed by a batch that repeats an identifier. *)
Lemma session_of_one_batch :
  database_session Mock.os 100 Database.empty
    (fst (process_batch Mock.os [Mock.doc "a"; Mock.doc "b"] "batch_001"
            (StreamingBatchWriter_init (Some Database.storage)
               (Some (CheckpointManager_init (Some Database.storage) None)) 100,
             Database.empty)))
    [("batch_001", 2)].
Proof.
  exact (ds_process Mock.os 100 Database.empty _ [] [Mock.doc "a"; Mock.doc "b"]
           "batch_001" (ds_init Mock.os 100 Database.empty)
           (text_documents_storable _ (mock_documents_text ["a"; "b"])) eq_refl).
Qed.

Lemma session_of_two_batches :
  database_session Mock.os 100 Database.empty
    (fst (process_batch Mock.os [Mock.doc "a"; Mock.doc "a"] "batch_002"
            (fst (process_batch Mock.os [Mock.doc "a"; Mock.doc "b"] "batch_001"
                    (StreamingBatchWriter_init (Some Database.storage)
                       (Some (CheckpointManager_init (Some Database.storage) None)) 100,
                     Database.empty)))))
    [("batch_001", 2)].
Proof.
  exact (ds_process Mock.os 100 Database.empty _ _ [Mock.doc "a"; Mock.doc "a"]
           "batch_002" session_of_one_batch
           (text_documents_storable _ (mock_documents_text ["a"; "a"])) eq_refl).
Qed.

Lemma database_session_totals_witness :
  let st :=
    fst (process_batch Mock.os [Mock.doc "a"; Mock.doc "b"] "batch_001"
           (StreamingBatchWriter_init (Some Database.storage)
              (Some (CheckpointManager_init (Some Database.storage) None)) 100,
            Database.empty)) in
  exists cm,
    w_checkpoint_manager (fst st) = Some cm
    /\ Database.checkpoints (snd st) = checkpoint_row_of <$> _checkpoints cm.
Proof.
  intros st.
  destruct (database_session_totals Mock.os 100 Database.empty st [("batch_001", 2)]
              session_of_one_batch)
    as (cm & Hcm & _ & _ & Hrows & _).
  exists cm. split; [exact Hcm | exact Hrows].
Defined.

Lemma database_session_within_witness :
  let st :=
    fst (process_batch Mock.os [Mock.doc "a"; Mock.doc "a"] "batch_002"
           (fst (process_batch Mock.os [Mock.doc "a"; Mock.doc "b"] "batch_001"
                   (StreamingBatchWriter_init (Some Database.storage)
                      (Some (CheckpointManager_init (Some Database.storage) None)) 100,
                    Database.empty)))) in
  stored_within (snd st).
Proof.
  intros st.
  exact (proj1 (database_session_within Mock.os 100 Database.empty st
                  [("batch_001", 2)] session_of_two_batches I)).
Defined.

Lemma database_session_recovery_point_witness :
  let st :=
    fst (process_batch Mock.os [Mock.doc "a"; Mock.doc "b"] "batch_001"
           (StreamingBatchWriter_init (Some Database.storage)
              (Some (CheckpointManager_init (Some Database.storage) None)) 100,
            Database.empty)) in
  get_recovery_point (CheckpointManager_init (Some Database.storage) None) (snd st)
  = (snd st,
     inr {| rp_last_batch_id := VStr "batch_001"; rp_total_persisted := VInt 2;
            can_resume := true |}).
Proof.
  intros st.
  exact (database_session_recovery_point Mock.os 100 Database.empty st
           [("batch_001", 2)] (CheckpointManager_init (Some Database.storage) None)
           "batch_001" 2 session_of_one_batch
           eq_refl ltac:(vm_compute; discriminate) eq_refl).
Defined.



(** ** recover: what it reports and what it deletes *)

Lemma numeric_suffix_nonneg s n : numeric_suffix s = Numbered n -> 0 <= n.
Proof.
  intros Hs. destruct (numeric_suffix_Numbered s n Hs) as (prefix & digits & _ & _ & Hn).
  exact (int_nonneg digits n Hn).
Qed.

(** Once the batch count is computed, [resume_from] does not raise, and the
    two are the same number read twice. *)
Lemma resume_after_count point count :
  batch_count (rp_last_batch_id point) = inr count ->
  (resume_from point = inr None /\ count = 0)
  \/ (0 <= count
      /\ resume_from point
         = inr match format_03d (count + 1) with
               | Some next => Some ("batch_" +:+ next)
               | None => None
               end).
Proof.
  unfold batch_count, resume_from.
  destruct (rp_last_batch_id point) as [| b | z | s].
  - intros [= <-]. now left.
  - destruct (truthy (VBool b)); [discriminate|]. intros [= <-]. now left.
  - destruct (truthy (VInt z)); [discriminate|]. intros [= <-]. now left.
  - destruct (truthy (VStr s)); simpl; [|intros [= <-]; now left].
    destruct (numeric_suffix s) as [n| |] eqn:Hs; intros [= <-]; auto.
    right. split; [exact (numeric_suffix_nonneg s n Hs)|].
    now destruct (format_03d (n + 1)).
Qed.

(** X16. Whatever the storage and the manager do, the result of [recover]
    names the batch after the one it counts: either [resume_from] is absent
    and [recovered_batches] is 0, or the recovery succeeded and
    [resume_from] is "batch_" followed by [recovered_batches + 1], padded
    to three digits; in that second case it is absent when that number has
    more than 4300 digits, which the interpreter refuses to print. *)
Theorem recover_resume_number {S} (self : CrashRecoveryHandler S) (s : S) :
  exists s' result,
    recover self s = (s', inr result)
    /\ ((rr_resume_from result = None /\ recovered_batches result = 0)
        \/ (rr_success result = true
            /\ 0 <= recovered_batches result
            /\ (within_limit (decimal (recovered_batches result + 1)) ->
                rr_resume_from result
                = Some ("batch_" +:+ zfill 3 (decimal (recovered_batches result + 1))))
            /\ (~ within_limit (decimal (recovered_batches result + 1)) ->
                rr_resume_from result = None))).
Proof.
  rewrite recover_steps.
  destruct (match h_db self with Some db => _ | None => _ end) as [s1 [e|alive]];
    [do 2 eexists; split; [reflexivity | left; now split]|].
  destruct (h_checkpoint_manager self) as [cm|];
    [|do 2 eexists; split; [reflexivity | left; now split]].
  destruct (get_recovery_point cm s1) as [s2 [e|point]];
    [do 2 eexists; split; [reflexivity | left; now split]|].
  destruct (negb (can_resume point));
    [do 2 eexists; split; [reflexivity | left; now split]|].
  destruct (batch_count (rp_last_batch_id point)) as [e|count] eqn:Hcount;
    [do 2 eexists; split; [reflexivity | left; now split]|].
  destruct (check_partial self s2) as [s3 [e|discarded]];
    [do 2 eexists; split; [reflexivity | left; now split]|].
  destruct (resume_after_count point count Hcount) as [[-> ->] | [Hn ->]];
    do 2 eexists; (split; [reflexivity|]); [left; now split | right].
  simpl. repeat split; [exact Hn | |]; intros Hnext.
  - now rewrite (format_03d_within (count + 1) ltac:(lia) Hnext).
  - now rewrite (format_03d_beyond (count + 1) ltac:(lia) Hnext).
Qed.

Lemma discard_shrinks c :
  snd (Database.has_partial_batch c) = inr true ->
  Database.discard_partial_batch c = (fst (Database.discard_partial_batch c), inr tt)
  /\ (length (Database.documents (fst (Database.discard_partial_batch c)))
      < length (Database.documents c))%nat.
Proof.
  rewrite has_partial_batch_steps, discard_partial_batch_steps.
  destruct (last (Database.checkpoints c)) as [r|].
  - destruct (Database.last_batch_num (Database.ck_last_batch_id r)) as [e|n];
      [discriminate|].
    simpl. intros [= (row & Hrow & Hd)%existsb_exists]. split; [reflexivity|].
    apply list_elem_of_In in Hrow. unfold committed_rows.
    apply (length_filter_lt _ _ row Hrow).
    rewrite (detected_is_partial _ _ _ Hd). discriminate.
  - simpl. intros [= Hne]. split; [reflexivity|].
    destruct (Database.documents c); [discriminate Hne | simpl; lia].
Qed.

Lemma check_partial_discards (self : CrashRecoveryHandler Database.conn) c :
  (forall db, h_db self = Some db -> db = Database.storage) ->
  (check_partial self c = (c, snd (check_partial self c))
   /\ snd (check_partial self c) <> inr true)
  \/ (check_partial self c = (fst (Database.discard_partial_batch c), inr true)
      /\ (length (Database.documents (fst (Database.discard_partial_batch c)))
          < length (Database.documents c))%nat).
Proof.
  intros Hdb. unfold check_partial.
  destruct (h_db self) as [db|]; [|left; now split].
  rewrite (Hdb db eq_refl). simpl. unfold bind.
  pose proof (has_partial_batch_state c) as Hstate.
  pose proof (discard_shrinks c) as Hshrink.
  destruct (Database.has_partial_batch c) as [c0 [e|[|]]]; simpl in *; subst c0.
  - left. now split.
  - right. destruct (Hshrink eq_refl) as [Hd Hlt]. rewrite Hd. now split.
  - left. now split.
Qed.

(** X17. [recover] on the database of [database.py] returns, never touches
    the checkpoint table, and deletes documents only through
    [discard_partial_batch]: when the result says no partial batch was
    discarded (in particular whenever it reports a failure or a fresh start)
    the store is unchanged, and when it says one was, the recovery succeeded,
    the store is what [discard_partial_batch] leaves, and at least one row
    is gone. *)
Theorem recover_database_frame (self : CrashRecoveryHandler Database.conn)
    (c : Database.conn) :
  (forall db, h_db self = Some db -> db = Database.storage) ->
  (forall cm db,
     h_checkpoint_manager self = Some cm -> cm_db cm = Some db ->
     db = Database.storage) ->
  exists c' result,
    recover self c = (c', inr result)
    /\ Database.checkpoints c' = Database.checkpoints c
    /\ sublist (Database.documents c') (Database.documents c)
    /\ if partial_batch_discarded result then
         rr_success result = true
         /\ c' = fst (Database.discard_partial_batch c)
         /\ (length (Database.documents c') < length (Database.documents c))%nat
       else c' = c.
Proof.
  intros handler_db manager_db.
  rewrite (recover_database self c handler_db manager_db). unfold outcome.
  assert (forall result,
            partial_batch_discarded result = false ->
            exists c' result',
              (c, inr result) = (c', inr result' : exn + RecoveryResult)
              /\ Database.checkpoints c' = Database.checkpoints c
              /\ sublist (Database.documents c') (Database.documents c)
              /\ if partial_batch_discarded result' then
                   rr_success result' = true
                   /\ c' = fst (Database.discard_partial_batch c)
                   /\ (length (Database.documents c')
                       < length (Database.documents c))%nat
                 else c' = c) as Hsame.
  { intros result Hd. exists c, result. rewrite Hd. now repeat split. }
  destruct (h_checkpoint_manager self) as [cm|]; [|now apply Hsame].
  destruct (snd (get_recovery_point cm _)) as [e|point]; [now apply Hsame|].
  destruct (negb (can_resume point)); [now apply Hsame|].
  destruct (batch_count (rp_last_batch_id point)) as [e|count] eqn:Hcount;
    [now apply Hsame|].
  destruct (resume_after_count point count Hcount) as [[Hnext _] | [_ Hnext]];
    rewrite Hnext;
    (destruct (check_partial_discards self c handler_db) as [[Hc Hr] | [Hc Hlt]];
     rewrite Hc;
     [destruct (snd (check_partial self c)) as [e|[|]];
      [now apply Hsame | congruence | now apply Hsame]
     |do 2 eexists; split; [reflexivity|]; simpl;
      pose proof (discard_partial_batch_steps c) as Hsteps;
      split; [|split; [|now repeat split]]]).
  all: try (rewrite Hsteps;
            destruct (last (Database.checkpoints c)) as [r|];
            [destruct (Database.last_batch_num _)|]; reflexivity).
  all: rewrite Hsteps;
    destruct (last (Database.checkpoints c)) as [r|];
    [destruct (Database.last_batch_num _); simpl;
     [reflexivity | apply sublist_filter]
    |apply sublist_nil_l].
Qed.

Lemma recover_database_frame_witness :
  let row b := {| Database.doc_id := VStr b; Database.doc_content := VStr "text";
                  Database.doc_batch_id := b |} in
  let c := {| Database.documents := [row "batch_004"; row "batch_005_partial"];
              Database.checkpoints :=
                [{| Database.ck_last_batch_id := VStr "batch_004";
                    Database.ck_total_persisted := VInt 1;
                    Database.ck_status := VStr "committed" |}] |} in
  exists c' result,
    recover {| h_checkpoint_manager :=
                 Some (CheckpointManager_init (Some Database.storage) None);
               h_db := Some Database.storage |} c = (c', inr result)
    /\ Database.checkpoints c' = Database.checkpoints c.
Proof.
  intros row c.
  destruct (recover_database_frame
              {| h_checkpoint_manager :=
                   Some (CheckpointManager_init (Some Database.storage) None);
                 h_db := Some Database.storage |} c)
    as (c' & result & Hcall & Hrows & _).
  - now intros db [= <-].
  - now intros cm db [= <-] [= <-].
  - exists c', result. now split.
Defined.

(** ** Printing and reading batch numbers *)

Lemma int_acc_pos d acc :
  int_acc (Z.pos acc) (NilEmpty.string_of_uint d) = Some (Z.pos (Pos.of_uint_acc d acc)).
Proof.
  revert acc. induction d as [|d IH|d IH|d IH|d IH|d IH|d IH|d IH|d IH|d IH|d IH];
    intros acc; [reflexivity|..];
    cbn [NilEmpty.string_of_uint int_acc Pos.of_uint_acc];
    change (is_decimal _) with true; cbv iota; rewrite <- IH; f_equal;
    unfold digit_value, code;
    match goal with
    | |- context [Z.of_nat ?x] =>
        let v := eval vm_compute in (Z.of_nat x) in change (Z.of_nat x) with v
    end; lia.
Qed.

Lemma int_acc_zero d :
  int_acc 0 (NilEmpty.string_of_uint d) = Some (Z.of_N (Pos.of_uint d)).
Proof.
  induction d as [|d IH|d IH|d IH|d IH|d IH|d IH|d IH|d IH|d IH|d IH];
    [reflexivity | exact IH |..];
    cbn [NilEmpty.string_of_uint int_acc Pos.of_uint];
    change (is_decimal _) with true; cbv iota; apply int_acc_pos.
Qed.

Lemma all_decimal_uint d : all_chars is_decimal (NilEmpty.string_of_uint d) = true.
Proof.
  induction d as [|d IH|d IH|d IH|d IH|d IH|d IH|d IH|d IH|d IH|d IH];
    [reflexivity|..]; cbn [NilEmpty.string_of_uint all_chars];
    rewrite IH; reflexivity.
Qed.

Lemma decimal_digits n :
  0 <= n ->
  decimal n <> "" /\ all_chars is_decimal (decimal n) = true
  /\ int_acc 0 (decimal n) = Some n.
Proof.
  intros Hn. unfold decimal.
  pose proof (DecimalN.Unsigned.of_to (Z.to_N n)) as Hround.
  unfold N.of_uint in Hround.
  destruct (N.to_uint (Z.to_N n)) as [|d|d|d|d|d|d|d|d|d|d] eqn:Hd.
  1: { change (NilZero.string_of_uint Decimal.Nil) with "0".
       change (Pos.of_uint Decimal.Nil) with 0%N in Hround.
       repeat split; [discriminate|]. change (int_acc 0 "0") with (Some 0).
       f_equal. lia. }
  all: split; [discriminate|]; split;
    [exact (all_decimal_uint _) | unfold NilZero.string_of_uint];
    rewrite int_acc_zero, Hround; f_equal; lia.
Qed.

Lemma zeros_digits k s :
  all_chars is_decimal (zeros k +:+ s) = all_chars is_decimal s
  /\ int_acc 0 (zeros k +:+ s) = int_acc 0 s
  /\ (s <> "" -> zeros k +:+ s <> "").
Proof.
  induction k as [|k (IH1 & IH2 & IH3)]; [now repeat split|].
  change (zeros (S k) +:+ s) with (String "0" (zeros k +:+ s)).
  repeat split; [exact IH1 | exact IH2 | discriminate].
Qed.

Lemma zfill_digits n :
  0 <= n -> within_limit (decimal n) ->
  within_limit (zfill 3 (decimal n))
  /\ zfill 3 (decimal n) <> ""
  /\ all_chars is_decimal (zfill 3 (decimal n)) = true
  /\ int (zfill 3 (decimal n)) = Some n.
Proof.
  intros Hn Hlen. unfold zfill.
  destruct (decimal_digits n Hn) as (Hne & Hall & Hint).
  destruct (zeros_digits (3 - String.length (decimal n)) (decimal n)) as (H1 & H2 & H3).
  assert (Hin : within_limit (zeros (3 - String.length (decimal n)) +:+ decimal n)).
  { unfold within_limit, max_str_digits in *.
    rewrite length_app_string, length_zeros. lia. }
  repeat split; [exact Hin | now apply H3 | now rewrite H1 |].
  rewrite (int_within _ Hin (H3 Hne)), H2. exact Hint.
Qed.

Lemma numeric_suffix_batch n :
  0 <= n -> within_limit (decimal n) ->
  numeric_suffix ("batch_" +:+ zfill 3 (decimal n)) = Numbered n.
Proof.
  intros Hn Hlen. destruct (zfill_digits n Hn Hlen) as (Hin & Hne & Hall & Hint).
  destruct (numeric_suffix_conforming ("batch_" +:+ zfill 3 (decimal n)) "batch"
              (zfill 3 (decimal n)))
    as (k & Hk & ->); [now repeat split | exact Hin | congruence].
Qed.

(** X18. The identifier [resume_from] prints is one the code reads back.
    For [n >= 0] with at most 4300 digits, [int] of [n] printed with three
    digits is [n], and "batch_" followed by it is numbered [n]. So when the
    last batch is numbered [n] and [n + 1] has at most 4300 digits,
    [resume_from] is an identifier that [recover] counts as [n + 1], and
    from which [resume_from] is "batch_" followed by [n + 2] when that too
    has at most 4300 digits. *)
Theorem resume_from_round_trip n :
  0 <= n ->
  within_limit (decimal n) ->
  format_03d n = Some (zfill 3 (decimal n))
  /\ int (zfill 3 (decimal n)) = Some n
  /\ numeric_suffix ("batch_" +:+ zfill 3 (decimal n)) = Numbered n
  /\ forall point s,
       rp_last_batch_id point = VStr s ->
       numeric_suffix s = Numbered n ->
       within_limit (decimal (n + 1)) ->
       exists next,
         resume_from point = inr (Some next)
         /\ batch_count (VStr next) = inr (n + 1)
         /\ forall total resume,
              within_limit (decimal (n + 2)) ->
              resume_from {| rp_last_batch_id := VStr next;
                             rp_total_persisted := total; can_resume := resume |}
              = inr (Some ("batch_" +:+ zfill 3 (decimal (n + 2)))).
Proof.
  intros Hn Hlen. split; [exact (format_03d_within n Hn Hlen)|].
  split; [apply (zfill_digits n Hn Hlen)|].
  split; [exact (numeric_suffix_batch n Hn Hlen)|].
  intros point s Hs Hnum Hnext. exists ("batch_" +:+ zfill 3 (decimal (n + 1))).
  pose proof (numeric_suffix_batch (n + 1) ltac:(lia) Hnext) as Hread.
  unfold resume_from, batch_count. rewrite Hs.
  assert (truthy (VStr s) = true) as ->.
  { destruct s; [discriminate Hnum | reflexivity]. }
  simpl. rewrite Hnum, Hread, (format_03d_within (n + 1) ltac:(lia) Hnext).
  repeat split. intros _ _ Hnext2.
  replace (n + 1 + 1) with (n + 2) by lia.
  now rewrite (format_03d_within (n + 2) ltac:(lia) Hnext2).
Qed.

Lemma resume_from_round_trip_witness :
  int (zfill 3 (decimal 41)) = Some 41
  /\ numeric_suffix ("batch_" +:+ zfill 3 (decimal 41)) = Numbered 41.
Proof.
  destruct (resume_from_round_trip 41 ltac:(lia)) as (_ & Hint & Hnum & _).
  - unfold within_limit. simpl. unfold max_str_digits. lia.
  - split; [exact Hint | exact Hnum].
Defined.

(** ** update_checkpoint on the database *)

(** X19. A manager on the database of [database.py], without checkpoint
    file and in step with the checkpoint table (a fresh manager is), given a
    count [>= 0] that keeps the total within the 64 bits of the column:
    [update_checkpoint] returns, adds the row of the checkpoint
    it returns to the table, touches no document and leaves the manager in
    step. The checkpoint has status "committed" and the stored cumulative
    count plus the given one; its [db_count_matches] is True iff
    [verify_db_state] was asked and the store holds exactly that many
    documents, which is what [verify_consistency] reports right after; and
    when the total is not negative, [get_recovery_point] hands back the
    batch identifier and the total. *)
Theorem update_checkpoint_database_round_trip (os : OS Database.conn)
    (cm : CheckpointManager Database.conn) (c : Database.conn)
    batch_id n metadata verify :
  in_step cm c ->
  0 <= n ->
  n + stored_base c < 2 ^ 63 ->
  exists checkpoint cm' c',
    update_checkpoint os batch_id n metadata verify (cm, c) = ((cm', c'), inr checkpoint)
    /\ in_step cm' c'
    /\ Database.documents c' = Database.documents c
    /\ Database.checkpoints c'
       = (Database.checkpoints c ++ [checkpoint_row_of checkpoint])%list
    /\ last_batch_id checkpoint = batch_id
    /\ status checkpoint = "committed"
    /\ total_persisted checkpoint = n + stored_base c
    /\ db_count_matches checkpoint
       = verify && (Z.of_nat (length (Database.documents c)) =? total_persisted checkpoint)
    /\ (exists report,
          verify_consistency cm' c' = (c', inr report)
          /\ consistent report
             = (Z.of_nat (length (Database.documents c)) =? total_persisted checkpoint))
    /\ (0 <= total_persisted checkpoint ->
        get_recovery_point cm' c'
        = (c', inr {| rp_last_batch_id := VStr batch_id;
                      rp_total_persisted := VInt (total_persisted checkpoint);
                      can_resume := true |})).
Proof.
  intros Hstep Hn _.
  rewrite (update_checkpoint_database os cm c batch_id n metadata verify Hstep Hn).
  destruct Hstep as (Hdb & Hfile & Hmem).
  set (ck := {| last_batch_id := batch_id; total_persisted := n + stored_base c;
                status := "committed";
                db_count_matches :=
                  verify && (Z.of_nat (length (Database.documents c))
                             =? n + stored_base c) |}).
  set (c' := {| Database.documents := Database.documents c;
                Database.checkpoints :=
                  (Database.checkpoints c ++ [checkpoint_row_of ck])%list |}).
  assert (Database.get_latest_checkpoint c'
          = (c', inr (ODict {[ "last_batch_id" := VStr batch_id;
                               "total_persisted" := VInt (n + stored_base c);
                               "status" := VStr "committed" ]}))) as Hlatest.
  { rewrite get_latest_checkpoint_database. subst c'. simpl. now rewrite last_snoc. }
  exists ck, (append_checkpoint ck cm), c'. split; [reflexivity|].
  split; [|repeat split].
  - repeat split; try assumption. simpl. intros ck'.
    rewrite !last_snoc. now intros [= <-].
  - eexists. split.
    + now apply (verify_consistency_counts (append_checkpoint ck cm) c' Database.storage
                   c' c' _ (n + stored_base c)
                   (Z.of_nat (length (Database.documents c))) Hdb Hlatest).
    + subst ck. simpl.
      destruct (_ =? _); [reflexivity|]. now destruct (_ >? _).
  - intros Htotal.
    rewrite (get_recovery_point_record (append_checkpoint ck cm) c' c'
               (ODict {[ "last_batch_id" := VStr batch_id;
                         "total_persisted" := VInt (n + stored_base c);
                         "status" := VStr "committed" ]})).
    + unfold settled, point_of_record.
      change (_ !! "last_batch_id") with (Some (VStr batch_id)).
      change (_ !! "total_persisted") with (Some (VInt (n + stored_base c))).
      simpl in *. now destruct (n + stored_base c <? 0) eqn:Hneg; [lia|].
    + simpl. rewrite Hdb. exact Hlatest.
Qed.

Lemma update_checkpoint_database_round_trip_witness :
  exists checkpoint cm' c',
    update_checkpoint Mock.os "batch_001" 3 None true
      (CheckpointManager_init (Some Database.storage) None, Database.empty)
    = ((cm', c'), inr checkpoint)
    /\ in_step cm' c'
    /\ db_count_matches checkpoint = false.
Proof.
  destruct (update_checkpoint_database_round_trip Mock.os
              (CheckpointManager_init (Some Database.storage) None) Database.empty
              "batch_001" 3 None true)
    as (checkpoint & cm' & c' & Hcall & Hstep & _ & _ & _ & _ & Htotal & Hmatch & _).
  - repeat split. discriminate.
  - lia.
  - reflexivity.
  - exists checkpoint, cm', c'. repeat split; try assumption; try apply Hstep.
    rewrite Hmatch, Htotal. reflexivity.
Defined.

(** ** Recovery after a session *)

(** X20. [recover] called on the same connection after such a session
    with at least one successful call, over a store whose cumulative count
    was not negative. With any manager on that database it succeeds;
    [recovered_batches] is the number of the last successful batch and
    [resume_from] names the next one (0 and absent when that identifier is
    not of the form prefix_digits with at most 4300 digits; absent also when
    the next number has more digits than that); no data loss is reported. A
    partial batch is reported exactly when [has_partial_batch] detects a row
    beyond that checkpoint in the connection's view, and then the store keeps
    the rows [discard_partial_batch] leaves; otherwise the store is
    untouched. *)
Theorem database_session_recover (os : OS Database.conn) size c0 st log cm
    batch_id count :
  database_session os size c0 st log ->
  last log = Some (batch_id, count) ->
  0 <= stored_base c0 ->
  cm_db cm = Some Database.storage ->
  let last_num :=
    match numeric_suffix batch_id with Numbered n => n | _ => 0 end in
  let partial :=
    existsb (fun row => detected (VStr batch_id) last_num (Database.doc_batch_id row))
      (Database.documents (snd st)) in
  recover {| h_checkpoint_manager := Some cm; h_db := Some Database.storage |} (snd st)
  = (if partial then
       {| Database.documents :=
            committed_rows (VStr batch_id) last_num (Database.documents (snd st));
          Database.checkpoints := Database.checkpoints (snd st) |}
     else snd st,
     inr {| rr_success := true; recovered_batches := last_num;
            rr_resume_from :=
              match numeric_suffix batch_id with
              | Numbered n =>
                  match format_03d (n + 1) with
                  | Some next => Some ("batch_" +:+ next)
                  | None => None
                  end
              | _ => None
              end;
            data_loss := Some 0; partial_batch_discarded := partial;
            rr_error := None; rr_can_resume := true |}).
Proof.
  intros Hsession Hlast Hbase Hdb last_num partial.
  pose proof (database_session_point os size c0 st log cm batch_id count
                Hsession Hlast Hbase Hdb) as Hpoint.
  destruct (database_session_state os size c0 st log Hsession)
    as (_ & _ & cm' & added & _ & _ & _ & Hmem & Hrows & _).
  pose proof (session_checkpoints_last (stored_base c0) log) as Hck.
  rewrite Hlast in Hck.
  destruct (last (session_checkpoints (stored_base c0) log)) as [ck|] eqn:Eck;
    [|contradiction].
  destruct Hck as [Hid _].
  assert (last (Database.checkpoints (snd st)) = Some (checkpoint_row_of ck)) as Hrow.
  { now rewrite Hrows, last_app, fmap_last, Hmem, Eck. }
  rewrite recover_database;
    [|now intros db [= <-] | intros cm0 db [= <-]; simpl; congruence].
  unfold outcome. simpl.
  rewrite (get_recovery_point_database cm (snd st)) in Hpoint by congruence.
  injection Hpoint as Hpoint. rewrite Hpoint. simpl.
  assert (Database.last_batch_num (VStr batch_id) = inr last_num) as Hnum.
  { subst last_num. simpl. now destruct (numeric_suffix batch_id). }
  assert (batch_count (VStr batch_id) = inr last_num) as ->.
  { subst last_num. unfold batch_count. destruct (truthy (VStr batch_id)) eqn:Ht.
    - now destruct (numeric_suffix batch_id).
    - simpl in Ht. apply negb_false_iff, String.eqb_eq in Ht. now rewrite Ht. }
  assert (resume_from {| rp_last_batch_id := VStr batch_id;
                         rp_total_persisted := VInt (stored_base c0 + session_total log);
                         can_resume := true |}
          = inr match numeric_suffix batch_id with
                | Numbered n =>
                    match format_03d (n + 1) with
                    | Some next => Some ("batch_" +:+ next)
                    | None => None
                    end
                | _ => None
                end) as ->.
  { unfold resume_from. simpl. destruct (String.eqb batch_id "") eqn:Ht; simpl.
    - apply String.eqb_eq in Ht. now rewrite Ht.
    - destruct (numeric_suffix batch_id); try reflexivity.
      now destruct (format_03d _). }
  unfold check_partial. simpl. unfold bind.
  rewrite has_partial_batch_steps, Hrow.
  change (Database.ck_last_batch_id (checkpoint_row_of ck)) with (VStr (last_batch_id ck)).
  rewrite Hid, Hnum. fold partial.
  destruct partial; [|reflexivity].
  rewrite discard_partial_batch_steps, Hrow.
  change (Database.ck_last_batch_id (checkpoint_row_of ck)) with (VStr (last_batch_id ck)).
  rewrite Hid, Hnum. reflexivity.
Qed.

Lemma database_session_recover_witness :
  let st :=
    fst (process_batch Mock.os [Mock.doc "a"; Mock.doc "a"] "batch_002"
           (fst (process_batch Mock.os [Mock.doc "a"; Mock.doc "b"] "batch_001"
                   (StreamingBatchWriter_init (Some Database.storage)
                      (Some (CheckpointManager_init (Some Database.storage) None)) 100,
                    Database.empty)))) in
  exists c' result,
    recover {| h_checkpoint_manager :=
                 Some (CheckpointManager_init (Some Database.storage) None);
               h_db := Some Database.storage |} (snd st) = (c', inr result)
    /\ recovered_batches result = 1
    /\ rr_resume_from result = Some "batch_002".
Proof.
  intros st. do 2 eexists. split.
  - exact (database_session_recover Mock.os 100 Database.empty st [("batch_001", 2)]
             (CheckpointManager_init (Some Database.storage) None) "batch_001" 2
             session_of_two_batches eq_refl ltac:(vm_compute; discriminate) eq_refl).
  - split; reflexivity.
Defined.
